(** * Vote admission and tallying of the online-election backend

    A shallow embedding of [models.py], [schemas.py] and the endpoints of
    [main.py], and the properties of the admission of a vote
    ([create_vote]), of the results of a poll ([get_poll_results]), of the
    statistics of an election ([get_election_stats]) and of the dates of an
    election ([create_election], [update_election]).

    - The SQLite tables are lists of rows in rowid order, the order in which
      [poll.candidates] and [election.polls] yield their rows.
    - Primary keys and counts are Python integers, [Z].
    - The endpoints are first taken on the requests that SQLite and peewee
      take as they are: the integers of a request fit an SQLite [INTEGER],
      and the dates of an election are naive datetimes, points on an integer
      time line. The module [Python] then takes [create_election],
      [create_poll], [create_vote], [get_poll_results],
      [get_election_stats] and the five listings on every value of a
      request, with the [OverflowError] of an integer beyond 64 bits and
      the [TypeError] of an election whose dates were written with a time
      zone.
    - The readings of [datetime.now()] are arguments of the endpoints.
    - A Python exception is the [Raise] branch of the result of a function;
      [try]/[except] is [try_except].
    - An endpoint that writes maps the store to its response and the new
      store. Requests run one after the other, except in
      [create_vote_interleaved], where the store may change between the
      reads and the insert of [create_vote].
    - The binary64 arithmetic of the percentage is that of [SpecFloat] at
      precision 53. *)

From Stdlib Require Import ZArith List String Ascii Bool Lia Permutation.
From Stdlib Require Import Sorting.Sorted.
From Stdlib Require Import Floats.SpecFloat.
Import ListNotations.

Local Open Scope string_scope.
Local Open Scope list_scope.
Local Open Scope Z_scope.

(* ================================================================== *)
(** * Exceptions *)
(* ================================================================== *)

(** The peewee model classes, as far as [DoesNotExist] tells them apart. *)
Inductive model := ElectionM | PollM | CandidateM | VoterM | VoteM.

(** The exceptions the endpoints raise or let through. The argument of
    [IntegrityError] is the message of SQLite, which [create_voter] and
    [update_voter] inspect. [OverflowError] and [TypeError] are raised in
    the module [Python] only. *)
Inductive exn :=
| HTTPException (status_code : Z) (detail : string)
| DoesNotExist (m : model)
| IntegrityError (msg : string)
| ZeroDivisionError
| OverflowError
| TypeError.

Inductive result (A : Type) :=
| Ok (a : A)
| Raise (e : exn).

Arguments Ok {A} a.
Arguments Raise {A} e.

Definition bind {A B} (r : result A) (k : A -> result B) : result B :=
  match r with
  | Ok a => k a
  | Raise e => Raise e
  end.

Declare Scope exn_scope.
Delimit Scope exn_scope with exn.
Notation "x <- r ;; k" := (bind r (fun x => k))
  (at level 61, r at next level, right associativity) : exn_scope.
Notation "' p <- r ;; k" := (bind r (fun p => k))
  (at level 61, p pattern, r at next level, right associativity) : exn_scope.
Local Open Scope exn_scope.

(** [try: body except handler]: an exception for which the handler has a
    clause is replaced by what that clause raises; any other one
    propagates. *)
Definition try_except {A} (body : result A) (handler : exn -> option exn)
  : result A :=
  match body with
  | Ok a => Ok a
  | Raise e =>
      match handler e with
      | Some e' => Raise e'
      | None => Raise e
      end
  end.

(** The [for] loops of the endpoints, with the loop variables as the
    accumulator. *)
Fixpoint for_each {A S} (l : list A) (acc : S) (body : S -> A -> result S)
  : result S :=
  match l with
  | [] => Ok acc
  | x :: l' => acc' <- body acc x ;; for_each l' acc' body
  end.

(* ================================================================== *)
(** * schemas.py *)
(* ================================================================== *)

(** A naive datetime, as [datetime.now()] returns it and as peewee reads
    it back: a point on the time line. [pydatetime] below adds the aware
    ones that a request may carry. *)
Definition datetime := Z.

Module ElectionCreate.
Record t := {
  title : string;
  description : option string;
  start_date : datetime;
  end_date : datetime;
  is_active : bool }.
End ElectionCreate.

Module PollCreate.
Record t := {
  election_id : Z;
  title : string;
  description : option string;
  max_votes_per_voter : Z;
  is_active : bool }.
End PollCreate.

Module CandidateCreate.
Record t := {
  poll_id : Z;
  name : string;
  description : option string }.
End CandidateCreate.

Module VoterCreate.
Record t := {
  email : string;
  name : string;
  is_verified : bool }.
End VoterCreate.

Module VoteCreate.
Record t := {
  poll_id : Z;
  candidate_id : Z;
  voter_id : Z }.
End VoteCreate.

Module VoteResponse.
Record t := {
  poll_id : Z;
  candidate_id : Z;
  voter_id : Z;
  id : Z;
  voted_at : datetime }.
End VoteResponse.

(* ================================================================== *)
(** * models.py *)
(* ================================================================== *)

Module Election.
Record t := {
  id : Z;
  created_at : datetime;
  title : string;
  description : option string;
  start_date : datetime;
  end_date : datetime;
  is_active : bool }.
End Election.

Module Poll.
Record t := {
  id : Z;
  created_at : datetime;
  election_id : Z;
  title : string;
  description : option string;
  max_votes_per_voter : Z;
  is_active : bool }.
End Poll.

Module Candidate.
Record t := {
  id : Z;
  created_at : datetime;
  poll_id : Z;
  name : string;
  description : option string }.
End Candidate.

Module Voter.
Record t := {
  id : Z;
  created_at : datetime;
  email : string;
  name : string;
  is_verified : bool }.
End Voter.

Module Vote.
Record t := {
  id : Z;
  created_at : datetime;
  poll_id : Z;
  candidate_id : Z;
  voter_id : Z;
  voted_at : datetime }.
End Vote.

(** The database: one list of rows per table, in rowid order. *)
Record Store := {
  elections : list Election.t;
  polls : list Poll.t;
  candidates : list Candidate.t;
  voters : list Voter.t;
  votes : list Vote.t }.

Definition empty_store : Store :=
  {| elections := []; polls := []; candidates := []; voters := [];
     votes := [] |}.

(** ** Queries *)

(** [Model.select().where(p).count()]. *)
Definition count {A} (p : A -> bool) (rows : list A) : Z :=
  Z.of_nat (List.length (filter p rows)).

Definition mem (x : Z) (l : list Z) : bool := existsb (Z.eqb x) l.

(** An [INTEGER PRIMARY KEY] without [AUTOINCREMENT]: the new rowid is one
    more than the largest one in the table. *)
Definition next_id (ids : list Z) : Z := 1 + fold_right Z.max 0 ids.

(** [Model.get(Model.id == pk)] for a key [pk] that fits an SQLite
    [INTEGER]: the row with that key, or [DoesNotExist]. [Python.get] adds
    the [OverflowError] of any other key. *)
Definition Election_get (s : Store) (pk : Z) : result Election.t :=
  match find (fun e => Election.id e =? pk) (elections s) with
  | Some e => Ok e
  | None => Raise (DoesNotExist ElectionM)
  end.

Definition Poll_get (s : Store) (pk : Z) : result Poll.t :=
  match find (fun p => Poll.id p =? pk) (polls s) with
  | Some p => Ok p
  | None => Raise (DoesNotExist PollM)
  end.

Definition Candidate_get (s : Store) (pk : Z) : result Candidate.t :=
  match find (fun c => Candidate.id c =? pk) (candidates s) with
  | Some c => Ok c
  | None => Raise (DoesNotExist CandidateM)
  end.

Definition Voter_get (s : Store) (pk : Z) : result Voter.t :=
  match find (fun v => Voter.id v =? pk) (voters s) with
  | Some v => Ok v
  | None => Raise (DoesNotExist VoterM)
  end.

(** The foreign-key attributes [candidate.poll] and [poll.election] load the
    referenced row, and raise its [DoesNotExist] when it is missing. *)
Definition Candidate_poll (s : Store) (c : Candidate.t) : result Poll.t :=
  Poll_get s (Candidate.poll_id c).

Definition Poll_election (s : Store) (p : Poll.t) : result Election.t :=
  Election_get s (Poll.election_id p).

(** The back-references [election.polls] and [poll.candidates]. *)
Definition Election_polls (s : Store) (e : Election.t) : list Poll.t :=
  filter (fun p => Poll.election_id p =? Election.id e) (polls s).

Definition Poll_candidates (s : Store) (p : Poll.t) : list Candidate.t :=
  filter (fun c => Candidate.poll_id c =? Poll.id p) (candidates s).

(** [Vote.select().where((Vote.poll == poll) & (Vote.voter == voter)).first()] *)
Definition existing_vote (s : Store) (p : Poll.t) (v : Voter.t)
  : option Vote.t :=
  find (fun x => (Vote.poll_id x =? Poll.id p)
                 && (Vote.voter_id x =? Voter.id v)) (votes s).

(** ** Constraint messages of SQLite *)

Definition fk_failed : string := "FOREIGN KEY constraint failed".
Definition unique_candidate : string :=
  "UNIQUE constraint failed: candidates.poll_id, candidates.name".
Definition unique_voter : string := "UNIQUE constraint failed: voters.email".
Definition unique_vote : string :=
  "UNIQUE constraint failed: votes.poll_id, votes.voter_id".

(** ** Inserts: [Model.create] *)

Definition Election_create (s : Store) (now : datetime)
  (election : ElectionCreate.t) : Election.t * Store :=
  let row :=
    {| Election.id := next_id (map Election.id (elections s));
       Election.created_at := now;
       Election.title := ElectionCreate.title election;
       Election.description := ElectionCreate.description election;
       Election.start_date := ElectionCreate.start_date election;
       Election.end_date := ElectionCreate.end_date election;
       Election.is_active := ElectionCreate.is_active election |} in
  (row, {| elections := elections s ++ [row]; polls := polls s;
           candidates := candidates s; voters := voters s;
           votes := votes s |}).

(** [max_votes_per_voter] is written as it is; [Python.create_poll] adds
    the [OverflowError] of a value beyond 64 bits. *)
Definition Poll_create (s : Store) (now : datetime) (poll : PollCreate.t)
  : result (Poll.t * Store) :=
  if negb (mem (PollCreate.election_id poll) (map Election.id (elections s)))
  then Raise (IntegrityError fk_failed)
  else
    let row :=
      {| Poll.id := next_id (map Poll.id (polls s));
         Poll.created_at := now;
         Poll.election_id := PollCreate.election_id poll;
         Poll.title := PollCreate.title poll;
         Poll.description := PollCreate.description poll;
         Poll.max_votes_per_voter := PollCreate.max_votes_per_voter poll;
         Poll.is_active := PollCreate.is_active poll |} in
    Ok (row, {| elections := elections s; polls := polls s ++ [row];
                candidates := candidates s; voters := voters s;
                votes := votes s |}).

Definition Candidate_create (s : Store) (now : datetime)
  (candidate : CandidateCreate.t) : result (Candidate.t * Store) :=
  if existsb (fun c => (Candidate.poll_id c =? CandidateCreate.poll_id candidate)
                       && String.eqb (Candidate.name c)
                                     (CandidateCreate.name candidate))
             (candidates s)
  then Raise (IntegrityError unique_candidate)
  else if negb (mem (CandidateCreate.poll_id candidate) (map Poll.id (polls s)))
  then Raise (IntegrityError fk_failed)
  else
    let row :=
      {| Candidate.id := next_id (map Candidate.id (candidates s));
         Candidate.created_at := now;
         Candidate.poll_id := CandidateCreate.poll_id candidate;
         Candidate.name := CandidateCreate.name candidate;
         Candidate.description := CandidateCreate.description candidate |} in
    Ok (row, {| elections := elections s; polls := polls s;
                candidates := candidates s ++ [row]; voters := voters s;
                votes := votes s |}).

Definition Voter_create (s : Store) (now : datetime) (voter : VoterCreate.t)
  : result (Voter.t * Store) :=
  if existsb (fun v => String.eqb (Voter.email v) (VoterCreate.email voter))
             (voters s)
  then Raise (IntegrityError unique_voter)
  else
    let row :=
      {| Voter.id := next_id (map Voter.id (voters s));
         Voter.created_at := now;
         Voter.email := VoterCreate.email voter;
         Voter.name := VoterCreate.name voter;
         Voter.is_verified := VoterCreate.is_verified voter |} in
    Ok (row, {| elections := elections s; polls := polls s;
                candidates := candidates s; voters := voters s ++ [row];
                votes := votes s |}).

(** [created_at] and [voted_at] both default to [datetime.now], read once
    for each field. *)
Definition Vote_create (s : Store) (created_at voted_at : datetime)
  (vote : VoteCreate.t) : result (Vote.t * Store) :=
  if existsb (fun x => (Vote.poll_id x =? VoteCreate.poll_id vote)
                       && (Vote.voter_id x =? VoteCreate.voter_id vote))
             (votes s)
  then Raise (IntegrityError unique_vote)
  else if negb (mem (VoteCreate.poll_id vote) (map Poll.id (polls s))
                && mem (VoteCreate.candidate_id vote)
                       (map Candidate.id (candidates s))
                && mem (VoteCreate.voter_id vote) (map Voter.id (voters s)))
  then Raise (IntegrityError fk_failed)
  else
    let row :=
      {| Vote.id := next_id (map Vote.id (votes s));
         Vote.created_at := created_at;
         Vote.poll_id := VoteCreate.poll_id vote;
         Vote.candidate_id := VoteCreate.candidate_id vote;
         Vote.voter_id := VoteCreate.voter_id vote;
         Vote.voted_at := voted_at |} in
    Ok (row, {| elections := elections s; polls := polls s;
                candidates := candidates s; voters := voters s;
                votes := votes s ++ [row] |}).

(** ** Updates: [instance.save()] of a row that was loaded by [get]

    The row with the same primary key is overwritten in place. *)

Definition Election_save (s : Store) (row : Election.t) : Store :=
  {| elections := map (fun e => if Election.id e =? Election.id row
                                then row else e) (elections s);
     polls := polls s; candidates := candidates s; voters := voters s;
     votes := votes s |}.

Definition Poll_save (s : Store) (row : Poll.t) : result Store :=
  if negb (mem (Poll.election_id row) (map Election.id (elections s)))
  then Raise (IntegrityError fk_failed)
  else
    Ok {| elections := elections s;
          polls := map (fun p => if Poll.id p =? Poll.id row
                                 then row else p) (polls s);
          candidates := candidates s; voters := voters s;
          votes := votes s |}.

Definition Candidate_save (s : Store) (row : Candidate.t) : result Store :=
  if existsb (fun c => negb (Candidate.id c =? Candidate.id row)
                       && (Candidate.poll_id c =? Candidate.poll_id row)
                       && String.eqb (Candidate.name c) (Candidate.name row))
             (candidates s)
  then Raise (IntegrityError unique_candidate)
  else if negb (mem (Candidate.poll_id row) (map Poll.id (polls s)))
  then Raise (IntegrityError fk_failed)
  else
    Ok {| elections := elections s; polls := polls s;
          candidates := map (fun c => if Candidate.id c =? Candidate.id row
                                      then row else c) (candidates s);
          voters := voters s; votes := votes s |}.

Definition Voter_save (s : Store) (row : Voter.t) : result Store :=
  if existsb (fun v => negb (Voter.id v =? Voter.id row)
                       && String.eqb (Voter.email v) (Voter.email row))
             (voters s)
  then Raise (IntegrityError unique_voter)
  else
    Ok {| elections := elections s; polls := polls s;
          candidates := candidates s;
          voters := map (fun v => if Voter.id v =? Voter.id row
                                  then row else v) (voters s);
          votes := votes s |}.

(** ** Deletes: [instance.delete_instance()] with [on_delete='CASCADE'] *)

Definition delete_votes_where (dead : Vote.t -> bool) (s : Store) : Store :=
  {| elections := elections s; polls := polls s;
     candidates := candidates s; voters := voters s;
     votes := filter (fun v => negb (dead v)) (votes s) |}.

Definition delete_candidates_where (dead : Candidate.t -> bool) (s : Store)
  : Store :=
  let gone := map Candidate.id (filter dead (candidates s)) in
  let s1 := delete_votes_where (fun v => mem (Vote.candidate_id v) gone) s in
  {| elections := elections s1; polls := polls s1;
     candidates := filter (fun c => negb (dead c)) (candidates s1);
     voters := voters s1; votes := votes s1 |}.

Definition delete_polls_where (dead : Poll.t -> bool) (s : Store) : Store :=
  let gone := map Poll.id (filter dead (polls s)) in
  let s1 := delete_votes_where (fun v => mem (Vote.poll_id v) gone) s in
  let s2 := delete_candidates_where
              (fun c => mem (Candidate.poll_id c) gone) s1 in
  {| elections := elections s2;
     polls := filter (fun p => negb (dead p)) (polls s2);
     candidates := candidates s2; voters := voters s2; votes := votes s2 |}.

Definition Election_delete_instance (s : Store) (e : Election.t) : Store :=
  let s1 := delete_polls_where
              (fun p => Poll.election_id p =? Election.id e) s in
  {| elections := filter (fun x => negb (Election.id x =? Election.id e))
                         (elections s1);
     polls := polls s1; candidates := candidates s1; voters := voters s1;
     votes := votes s1 |}.

Definition Poll_delete_instance (s : Store) (p : Poll.t) : Store :=
  delete_polls_where (fun x => Poll.id x =? Poll.id p) s.

Definition Candidate_delete_instance (s : Store) (c : Candidate.t) : Store :=
  delete_candidates_where (fun x => Candidate.id x =? Candidate.id c) s.

Definition Voter_delete_instance (s : Store) (v : Voter.t) : Store :=
  let s1 := delete_votes_where (fun x => Vote.voter_id x =? Voter.id v) s in
  {| elections := elections s1; polls := polls s1;
     candidates := candidates s1;
     voters := filter (fun x => negb (Voter.id x =? Voter.id v)) (voters s1);
     votes := votes s1 |}.

(* ================================================================== *)
(** * main.py: the [detail] texts *)
(* ================================================================== *)

Definition detail_bad_dates : string :=
  "Дата начала должна быть раньше даты окончания".
Definition detail_election_not_found : string :=
  "Избирательная кампания не найдена".
Definition detail_poll_not_found : string := "Голосование не найдено".
Definition detail_candidate_not_found : string := "Кандидат не найден".
Definition detail_voter_not_found : string := "Избиратель не найден".
Definition detail_email_taken : string :=
  "Избиратель с таким email уже существует".
Definition detail_voter_create_failed : string :=
  "Ошибка при создании избирателя".
Definition detail_voter_update_failed : string :=
  "Ошибка при обновлении избирателя".
Definition detail_candidate_not_in_poll : string :=
  "Кандидат не принадлежит указанному голосованию".
Definition detail_already_voted : string :=
  "Избиратель уже голосовал в этом голосовании".
Definition detail_poll_not_active : string := "Голосование не активно".
Definition detail_voter_not_verified : string :=
  "Избиратель не верифицирован".
Definition detail_window_closed : string :=
  "Голосование в данной кампании сейчас недоступно".

(** The [except Model.DoesNotExist] clauses. *)
Definition except_DoesNotExist (m : model) (detail : string) (e : exn)
  : option exn :=
  match e, m with
  | DoesNotExist ElectionM, ElectionM
  | DoesNotExist PollM, PollM
  | DoesNotExist CandidateM, CandidateM
  | DoesNotExist VoterM, VoterM
  | DoesNotExist VoteM, VoteM => Some (HTTPException 404 detail)
  | _, _ => None
  end.

(** Several [except] clauses in a row: the first that matches. *)
Definition orelse (h1 h2 : exn -> option exn) (e : exn) : option exn :=
  match h1 e with
  | Some e' => Some e'
  | None => h2 e
  end.

(** [str.lower] on the ASCII letters, and the [in] test on strings. *)
Definition lower_ascii (c : ascii) : ascii :=
  let n := nat_of_ascii c in
  if (Nat.leb 65 n && Nat.leb n 90)%bool then ascii_of_nat (n + 32) else c.

Fixpoint lower (s : string) : string :=
  match s with
  | EmptyString => EmptyString
  | String c s' => String (lower_ascii c) (lower s')
  end.

Fixpoint contains (needle hay : string) : bool :=
  prefix needle hay
  || match hay with
     | EmptyString => false
     | String _ hay' => contains needle hay'
     end.

(** [except Exception as e] of [create_voter] and [update_voter]. *)
Definition except_Exception_voter (otherwise : string) (e : exn)
  : option exn :=
  match e with
  | IntegrityError msg =>
      if contains "unique" (lower msg)
      then Some (HTTPException 400 detail_email_taken)
      else Some (HTTPException 400 otherwise)
  | _ => Some (HTTPException 400 otherwise)
  end.

(* ================================================================== *)
(** * main.py: the writing endpoints

    An endpoint maps the store to the response and the new store, or raises;
    every endpoint issues at most one writing statement, so that an endpoint
    that raises has written nothing. [now] stands for the readings of
    [datetime.now()]. The [Response.from_orm] of a row is the row. *)
(* ================================================================== *)

Definition create_election (now : datetime) (election : ElectionCreate.t)
  (s : Store) : result (Election.t * Store) :=
  if ElectionCreate.start_date election >=? ElectionCreate.end_date election
  then Raise (HTTPException 400 detail_bad_dates)
  else Ok (Election_create s now election).

Definition update_election (election_id : Z) (election : ElectionCreate.t)
  (s : Store) : result (Election.t * Store) :=
  try_except
    (election_db <- Election_get s election_id ;;
     if ElectionCreate.start_date election >=? ElectionCreate.end_date election
     then Raise (HTTPException 400 detail_bad_dates)
     else
       let election_db :=
         {| Election.id := Election.id election_db;
            Election.created_at := Election.created_at election_db;
            Election.title := ElectionCreate.title election;
            Election.description := ElectionCreate.description election;
            Election.start_date := ElectionCreate.start_date election;
            Election.end_date := ElectionCreate.end_date election;
            Election.is_active := ElectionCreate.is_active election |} in
       Ok (election_db, Election_save s election_db))
    (except_DoesNotExist ElectionM detail_election_not_found).

Definition delete_election (election_id : Z) (s : Store)
  : result (unit * Store) :=
  try_except
    (election <- Election_get s election_id ;;
     Ok (tt, Election_delete_instance s election))
    (except_DoesNotExist ElectionM detail_election_not_found).

Definition create_poll (now : datetime) (poll : PollCreate.t) (s : Store)
  : result (Poll.t * Store) :=
  try_except
    (_ <- Election_get s (PollCreate.election_id poll) ;;
     Poll_create s now poll)
    (except_DoesNotExist ElectionM detail_election_not_found).

Definition update_poll (poll_id : Z) (poll : PollCreate.t) (s : Store)
  : result (Poll.t * Store) :=
  try_except
    (poll_db <- Poll_get s poll_id ;;
     _ <- Election_get s (PollCreate.election_id poll) ;;
     let poll_db :=
       {| Poll.id := Poll.id poll_db;
          Poll.created_at := Poll.created_at poll_db;
          Poll.election_id := PollCreate.election_id poll;
          Poll.title := PollCreate.title poll;
          Poll.description := PollCreate.description poll;
          Poll.max_votes_per_voter := PollCreate.max_votes_per_voter poll;
          Poll.is_active := PollCreate.is_active poll |} in
     s' <- Poll_save s poll_db ;;
     Ok (poll_db, s'))
    (orelse (except_DoesNotExist PollM detail_poll_not_found)
            (except_DoesNotExist ElectionM detail_election_not_found)).

Definition delete_poll (poll_id : Z) (s : Store) : result (unit * Store) :=
  try_except
    (poll <- Poll_get s poll_id ;;
     Ok (tt, Poll_delete_instance s poll))
    (except_DoesNotExist PollM detail_poll_not_found).

Definition create_candidate (now : datetime) (candidate : CandidateCreate.t)
  (s : Store) : result (Candidate.t * Store) :=
  try_except
    (_ <- Poll_get s (CandidateCreate.poll_id candidate) ;;
     Candidate_create s now candidate)
    (except_DoesNotExist PollM detail_poll_not_found).

Definition update_candidate (candidate_id : Z) (candidate : CandidateCreate.t)
  (s : Store) : result (Candidate.t * Store) :=
  try_except
    (candidate_db <- Candidate_get s candidate_id ;;
     _ <- Poll_get s (CandidateCreate.poll_id candidate) ;;
     let candidate_db :=
       {| Candidate.id := Candidate.id candidate_db;
          Candidate.created_at := Candidate.created_at candidate_db;
          Candidate.poll_id := CandidateCreate.poll_id candidate;
          Candidate.name := CandidateCreate.name candidate;
          Candidate.description := CandidateCreate.description candidate |} in
     s' <- Candidate_save s candidate_db ;;
     Ok (candidate_db, s'))
    (orelse (except_DoesNotExist CandidateM detail_candidate_not_found)
            (except_DoesNotExist PollM detail_poll_not_found)).

Definition delete_candidate (candidate_id : Z) (s : Store)
  : result (unit * Store) :=
  try_except
    (candidate <- Candidate_get s candidate_id ;;
     Ok (tt, Candidate_delete_instance s candidate))
    (except_DoesNotExist CandidateM detail_candidate_not_found).

Definition create_voter (now : datetime) (voter : VoterCreate.t) (s : Store)
  : result (Voter.t * Store) :=
  try_except
    (Voter_create s now voter)
    (except_Exception_voter detail_voter_create_failed).

Definition update_voter (voter_id : Z) (voter : VoterCreate.t) (s : Store)
  : result (Voter.t * Store) :=
  try_except
    (voter_db <- Voter_get s voter_id ;;
     let voter_db :=
       {| Voter.id := Voter.id voter_db;
          Voter.created_at := Voter.created_at voter_db;
          Voter.email := VoterCreate.email voter;
          Voter.name := VoterCreate.name voter;
          Voter.is_verified := VoterCreate.is_verified voter |} in
     s' <- Voter_save s voter_db ;;
     Ok (voter_db, s'))
    (orelse (except_DoesNotExist VoterM detail_voter_not_found)
            (except_Exception_voter detail_voter_update_failed)).

Definition delete_voter (voter_id : Z) (s : Store) : result (unit * Store) :=
  try_except
    (voter <- Voter_get s voter_id ;;
     Ok (tt, Voter_delete_instance s voter))
    (except_DoesNotExist VoterM detail_voter_not_found).

(** ** [create_vote] *)

Definition VoteResponse_from_orm (vote_db : Vote.t) : VoteResponse.t :=
  {| VoteResponse.poll_id := Vote.poll_id vote_db;
     VoteResponse.candidate_id := Vote.candidate_id vote_db;
     VoteResponse.voter_id := Vote.voter_id vote_db;
     VoteResponse.id := Vote.id vote_db;
     VoteResponse.voted_at := Vote.voted_at vote_db |}.

Definition except_create_vote : exn -> option exn :=
  orelse (except_DoesNotExist PollM detail_poll_not_found)
    (orelse (except_DoesNotExist CandidateM detail_candidate_not_found)
            (except_DoesNotExist VoterM detail_voter_not_found)).

(** The statements of [create_vote] up to the insert: they only read. *)
Definition create_vote_checks (now : datetime) (vote : VoteCreate.t)
  (s : Store) : result unit :=
  poll <- Poll_get s (VoteCreate.poll_id vote) ;;
  candidate <- Candidate_get s (VoteCreate.candidate_id vote) ;;
  voter <- Voter_get s (VoteCreate.voter_id vote) ;;
  candidate_poll <- Candidate_poll s candidate ;;
  if negb (Poll.id candidate_poll =? Poll.id poll)
  then Raise (HTTPException 400 detail_candidate_not_in_poll)
  else
    match existing_vote s poll voter with
    | Some _ => Raise (HTTPException 400 detail_already_voted)
    | None =>
        if negb (Poll.is_active poll)
        then Raise (HTTPException 400 detail_poll_not_active)
        else if negb (Voter.is_verified voter)
        then Raise (HTTPException 400 detail_voter_not_verified)
        else
          election <- Poll_election s poll ;;
          if (now <? Election.start_date election)
             || (now >? Election.end_date election)
          then Raise (HTTPException 400 detail_window_closed)
          else Ok tt
    end.

(** The body of [create_vote] when other requests may write between its
    reads and its insert: the reads see [s], the insert meets [s_commit].
    [created_at] and [voted_at] are the clock readings of the row
    defaults. *)
Definition create_vote_interleaved (now created_at voted_at : datetime)
  (vote : VoteCreate.t) (s s_commit : Store)
  : result (VoteResponse.t * Store) :=
  try_except
    (_ <- create_vote_checks now vote s ;;
     '(vote_db, s') <- Vote_create s_commit created_at voted_at vote ;;
     Ok (VoteResponse_from_orm vote_db, s'))
    except_create_vote.

(** [create_vote] with no other request in between. *)
Definition create_vote (now created_at voted_at : datetime)
  (vote : VoteCreate.t) (s : Store) : result (VoteResponse.t * Store) :=
  create_vote_interleaved now created_at voted_at vote s s.

(** ** The server as a state machine over the writing requests *)

Inductive request :=
| POST_elections (now : datetime) (election : ElectionCreate.t)
| PUT_elections (election_id : Z) (election : ElectionCreate.t)
| DELETE_elections (election_id : Z)
| POST_polls (now : datetime) (poll : PollCreate.t)
| PUT_polls (poll_id : Z) (poll : PollCreate.t)
| DELETE_polls (poll_id : Z)
| POST_candidates (now : datetime) (candidate : CandidateCreate.t)
| PUT_candidates (candidate_id : Z) (candidate : CandidateCreate.t)
| DELETE_candidates (candidate_id : Z)
| POST_voters (now : datetime) (voter : VoterCreate.t)
| PUT_voters (voter_id : Z) (voter : VoterCreate.t)
| DELETE_voters (voter_id : Z)
| POST_votes (now created_at voted_at : datetime) (vote : VoteCreate.t).

Definition store_after {A} (r : result (A * Store)) (s : Store) : Store :=
  match r with
  | Ok (_, s') => s'
  | Raise _ => s
  end.

Definition handle (s : Store) (r : request) : Store :=
  match r with
  | POST_elections now e => store_after (create_election now e s) s
  | PUT_elections i e => store_after (update_election i e s) s
  | DELETE_elections i => store_after (delete_election i s) s
  | POST_polls now p => store_after (create_poll now p s) s
  | PUT_polls i p => store_after (update_poll i p s) s
  | DELETE_polls i => store_after (delete_poll i s) s
  | POST_candidates now c => store_after (create_candidate now c s) s
  | PUT_candidates i c => store_after (update_candidate i c s) s
  | DELETE_candidates i => store_after (delete_candidate i s) s
  | POST_voters now v => store_after (create_voter now v s) s
  | PUT_voters i v => store_after (update_voter i v s) s
  | DELETE_voters i => store_after (delete_voter i s) s
  | POST_votes now c v vote => store_after (create_vote now c v vote s) s
  end.

Definition run (rs : list request) (s : Store) : Store :=
  fold_left handle rs s.

(** The stores the server can get into from the empty database. *)
Definition reachable (s : Store) : Prop :=
  exists rs, s = run rs empty_store.

(* ================================================================== *)
(** * Python numbers: [/], [*] and [round] on binary64 *)
(* ================================================================== *)

Definition prec : Z := 53.
Definition emax : Z := 1024.
Definition float := spec_float.

(** The value of the conditional expression of [get_poll_results] is the
    [int] 0 or a [float]. *)
Inductive number :=
| PyInt (z : Z)
| PyFloat (x : float).

(** An integer as the float of the same value: mantissa and exponent 0.
    The operations of [SpecFloat] round their result and do not ask for a
    normalised argument. *)
Definition float_of_int (z : Z) : float :=
  match z with
  | Z0 => S754_zero false
  | Zpos p => S754_finite false p 0
  | Zneg p => S754_finite true p 0
  end.

(** [a / b] on two [int]: the correctly rounded quotient, and
    [ZeroDivisionError] for [b == 0]. *)
Definition int_truediv (a b : Z) : result float :=
  if b =? 0 then Raise ZeroDivisionError
  else Ok (SFdiv prec emax (float_of_int a) (float_of_int b)).

(** [x * n] for a [float] and an [int]. *)
Definition float_mul_int (x : float) (n : Z) : float :=
  SFmul prec emax x (float_of_int n).

(** The integer nearest to [n / d] for [d > 0], a half going to the even
    neighbour. *)
Definition round_half_even (n d : Z) : Z :=
  let (q, r) := Z.div_eucl n d in
  match 2 * r ?= d with
  | Lt => q
  | Gt => q + 1
  | Eq => if Z.even q then q else q + 1
  end.

(** The magnitude of a finite float as a fraction. *)
Definition fraction (m : positive) (e : Z) : Z * Z :=
  if e >=? 0 then (Zpos m * 2 ^ e, 1) else (Zpos m, 2 ^ (- e)).

(** The number of hundredths that [round(x, 2)] keeps of the magnitude
    [m * 2^e]: CPython prints the float with two correctly rounded decimals
    (dtoa, mode 3) and reads the decimal back. *)
Definition hundredths (m : positive) (e : Z) : Z :=
  let (n, d) := fraction m e in round_half_even (100 * n) d.

(** Reading back [h / 100]: the float nearest to it. *)
Definition float_of_hundredths (s : bool) (h : Z) : float :=
  match h with
  | Zpos p => SFdiv prec emax (S754_finite s p 0) (float_of_int 100)
  | _ => S754_zero s
  end.

Definition float_round2 (x : float) : float :=
  match x with
  | S754_finite s m e => float_of_hundredths s (hundredths m e)
  | _ => x
  end.

(** [round(x, 2)]: an [int] is returned as it is. *)
Definition round2 (x : number) : number :=
  match x with
  | PyInt z => PyInt z
  | PyFloat f => PyFloat (float_round2 f)
  end.

(* ================================================================== *)
(** * [list.sort(key=..., reverse=...)] *)
(* ================================================================== *)

(** [list.sort] is stable. An insertion sort that puts an element in front
    of the first one whose key is not smaller is the stable ascending
    sort. *)
Fixpoint insert_by {A} (key : A -> Z) (x : A) (l : list A) : list A :=
  match l with
  | [] => [x]
  | y :: l' => if key x <=? key y then x :: l else y :: insert_by key x l'
  end.

Definition stable_sort {A} (key : A -> Z) (l : list A) : list A :=
  fold_right (insert_by key) [] l.

(** With [reverse=True] the list is reversed, sorted, and reversed again. *)
Definition list_sort {A} (key : A -> Z) (reverse : bool) (l : list A)
  : list A :=
  if reverse then rev (stable_sort key (rev l)) else stable_sort key l.

(* ================================================================== *)
(** * main.py: results and statistics *)
(* ================================================================== *)

Module ResultEntry.
Record t := {
  candidate_id : Z;
  candidate_name : string;
  candidate_description : option string;
  votes : Z;
  percentage : number }.
End ResultEntry.

Module PollResults.
Record t := {
  poll_id : Z;
  poll_title : string;
  total_votes : Z;
  unique_voters : Z;
  results : list ResultEntry.t }.
End PollResults.

(** [Vote.select().where(Vote.candidate == candidate).count()] *)
Definition votes_of_candidate (s : Store) (c : Candidate.t) : Z :=
  count (fun v => Vote.candidate_id v =? Candidate.id c) (votes s).

(** [Vote.select().where(Vote.poll == poll).count()] *)
Definition votes_of_poll (s : Store) (p : Poll.t) : Z :=
  count (fun v => Vote.poll_id v =? Poll.id p) (votes s).

(** One turn of the loop over [poll.candidates]. *)
Definition poll_results_step (s : Store) (poll : Poll.t)
  (acc : list ResultEntry.t * Z) (candidate : Candidate.t)
  : result (list ResultEntry.t * Z) :=
  let '(results, total_votes) := acc in
  let votes_count := votes_of_candidate s candidate in
  percentage <-
    (if votes_of_poll s poll >? 0
     then q <- int_truediv votes_count (votes_of_poll s poll) ;;
          Ok (PyFloat (float_mul_int q 100))
     else Ok (PyInt 0)) ;;
  Ok (results ++
        [{| ResultEntry.candidate_id := Candidate.id candidate;
            ResultEntry.candidate_name := Candidate.name candidate;
            ResultEntry.candidate_description :=
              Candidate.description candidate;
            ResultEntry.votes := votes_count;
            ResultEntry.percentage := round2 percentage |}],
      total_votes + votes_count).

Definition get_poll_results (poll_id : Z) (s : Store)
  : result PollResults.t :=
  try_except
    (poll <- Poll_get s poll_id ;;
     '(results, total_votes) <-
       for_each (Poll_candidates s poll) ([], 0) (poll_results_step s poll) ;;
     let results := list_sort ResultEntry.votes true results in
     Ok {| PollResults.poll_id := Poll.id poll;
           PollResults.poll_title := Poll.title poll;
           PollResults.total_votes := total_votes;
           PollResults.unique_voters := votes_of_poll s poll;
           PollResults.results := results |})
    (except_DoesNotExist PollM detail_poll_not_found).

Module PollStats.
Record t := {
  poll_id : Z;
  poll_title : string;
  votes_count : Z;
  candidates_count : Z }.
End PollStats.

Module ElectionStats.
Record t := {
  election_id : Z;
  election_title : string;
  total_polls : Z;
  total_votes : Z;
  total_unique_voters : Z;
  polls : list PollStats.t }.
End ElectionStats.

(** One turn of the loop over [election.polls]. *)
Definition election_stats_step (s : Store) (acc : list PollStats.t * Z)
  (poll : Poll.t) : result (list PollStats.t * Z) :=
  let '(polls_stats, total_votes) := acc in
  let poll_votes := votes_of_poll s poll in
  Ok (polls_stats ++
        [{| PollStats.poll_id := Poll.id poll;
            PollStats.poll_title := Poll.title poll;
            PollStats.votes_count := poll_votes;
            PollStats.candidates_count :=
              Z.of_nat (List.length (Poll_candidates s poll)) |}],
      total_votes + poll_votes).

(** [Vote.poll.in_(election.polls)] compares with the primary keys of the
    sub-select. *)
Definition get_election_stats (election_id : Z) (s : Store)
  : result ElectionStats.t :=
  try_except
    (election <- Election_get s election_id ;;
     let total_polls := Z.of_nat (List.length (Election_polls s election)) in
     let total_voters :=
       count (fun v => mem (Vote.poll_id v)
                           (map Poll.id (Election_polls s election)))
             (votes s) in
     '(polls_stats, total_votes) <-
       for_each (Election_polls s election) ([], 0) (election_stats_step s) ;;
     Ok {| ElectionStats.election_id := Election.id election;
           ElectionStats.election_title := Election.title election;
           ElectionStats.total_polls := total_polls;
           ElectionStats.total_votes := total_votes;
           ElectionStats.total_unique_voters := total_voters;
           ElectionStats.polls := polls_stats |})
    (except_DoesNotExist ElectionM detail_election_not_found).

(* ================================================================== *)
(** * Closed forms of the two loops *)
(* ================================================================== *)

Definition sum (l : list Z) : Z := fold_right Z.add 0 l.

(** The percentage that [get_poll_results] reports for [votes_count] votes
    in a poll of [poll_votes] vote rows. *)
Definition reported_percentage (votes_count poll_votes : Z) : number :=
  if poll_votes =? 0 then PyInt 0
  else PyFloat
         (float_round2
            (float_mul_int
               (SFdiv prec emax (float_of_int votes_count)
                                (float_of_int poll_votes)) 100)).

Definition entry_of (s : Store) (poll : Poll.t) (c : Candidate.t)
  : ResultEntry.t :=
  {| ResultEntry.candidate_id := Candidate.id c;
     ResultEntry.candidate_name := Candidate.name c;
     ResultEntry.candidate_description := Candidate.description c;
     ResultEntry.votes := votes_of_candidate s c;
     ResultEntry.percentage :=
       reported_percentage (votes_of_candidate s c) (votes_of_poll s poll) |}.

Definition stats_of (s : Store) (poll : Poll.t) : PollStats.t :=
  {| PollStats.poll_id := Poll.id poll;
     PollStats.poll_title := Poll.title poll;
     PollStats.votes_count := votes_of_poll s poll;
     PollStats.candidates_count :=
       Z.of_nat (List.length (Poll_candidates s poll)) |}.

(** What [get_poll_results] returns for a poll that exists. *)
Definition poll_results_of (s : Store) (poll : Poll.t) : PollResults.t :=
  {| PollResults.poll_id := Poll.id poll;
     PollResults.poll_title := Poll.title poll;
     PollResults.total_votes :=
       sum (map (votes_of_candidate s) (Poll_candidates s poll));
     PollResults.unique_voters := votes_of_poll s poll;
     PollResults.results :=
       list_sort ResultEntry.votes true
         (map (entry_of s poll) (Poll_candidates s poll)) |}.

(** What [get_election_stats] returns for an election that exists. *)
Definition election_stats_of (s : Store) (e : Election.t) : ElectionStats.t :=
  {| ElectionStats.election_id := Election.id e;
     ElectionStats.election_title := Election.title e;
     ElectionStats.total_polls :=
       Z.of_nat (List.length (Election_polls s e));
     ElectionStats.total_votes :=
       sum (map (votes_of_poll s) (Election_polls s e));
     ElectionStats.total_unique_voters :=
       count (fun v => mem (Vote.poll_id v)
                           (map Poll.id (Election_polls s e))) (votes s);
     ElectionStats.polls := map (stats_of s) (Election_polls s e) |}.

(* ================================================================== *)
(** * The specification's vocabulary *)
(* ================================================================== *)

(** ** Constraints that the store enforces *)

(** Every row of [rows] refers through [fk] to a row of [targets]. *)
Definition references {A B} (fk : A -> Z) (id : B -> Z) (rows : list A)
  (targets : list B) : Prop :=
  forall x, In x rows -> mem (fk x) (map id targets) = true.

(** [PRAGMA foreign_keys = 1]: every reference points to a row. *)
Definition foreign_keys_ok (s : Store) : Prop :=
  references Poll.election_id Election.id (polls s) (elections s)
  /\ references Candidate.poll_id Poll.id (candidates s) (polls s)
  /\ references Vote.poll_id Poll.id (votes s) (polls s)
  /\ references Vote.candidate_id Candidate.id (votes s) (candidates s)
  /\ references Vote.voter_id Voter.id (votes s) (voters s).

(** [PRIMARY KEY]: no two rows of a table share their id. *)
Definition primary_keys_ok (s : Store) : Prop :=
  NoDup (map Election.id (elections s))
  /\ NoDup (map Poll.id (polls s))
  /\ NoDup (map Candidate.id (candidates s))
  /\ NoDup (map Voter.id (voters s))
  /\ NoDup (map Vote.id (votes s)).

(** The admission invariant of the data model: the candidate of every vote
    belongs to the poll of the vote. *)
Definition admission_invariant (s : Store) : Prop :=
  forall v, In v (votes s) ->
    exists c, In c (candidates s)
              /\ Candidate.id c = Vote.candidate_id v
              /\ Candidate.poll_id c = Vote.poll_id v.

(** The invariant of the data model on elections. *)
Definition election_dates_ok (s : Store) : Prop :=
  forall e, In e (elections s) -> Election.start_date e < Election.end_date e.

(** ** Error kinds *)

Inductive entity := the_poll | the_candidate | the_voter.
Inductive gate := poll_active | voter_verified | election_window.

Inductive error_kind :=
| NotFound (which : entity)
| InvalidReference
| Conflict
| InvalidState (which : gate).

(** The exception in which [create_vote] reports each kind. *)
Definition exn_of_kind (k : error_kind) : exn :=
  match k with
  | NotFound the_poll => HTTPException 404 detail_poll_not_found
  | NotFound the_candidate => HTTPException 404 detail_candidate_not_found
  | NotFound the_voter => HTTPException 404 detail_voter_not_found
  | InvalidReference => HTTPException 400 detail_candidate_not_in_poll
  | Conflict => HTTPException 400 detail_already_voted
  | InvalidState poll_active => HTTPException 400 detail_poll_not_active
  | InvalidState voter_verified => HTTPException 400 detail_voter_not_verified
  | InvalidState election_window => HTTPException 400 detail_window_closed
  end.

(** ** AdmitVote as the specification words it

    The eight checks of the validation sequence, in the required order,
    each with the kind it fails with. *)
Definition admission_checks (now : datetime) (vote : VoteCreate.t) (s : Store)
  : list (bool * error_kind) :=
  let poll := find (fun p => Poll.id p =? VoteCreate.poll_id vote) (polls s) in
  let candidate :=
    find (fun c => Candidate.id c =? VoteCreate.candidate_id vote)
         (candidates s) in
  let voter :=
    find (fun v => Voter.id v =? VoteCreate.voter_id vote) (voters s) in
  let election :=
    match poll with
    | Some p => find (fun e => Election.id e =? Poll.election_id p)
                     (elections s)
    | None => None
    end in
  [ (match poll with Some _ => true | None => false end,
     NotFound the_poll);
    (match candidate with Some _ => true | None => false end,
     NotFound the_candidate);
    (match voter with Some _ => true | None => false end,
     NotFound the_voter);
    (match candidate, poll with
     | Some c, Some p => Candidate.poll_id c =? Poll.id p
     | _, _ => false
     end, InvalidReference);
    (negb (existsb (fun x => (Vote.poll_id x =? VoteCreate.poll_id vote)
                             && (Vote.voter_id x =? VoteCreate.voter_id vote))
                   (votes s)), Conflict);
    (match poll with Some p => Poll.is_active p | None => false end,
     InvalidState poll_active);
    (match voter with Some v => Voter.is_verified v | None => false end,
     InvalidState voter_verified);
    (match election with
     | Some e => (Election.start_date e <=? now)
                 && (now <=? Election.end_date e)
     | None => false
     end, InvalidState election_window) ].

(** First failing check wins. *)
Fixpoint first_failure (checks : list (bool * error_kind))
  : option error_kind :=
  match checks with
  | [] => None
  | (passed, k) :: rest => if passed then first_failure rest else Some k
  end.

(** Step 9, the commit. *)
Definition commit_vote (created_at voted_at : datetime) (vote : VoteCreate.t)
  (s : Store) : VoteResponse.t * Store :=
  let row :=
    {| Vote.id := next_id (map Vote.id (votes s));
       Vote.created_at := created_at;
       Vote.poll_id := VoteCreate.poll_id vote;
       Vote.candidate_id := VoteCreate.candidate_id vote;
       Vote.voter_id := VoteCreate.voter_id vote;
       Vote.voted_at := voted_at |} in
  (VoteResponse_from_orm row,
   {| elections := elections s; polls := polls s;
      candidates := candidates s; voters := voters s;
      votes := votes s ++ [row] |}).

Definition AdmitVote_spec (now created_at voted_at : datetime)
  (vote : VoteCreate.t) (s : Store) : result (VoteResponse.t * Store) :=
  match first_failure (admission_checks now vote s) with
  | Some k => Raise (exn_of_kind k)
  | None => Ok (commit_vote created_at voted_at vote s)
  end.

(** A vote request for which the checks 1 to 7 pass, leaving the election
    window to decide. *)
Definition otherwise_valid (vote : VoteCreate.t) (s : Store)
  (election : Election.t) : Prop :=
  exists poll candidate voter,
    Poll_get s (VoteCreate.poll_id vote) = Ok poll
    /\ Candidate_get s (VoteCreate.candidate_id vote) = Ok candidate
    /\ Voter_get s (VoteCreate.voter_id vote) = Ok voter
    /\ Candidate.poll_id candidate = Poll.id poll
    /\ existing_vote s poll voter = None
    /\ Poll.is_active poll = true
    /\ Voter.is_verified voter = true
    /\ Poll_election s poll = Ok election.

(** ** [max_votes_per_voter] *)

(** The store with the [max_votes_per_voter] of every poll replaced. *)
Definition with_max_votes (f : Poll.t -> Z) (s : Store) : Store :=
  {| elections := elections s;
     polls := map (fun p =>
                     {| Poll.id := Poll.id p;
                        Poll.created_at := Poll.created_at p;
                        Poll.election_id := Poll.election_id p;
                        Poll.title := Poll.title p;
                        Poll.description := Poll.description p;
                        Poll.max_votes_per_voter := f p;
                        Poll.is_active := Poll.is_active p |}) (polls s);
     candidates := candidates s; voters := voters s; votes := votes s |}.

Definition map_store {A} (g : Store -> Store) (r : result (A * Store))
  : result (A * Store) :=
  match r with
  | Ok (a, s) => Ok (a, g s)
  | Raise e => Raise e
  end.

(** ** The percentage as the specification words it *)

(** The integer nearest to [n / d] for [n >= 0] and [d > 0], a half going
    away from zero. *)
Definition round_half_away (n d : Z) : Z :=
  let (q, r) := Z.div_eucl n d in
  if 2 * r >=? d then q + 1 else q.

(** 0 when [total_votes] is 0, else [votes / total_votes * 100] to two
    decimals, halves away from zero. *)
Definition percentage_spec (votes total_votes : Z) : number :=
  if total_votes =? 0 then PyInt 0
  else PyFloat (float_of_hundredths false
                  (round_half_away (100 * (100 * votes)) total_votes)).

(** [h] is the integer nearest to [n / d], the even one of the two when
    [n / d] lies half way. *)
Definition nearest_even (n d h : Z) : Prop :=
  2 * Z.abs (n - h * d) <= d
  /\ (2 * Z.abs (n - h * d) = d -> Z.even h = true).

(** ** Sorting *)

(** The entries of [l] whose key is [k], in the order of [l]. *)
Definition with_key {A} (key : A -> Z) (k : Z) (l : list A) : list A :=
  filter (fun x => key x =? k) l.

(** Keys never increase along the list. *)
Definition descending {A} (key : A -> Z) (l : list A) : Prop :=
  StronglySorted (fun x y => key x >= key y) l.

(* ================================================================== *)
(** * Scenarios *)
(* ================================================================== *)

Definition an_election : ElectionCreate.t :=
  {| ElectionCreate.title := "E"; ElectionCreate.description := None;
     ElectionCreate.start_date := 10; ElectionCreate.end_date := 100;
     ElectionCreate.is_active := true |}.

Definition a_poll (title : string) (max_votes : Z) : PollCreate.t :=
  {| PollCreate.election_id := 1; PollCreate.title := title;
     PollCreate.description := None;
     PollCreate.max_votes_per_voter := max_votes;
     PollCreate.is_active := true |}.

Definition a_candidate (poll_id : Z) (name : string) : CandidateCreate.t :=
  {| CandidateCreate.poll_id := poll_id; CandidateCreate.name := name;
     CandidateCreate.description := None |}.

Definition a_voter (email : string) : VoterCreate.t :=
  {| VoterCreate.email := email; VoterCreate.name := "V";
     VoterCreate.is_verified := true |}.

Definition a_vote (poll_id candidate_id voter_id : Z) : VoteCreate.t :=
  {| VoteCreate.poll_id := poll_id; VoteCreate.candidate_id := candidate_id;
     VoteCreate.voter_id := voter_id |}.

(** One election, open from 10 to 100, with the polls P1 and P2, the
    candidates C1 and C2 of P1, and the verified voter V1. *)
Definition setup : list request :=
  [ POST_elections 0 an_election;
    POST_polls 1 (a_poll "P1" 1);
    POST_polls 2 (a_poll "P2" 1);
    POST_candidates 3 (a_candidate 1 "C1");
    POST_candidates 4 (a_candidate 1 "C2");
    POST_voters 5 (a_voter "v1@university.edu") ].

Definition store_setup : Store := run setup empty_store.

(** V1 has voted for C1 in P1. *)
Definition store_voted : Store :=
  run [POST_votes 50 50 50 (a_vote 1 1 1)] store_setup.

(** After that vote, C1 is moved to the poll P2 by [PUT /candidates/1]. *)
Definition store_moved : Store :=
  run [PUT_candidates 1 (a_candidate 2 "C1")] store_voted.

(** A second request of V1 in P1 has passed its checks on [store_setup]
    when the first one commits; its insert meets [store_voted]. *)
Definition racing_vote : result (VoteResponse.t * Store) :=
  create_vote_interleaved 50 51 51 (a_vote 1 2 1) store_setup store_voted.

(** The decimal digits of a small number, to tell e-mail addresses apart. *)
Definition digit (n : nat) : string :=
  String (ascii_of_nat (48 + n)) EmptyString.

Definition email_of (n : nat) : string :=
  ("voter" ++ digit (n / 10) ++ digit (n mod 10) ++ "@university.edu")%string.

(** 32 voters in P1: V1 votes for C1, the other 31 vote for C2. *)
Definition thirty_two_votes : list request :=
  map (fun n => POST_voters 5 (a_voter (email_of n))) (seq 2 31)
  ++ [POST_votes 50 50 50 (a_vote 1 1 1)]
  ++ map (fun n => POST_votes 50 50 50 (a_vote 1 2 (Z.of_nat n))) (seq 2 31).

Definition store_tie : Store := run thirty_two_votes store_setup.

(** ** The rows of the scenarios *)

Definition election_E : Election.t :=
  {| Election.id := 1; Election.created_at := 0; Election.title := "E";
     Election.description := None; Election.start_date := 10;
     Election.end_date := 100; Election.is_active := true |}.

Definition poll_P1 : Poll.t :=
  {| Poll.id := 1; Poll.created_at := 1; Poll.election_id := 1;
     Poll.title := "P1"; Poll.description := None;
     Poll.max_votes_per_voter := 1; Poll.is_active := true |}.

Definition poll_P2 : Poll.t :=
  {| Poll.id := 2; Poll.created_at := 2; Poll.election_id := 1;
     Poll.title := "P2"; Poll.description := None;
     Poll.max_votes_per_voter := 1; Poll.is_active := true |}.

(** V1 has also voted in P2, for its candidate C3. *)
Definition store_two_polls : Store :=
  run [ POST_candidates 6 (a_candidate 2 "C3");
        POST_votes 60 60 60 (a_vote 2 3 1) ] store_voted.

(** An election that ends the moment it starts. *)
Definition an_empty_election : ElectionCreate.t :=
  {| ElectionCreate.title := "E0"; ElectionCreate.description := None;
     ElectionCreate.start_date := 10; ElectionCreate.end_date := 10;
     ElectionCreate.is_active := true |}.

(** The votes and the percentage of each entry of the results of a poll. *)
Definition votes_and_percentages (r : PollResults.t) : list (Z * number) :=
  map (fun e => (ResultEntry.votes e, ResultEntry.percentage e))
      (PollResults.results r).

(* ================================================================== *)
(** * main.py: reading one row *)
(* ================================================================== *)

Definition read_candidate (candidate_id : Z) (s : Store)
  : result Candidate.t :=
  try_except (Candidate_get s candidate_id)
             (except_DoesNotExist CandidateM detail_candidate_not_found).

Definition read_voter (voter_id : Z) (s : Store) : result Voter.t :=
  try_except (Voter_get s voter_id)
             (except_DoesNotExist VoterM detail_voter_not_found).

(* ================================================================== *)
(** * The unique indexes, and requests that keep a candidate in its poll *)
(* ================================================================== *)

(** [(('poll', 'voter'), True)] of [Vote.Meta.indexes]. *)
Definition votes_unique (s : Store) : Prop :=
  NoDup (map (fun v => (Vote.poll_id v, Vote.voter_id v)) (votes s)).

(** [unique=True] of [Voter.email]. *)
Definition emails_unique (s : Store) : Prop :=
  NoDup (map Voter.email (voters s)).

(** [(('poll', 'name'), True)] of [Candidate.Meta.indexes]. *)
Definition names_unique (s : Store) : Prop :=
  NoDup (map (fun c => (Candidate.poll_id c, Candidate.name c))
             (candidates s)).

Definition unique_indexes_ok (s : Store) : Prop :=
  votes_unique s /\ emails_unique s /\ names_unique s.

(** A request other than a [PUT /candidates/{id}] that gives a candidate
    with votes another poll. *)
Definition keeps_poll (s : Store) (r : request) : bool :=
  match r with
  | PUT_candidates candidate_id candidate =>
      match Candidate_get s candidate_id with
      | Ok old => (Candidate.poll_id old =? CandidateCreate.poll_id candidate)
                  || (votes_of_candidate s old =? 0)
      | Raise _ => true
      end
  | _ => true
  end.

(** Every request of the run is of that sort, in the store it meets. *)
Fixpoint run_keeps_poll (rs : list request) (s : Store) : bool :=
  match rs with
  | [] => true
  | r :: rs' => keeps_poll s r && run_keeps_poll rs' (handle s r)
  end.

(** P1 is made inactive in the store of the scenario. *)
Definition a_closed_poll : PollCreate.t :=
  {| PollCreate.election_id := 1; PollCreate.title := "P1";
     PollCreate.description := None; PollCreate.max_votes_per_voter := 1;
     PollCreate.is_active := false |}.

Definition store_closed : Store :=
  handle store_setup (PUT_polls 1 a_closed_poll).

(** The row of V1 in the scenarios. *)
Definition voter_V1 : Voter.t :=
  {| Voter.id := 1; Voter.created_at := 5;
     Voter.email := "v1@university.edu"; Voter.name := "V";
     Voter.is_verified := true |}.

(** Four candidates in P1, the third and fourth with two votes each, the
    first and second with one: two pairs of equal counts. The names are in
    another order than the ids. *)
Definition six_votes : list request :=
  [ POST_candidates 6 (a_candidate 1 "Zoe");
    POST_candidates 6 (a_candidate 1 "Amy") ]
  ++ map (fun n => POST_voters 5 (a_voter (email_of n))) (seq 2 5)
  ++ [ POST_votes 50 50 50 (a_vote 1 1 1);
       POST_votes 50 50 50 (a_vote 1 2 2);
       POST_votes 50 50 50 (a_vote 1 3 3);
       POST_votes 50 50 50 (a_vote 1 3 4);
       POST_votes 50 50 50 (a_vote 1 4 5);
       POST_votes 50 50 50 (a_vote 1 4 6) ].

Definition store_ties : Store := run six_votes store_setup.

(** The candidate and the votes of each entry of the results of a poll. *)
Definition ids_and_votes (r : PollResults.t) : list (Z * Z) :=
  map (fun e => (ResultEntry.candidate_id e, ResultEntry.votes e))
      (PollResults.results r).

(** The rows of a table are in rowid order. *)
Definition rowid_order {A} (id : A -> Z) (rows : list A) : Prop :=
  StronglySorted Z.lt (map id rows).

(** More votes first, and among equal votes the smaller candidate id. *)
Definition by_votes_then_id (x y : ResultEntry.t) : Prop :=
  ResultEntry.votes x > ResultEntry.votes y
  \/ (ResultEntry.votes x = ResultEntry.votes y
      /\ ResultEntry.candidate_id x < ResultEntry.candidate_id y).

(* ================================================================== *)
(** * main.py on every value of a request

    Up to here the integers of a request are ones that SQLite can hold and
    the dates of an election are naive datetimes. For the other values the
    statements of the endpoints raise where a value is converted:
    - [sqlite3] binds a Python [int] to a parameter of a statement as a
      signed 64-bit integer, and raises [OverflowError] for an [int]
      outside that range;
    - Python compares neither a naive with an aware [datetime] nor a
      [datetime] with a [str], and raises [TypeError]; and peewee hands a
      [DateTimeField] back as a [str] when the text that SQLite holds has
      none of the formats of the field, which is so for the ISO text of an
      aware datetime, ending in its offset.
    No [except] clause of [create_election], [create_poll], [create_vote],
    [get_poll_results] or [get_election_stats] takes either exception, and
    the listings have none. *)
(* ================================================================== *)

(** An SQLite [INTEGER] is a signed 64-bit integer. *)
Definition int64 (z : Z) : bool := (- 2 ^ 63 <=? z) && (z <? 2 ^ 63).

(** Binding the Python [int] [z] to a parameter of a statement. *)
Definition bound (z : Z) : result unit :=
  if int64 z then Ok tt else Raise OverflowError.

(** A [datetime] of a request: naive, or aware of its time zone, at the
    point [t] of the time line of its sort. *)
Inductive pydatetime :=
| naive (t : datetime)
| aware (t : datetime).

Definition point (a : pydatetime) : datetime :=
  match a with
  | naive t | aware t => t
  end.

Definition is_aware (a : pydatetime) : bool :=
  match a with
  | naive _ => false
  | aware _ => true
  end.

(** [a >= b]: two naive and two aware datetimes are compared, one of each
    is a [TypeError]. *)
Definition pydatetime_ge (a b : pydatetime) : result bool :=
  match a, b with
  | naive x, naive y | aware x, aware y => Ok (x >=? y)
  | _, _ => Raise TypeError
  end.

(** [ElectionBase] of [schemas.py], the fields of [ElectionCreate], with
    any datetime. *)
Module ElectionBase.
Record t := {
  title : string;
  description : option string;
  start_date : pydatetime;
  end_date : pydatetime;
  is_active : bool }.
End ElectionBase.

(** What peewee hands back for a [DateTimeField]: the datetime, parsed from
    the text of a naive one, or the text itself. *)
Inductive field_value :=
| Datetime (t : datetime)
| Str.

(** The tables, and the ids of the elections whose dates were written from
    aware datetimes. Both dates of an election are of one sort, as
    [create_election] compares them before it writes. *)
Record Database := {
  tables : Store;
  aware_dates : list Z }.

(** A store in which every election has naive dates. *)
Definition database (s : Store) : Database :=
  {| tables := s; aware_dates := [] |}.

(** Every election of the database has naive dates. *)
Definition naive_dates (d : Database) : Prop :=
  forall e, In e (elections (tables d)) ->
            mem (Election.id e) (aware_dates d) = false.

(** The outcome of a statement on the tables, in the database. *)
Definition in_database {A} (d : Database) (r : result (A * Store))
  : result (A * Database) :=
  match r with
  | Ok (a, s') => Ok (a, {| tables := s'; aware_dates := aware_dates d |})
  | Raise e => Raise e
  end.

Module Python.

(** [Model.get(Model.id == pk)] for any [pk]. *)
Definition get {A} (Model_get : Store -> Z -> result A) (s : Store) (pk : Z)
  : result A :=
  _ <- bound pk ;; Model_get s pk.

(** [election.start_date] and [election.end_date] of a row that was read. *)
Definition start_date (d : Database) (election : Election.t) : field_value :=
  if mem (Election.id election) (aware_dates d) then Str
  else Datetime (Election.start_date election).

Definition end_date (d : Database) (election : Election.t) : field_value :=
  if mem (Election.id election) (aware_dates d) then Str
  else Datetime (Election.end_date election).

(** [now < x] and [now > x] for a reading [now] of [datetime.now()]. *)
Definition lt (now : datetime) (x : field_value) : result bool :=
  match x with
  | Datetime t => Ok (now <? t)
  | Str => Raise TypeError
  end.

Definition gt (now : datetime) (x : field_value) : result bool :=
  match x with
  | Datetime t => Ok (now >? t)
  | Str => Raise TypeError
  end.

Definition create_election (now : datetime) (election : ElectionBase.t)
  (d : Database) : result (Election.t * Database) :=
  late <- pydatetime_ge (ElectionBase.start_date election)
                        (ElectionBase.end_date election) ;;
  if (late : bool) then Raise (HTTPException 400 detail_bad_dates)
  else
    let '(election_db, s') :=
      Election_create (tables d) now
        {| ElectionCreate.title := ElectionBase.title election;
           ElectionCreate.description := ElectionBase.description election;
           ElectionCreate.start_date :=
             point (ElectionBase.start_date election);
           ElectionCreate.end_date := point (ElectionBase.end_date election);
           ElectionCreate.is_active := ElectionBase.is_active election |} in
    let others :=
      filter (fun i => negb (i =? Election.id election_db)) (aware_dates d) in
    Ok (election_db,
        {| tables := s';
           aware_dates :=
             if is_aware (ElectionBase.start_date election)
             then Election.id election_db :: others
             else others |}).

(** The insert binds [election_id] and [max_votes_per_voter]. *)
Definition create_poll (now : datetime) (poll : PollCreate.t) (s : Store)
  : result (Poll.t * Store) :=
  try_except
    (_ <- get Election_get s (PollCreate.election_id poll) ;;
     _ <- bound (PollCreate.election_id poll) ;;
     _ <- bound (PollCreate.max_votes_per_voter poll) ;;
     Poll_create s now poll)
    (except_DoesNotExist ElectionM detail_election_not_found).

(** The keys of [candidate.poll], of [poll.election] and of the two
    conditions on [Vote] come from rows that were read. *)
Definition create_vote_checks (now : datetime) (vote : VoteCreate.t)
  (d : Database) : result unit :=
  let s := tables d in
  poll <- get Poll_get s (VoteCreate.poll_id vote) ;;
  candidate <- get Candidate_get s (VoteCreate.candidate_id vote) ;;
  voter <- get Voter_get s (VoteCreate.voter_id vote) ;;
  candidate_poll <- Candidate_poll s candidate ;;
  if negb (Poll.id candidate_poll =? Poll.id poll)
  then Raise (HTTPException 400 detail_candidate_not_in_poll)
  else
    match existing_vote s poll voter with
    | Some _ => Raise (HTTPException 400 detail_already_voted)
    | None =>
        if negb (Poll.is_active poll)
        then Raise (HTTPException 400 detail_poll_not_active)
        else if negb (Voter.is_verified voter)
        then Raise (HTTPException 400 detail_voter_not_verified)
        else
          election <- Poll_election s poll ;;
          early <- lt now (start_date d election) ;;
          outside <- (if (early : bool) then Ok true
                      else gt now (end_date d election)) ;;
          if (outside : bool)
          then Raise (HTTPException 400 detail_window_closed)
          else Ok tt
    end.

(** A vote request for which the checks 1 to 7 pass, leaving the election
    window to decide. *)
Definition otherwise_valid (vote : VoteCreate.t) (d : Database)
  (election : Election.t) : Prop :=
  exists poll candidate voter,
    get Poll_get (tables d) (VoteCreate.poll_id vote) = Ok poll
    /\ get Candidate_get (tables d) (VoteCreate.candidate_id vote)
       = Ok candidate
    /\ get Voter_get (tables d) (VoteCreate.voter_id vote) = Ok voter
    /\ Candidate.poll_id candidate = Poll.id poll
    /\ existing_vote (tables d) poll voter = None
    /\ Poll.is_active poll = true
    /\ Voter.is_verified voter = true
    /\ Poll_election (tables d) poll = Ok election.

(** The insert binds the three ids of the request, which the lookups have
    bound before. *)
Definition create_vote (now created_at voted_at : datetime)
  (vote : VoteCreate.t) (d : Database)
  : result (VoteResponse.t * Database) :=
  try_except
    (_ <- create_vote_checks now vote d ;;
     in_database d
       ('(vote_db, s') <- Vote_create (tables d) created_at voted_at vote ;;
        Ok (VoteResponse_from_orm vote_db, s')))
    except_create_vote.

Definition get_poll_results (poll_id : Z) (s : Store)
  : result PollResults.t :=
  try_except
    (poll <- get Poll_get s poll_id ;;
     '(results, total_votes) <-
       for_each (Poll_candidates s poll) ([], 0) (poll_results_step s poll) ;;
     let results := list_sort ResultEntry.votes true results in
     Ok {| PollResults.poll_id := Poll.id poll;
           PollResults.poll_title := Poll.title poll;
           PollResults.total_votes := total_votes;
           PollResults.unique_voters := votes_of_poll s poll;
           PollResults.results := results |})
    (except_DoesNotExist PollM detail_poll_not_found).

Definition get_election_stats (election_id : Z) (s : Store)
  : result ElectionStats.t :=
  try_except
    (election <- get Election_get s election_id ;;
     let total_polls := Z.of_nat (List.length (Election_polls s election)) in
     let total_voters :=
       count (fun v => mem (Vote.poll_id v)
                           (map Poll.id (Election_polls s election)))
             (votes s) in
     '(polls_stats, total_votes) <-
       for_each (Election_polls s election) ([], 0) (election_stats_step s) ;;
     Ok {| ElectionStats.election_id := Election.id election;
           ElectionStats.election_title := Election.title election;
           ElectionStats.total_polls := total_polls;
           ElectionStats.total_votes := total_votes;
           ElectionStats.total_unique_voters := total_voters;
           ElectionStats.polls := polls_stats |})
    (except_DoesNotExist ElectionM detail_election_not_found).

(** ** The listings

    Without [ORDER BY], SQLite yields the rows that a statement selects in
    the order of the scan it plans: the rowid order of the table, or the
    order of an index that serves the condition, as the index
    [(is_active, start_date)] of [Election] does for [active_only]. The
    parameter [order] of a listing is that order: a function of whether the
    statement has the condition and of the selected rows in rowid order. *)

(** [query.offset(skip).limit(limit)]: both are bound to the statement.
    SQLite takes a negative [OFFSET] for 0 and a negative [LIMIT] for no
    limit. *)
Definition offset_limit {A} (skip limit : Z) (rows : list A)
  : result (list A) :=
  _ <- bound limit ;;
  _ <- bound skip ;;
  let rest := skipn (Z.to_nat skip) rows in
  Ok (if limit <? 0 then rest else firstn (Z.to_nat limit) rest).

(** The truth value of an [int] parameter that defaults to [None]. *)
Definition truthy (x : option Z) : bool :=
  match x with
  | Some z => negb (z =? 0)
  | None => false
  end.

(** [query.where(Model.poll == poll_id)] under [if poll_id:]; the id is
    bound to the statement. *)
Definition where_poll {A} (poll : A -> Z) (poll_id : option Z)
  (query : list A) : result (list A) :=
  match poll_id with
  | Some p =>
      if truthy poll_id
      then _ <- bound p ;; Ok (filter (fun x => poll x =? p) query)
      else Ok query
  | None => Ok query
  end.

Definition read_elections (order : bool -> list Election.t -> list Election.t)
  (skip limit : Z) (active_only : bool) (s : Store)
  : result (list Election.t) :=
  let query := elections s in
  let query := if active_only then filter Election.is_active query
               else query in
  offset_limit skip limit (order active_only query).

Definition read_polls (order : bool -> list Poll.t -> list Poll.t)
  (skip limit : Z) (active_only : bool) (s : Store) : result (list Poll.t) :=
  let query := polls s in
  let query := if active_only then filter Poll.is_active query else query in
  offset_limit skip limit (order active_only query).

Definition read_candidates
  (order : bool -> list Candidate.t -> list Candidate.t)
  (skip limit : Z) (poll_id : option Z) (s : Store)
  : result (list Candidate.t) :=
  let query := candidates s in
  query <- where_poll Candidate.poll_id poll_id query ;;
  offset_limit skip limit (order (truthy poll_id) query).

Definition read_voters (order : bool -> list Voter.t -> list Voter.t)
  (skip limit : Z) (verified_only : bool) (s : Store)
  : result (list Voter.t) :=
  let query := voters s in
  let query := if verified_only then filter Voter.is_verified query
               else query in
  offset_limit skip limit (order verified_only query).

Definition read_votes (order : bool -> list Vote.t -> list Vote.t)
  (skip limit : Z) (poll_id : option Z) (s : Store)
  : result (list VoteResponse.t) :=
  let query := votes s in
  query <- where_poll Vote.poll_id poll_id query ;;
  votes <- offset_limit skip limit (order (truthy poll_id) query) ;;
  Ok (map VoteResponse_from_orm votes).

End Python.

(** ** Scenarios with such values *)

(** The election of the scenarios, its dates written with a time zone. *)
Definition an_aware_election : ElectionBase.t :=
  {| ElectionBase.title := "E"; ElectionBase.description := None;
     ElectionBase.start_date := aware 10; ElectionBase.end_date := aware 100;
     ElectionBase.is_active := true |}.

(** The store of [setup], with that election in the place of the first
    request. *)
Definition database_aware : Database :=
  match Python.create_election 0 an_aware_election (database empty_store) with
  | Ok (_, d) => {| tables := run (tl setup) (tables d);
                    aware_dates := aware_dates d |}
  | Raise _ => database empty_store
  end.

(** Three elections, the first starting last and the third inactive. *)
Definition election_from (start : datetime) (active : bool)
  : ElectionCreate.t :=
  {| ElectionCreate.title := "E"; ElectionCreate.description := None;
     ElectionCreate.start_date := start; ElectionCreate.end_date := 100;
     ElectionCreate.is_active := active |}.

Definition store_elections : Store :=
  run [ POST_elections 0 (election_from 30 true);
        POST_elections 0 (election_from 10 true);
        POST_elections 0 (election_from 5 false);
        POST_elections 0 (election_from 20 true) ] empty_store.

(** The order in which SQLite yields the elections: with the condition on
    [is_active], that of the index [(is_active, start_date)]; without it,
    that of the table. *)
Definition index_order (active_only : bool) (rows : list Election.t)
  : list Election.t :=
  if active_only then stable_sort Election.start_date rows else rows.

(** The order of the table, whatever the condition. *)
Definition table_order {A} (condition : bool) (rows : list A) : list A :=
  rows.

(** An optional id that SQLite holds. *)
Definition bindable (x : option Z) : bool :=
  match x with
  | Some z => int64 z
  | None => true
  end.

(** An order that keeps the rows. *)
Definition keeps_rows {A} (order : bool -> list A -> list A) : Prop :=
  forall condition rows, Permutation (order condition rows) rows.

(** The first integer that SQLite does not hold. *)
Definition two_to_63 : Z := 2 ^ 63.

(** ** Tactics *)

(** Goes through the rows of a table of a scenario, given [H : In x rows]. *)
Ltac in_concrete_list H :=
  vm_compute in H;
  repeat (destruct H as [<-|H]; [vm_compute; repeat split|]);
  try contradiction.

(** The constraints that SQLite enforces on the five tables. *)
Definition constraints_ok (s : Store) : Prop :=
  primary_keys_ok s /\ foreign_keys_ok s.

(** Case analysis on an innermost scrutinee of the goal. *)
Ltac destruct_scrutinee :=
  match goal with
  | |- context [match ?x with _ => _ end] =>
      lazymatch x with
      | context [match _ with _ => _ end] => fail
      | _ => destruct x eqn:?
      end
  end.

(** The paths through a writing endpoint other than [create_vote]. *)
Ltac endpoint_cases :=
  unfold create_election, Election_create, update_election,
    Election_save, delete_election, Election_delete_instance,
    create_poll, Poll_create, update_poll, Poll_save, delete_poll,
    Poll_delete_instance, delete_polls_where, create_candidate,
    Candidate_create, update_candidate, Candidate_save,
    delete_candidate, Candidate_delete_instance,
    delete_candidates_where, create_voter, Voter_create,
    update_voter, Voter_save, delete_voter, Voter_delete_instance,
    delete_votes_where, try_except, bind, store_after;
  repeat (cbn beta iota zeta; destruct_scrutinee).

(* ================================================================== *)
(** * Lists, counts and sums *)
(* ================================================================== *)

Lemma count_nonneg {A} (p : A -> bool) (rows : list A) : 0 <= count p rows.
Proof. unfold count. lia. Qed.

Lemma count_cons {A} (p : A -> bool) (x : A) (rows : list A) :
  count p (x :: rows) = (if p x then 1 else 0) + count p rows.
Proof.
  unfold count. cbn [filter]. destruct (p x); cbn [List.length]; lia.
Qed.

Lemma count_ext {A} (p q : A -> bool) (rows : list A) :
  (forall x, p x = q x) -> count p rows = count q rows.
Proof. intros H. unfold count. now rewrite (filter_ext p q H). Qed.

Lemma count_nil {A} (p : A -> bool) : count p [] = 0.
Proof. reflexivity. Qed.

Lemma count_zero_iff {A} (p : A -> bool) (rows : list A) :
  count p rows = 0 <-> forall x, In x rows -> p x = false.
Proof.
  induction rows as [|y rows IH].
  - split; [intros _ x [] | reflexivity].
  - rewrite count_cons. pose proof (count_nonneg p rows) as Hn. split.
    + intros H x [<-|Hx].
      * destruct (p y); [lia | reflexivity].
      * apply IH; [destruct (p y); lia | exact Hx].
    + intros H. rewrite (H y (or_introl eq_refl)).
      apply IH. intros x Hx. apply H. now right.
Qed.

Lemma sum_app (l1 l2 : list Z) : sum (l1 ++ l2) = sum l1 + sum l2.
Proof.
  unfold sum. induction l1 as [|x l1 IH]; cbn; [reflexivity | rewrite IH; lia].
Qed.

Lemma sum_perm (l1 l2 : list Z) : Permutation l1 l2 -> sum l1 = sum l2.
Proof. unfold sum. induction 1; cbn; lia. Qed.

Lemma mem_true_iff (x : Z) (l : list Z) : mem x l = true <-> In x l.
Proof.
  unfold mem. rewrite existsb_exists. split.
  - intros [y [Hy Hxy]]. apply Z.eqb_eq in Hxy. now subst.
  - intros H. exists x. split; [exact H | apply Z.eqb_refl].
Qed.

Lemma find_id_some {A} (id : A -> Z) (pk : Z) (rows : list A) (x : A) :
  find (fun r => id r =? pk) rows = Some x -> In x rows /\ id x = pk.
Proof.
  intros H. apply find_some in H. destruct H as [Hin Heq].
  apply Z.eqb_eq in Heq. now split.
Qed.

Lemma find_id_mem {A} (id : A -> Z) (pk : Z) (rows : list A) :
  mem pk (map id rows) = true ->
  exists x, find (fun r => id r =? pk) rows = Some x.
Proof.
  intros H. apply mem_true_iff in H. apply in_map_iff in H.
  destruct H as [x [Hx Hin]].
  destruct (find (fun r => id r =? pk) rows) as [y|] eqn:F.
  - now exists y.
  - apply (find_none _ _ F) in Hin. cbn in Hin. apply Z.eqb_neq in Hin.
    contradiction.
Qed.

(* ================================================================== *)
(** * The sort: a permutation, ordered, and stable *)
(* ================================================================== *)

Section Sort.
Context {A : Type}.
Variable key : A -> Z.

Lemma insert_by_perm (x : A) (l : list A) :
  Permutation (insert_by key x l) (x :: l).
Proof.
  induction l as [|y l IH]; cbn [insert_by].
  - reflexivity.
  - destruct (key x <=? key y).
    + reflexivity.
    + rewrite IH. apply perm_swap.
Qed.

Lemma stable_sort_perm (l : list A) : Permutation (stable_sort key l) l.
Proof.
  induction l as [|x l IH]; cbn.
  - reflexivity.
  - fold (stable_sort key l). rewrite insert_by_perm. now constructor.
Qed.

Lemma list_sort_perm (reverse : bool) (l : list A) :
  Permutation (list_sort key reverse l) l.
Proof.
  unfold list_sort. destruct reverse.
  - rewrite <- Permutation_rev, stable_sort_perm. symmetry.
    apply Permutation_rev.
  - apply stable_sort_perm.
Qed.

(** Insertion leaves each class of equal keys in its order, the new element
    at its front. *)
Lemma insert_by_with_key (k : Z) (x : A) (l : list A) :
  with_key key k (insert_by key x l) = with_key key k (x :: l).
Proof.
  unfold with_key. induction l as [|y l IH]; cbn [insert_by].
  - reflexivity.
  - destruct (Z.leb_spec (key x) (key y)) as [Hle|Hgt].
    + reflexivity.
    + cbn [filter] in *. rewrite IH.
      destruct (Z.eqb_spec (key x) k) as [Hx|Hx];
        destruct (Z.eqb_spec (key y) k) as [Hy|Hy]; try reflexivity.
      lia.
Qed.

Lemma stable_sort_with_key (k : Z) (l : list A) :
  with_key key k (stable_sort key l) = with_key key k l.
Proof.
  induction l as [|x l IH].
  - reflexivity.
  - change (stable_sort key (x :: l))
      with (insert_by key x (stable_sort key l)).
    rewrite insert_by_with_key.
    unfold with_key in *. cbn [filter]. now rewrite IH.
Qed.

Lemma with_key_rev (k : Z) (l : list A) :
  with_key key k (rev l) = rev (with_key key k l).
Proof.
  unfold with_key. induction l as [|x l IH]; cbn.
  - reflexivity.
  - rewrite filter_app, IH. cbn. destruct (key x =? k); cbn.
    + reflexivity.
    + now rewrite app_nil_r.
Qed.

(** [list.sort] is stable, also with [reverse=True]. *)
Lemma list_sort_with_key (reverse : bool) (k : Z) (l : list A) :
  with_key key k (list_sort key reverse l) = with_key key k l.
Proof.
  unfold list_sort. destruct reverse.
  - now rewrite with_key_rev, stable_sort_with_key, with_key_rev, rev_involutive.
  - apply stable_sort_with_key.
Qed.

Lemma insert_by_sorted (x : A) (l : list A) :
  StronglySorted (fun a b => key a <= key b) l ->
  StronglySorted (fun a b => key a <= key b) (insert_by key x l).
Proof.
  induction 1 as [|y l Hs IH Hy]; cbn [insert_by].
  - constructor; constructor.
  - destruct (Z.leb_spec (key x) (key y)) as [Hle|Hgt].
    + constructor.
      * now constructor.
      * constructor; [exact Hle|].
        eapply Forall_impl; [|exact Hy]. cbn. intros. lia.
    + constructor; [exact IH|].
      eapply Permutation_Forall.
      * symmetry. apply insert_by_perm.
      * constructor; [lia | exact Hy].
Qed.

Lemma stable_sort_sorted (l : list A) :
  StronglySorted (fun a b => key a <= key b) (stable_sort key l).
Proof.
  induction l as [|x l IH]; cbn.
  - constructor.
  - now apply insert_by_sorted.
Qed.

Lemma sorted_snoc (R : A -> A -> Prop) (l : list A) (x : A) :
  StronglySorted R l -> Forall (fun y => R y x) l ->
  StronglySorted R (l ++ [x]).
Proof.
  induction 1 as [|y l Hs IH Hy]; intros Hx; cbn.
  - constructor; constructor.
  - inversion Hx; subst. constructor.
    + now apply IH.
    + apply Forall_app. split; [exact Hy | now constructor].
Qed.

Lemma sorted_rev (l : list A) :
  StronglySorted (fun a b => key a <= key b) l -> descending key (rev l).
Proof.
  unfold descending. induction 1 as [|y l Hs IH Hy]; cbn.
  - constructor.
  - apply sorted_snoc; [exact IH|].
    apply Forall_rev. eapply Forall_impl; [|exact Hy]. cbn. intros. lia.
Qed.

Lemma list_sort_descending (l : list A) :
  descending key (list_sort key true l).
Proof. unfold list_sort. apply sorted_rev, stable_sort_sorted. Qed.

End Sort.

(* ================================================================== *)
(** * The loops of the tally endpoints *)
(* ================================================================== *)

Lemma Poll_get_cases (s : Store) (pk : Z) :
  (exists poll, Poll_get s pk = Ok poll /\ In poll (polls s)
                /\ Poll.id poll = pk)
  \/ Poll_get s pk = Raise (DoesNotExist PollM).
Proof.
  unfold Poll_get.
  destruct (find (fun p => Poll.id p =? pk) (polls s)) as [p|] eqn:F.
  - left. exists p. apply find_id_some in F. tauto.
  - now right.
Qed.

Lemma Election_get_cases (s : Store) (pk : Z) :
  (exists e, Election_get s pk = Ok e /\ In e (elections s)
             /\ Election.id e = pk)
  \/ Election_get s pk = Raise (DoesNotExist ElectionM).
Proof.
  unfold Election_get.
  destruct (find (fun e => Election.id e =? pk) (elections s)) as [e|] eqn:F.
  - left. exists e. apply find_id_some in F. tauto.
  - now right.
Qed.

(** The guard of the conditional expression keeps the division from
    raising. *)
Lemma poll_results_step_ok (s : Store) (poll : Poll.t)
  (results : list ResultEntry.t) (total_votes : Z) (c : Candidate.t) :
  poll_results_step s poll (results, total_votes) c
  = Ok (results ++ [entry_of s poll c],
        total_votes + votes_of_candidate s c).
Proof.
  unfold poll_results_step, entry_of, reported_percentage, int_truediv.
  pose proof (count_nonneg (fun v => Vote.poll_id v =? Poll.id poll) (votes s))
    as Hn.
  fold (votes_of_poll s poll) in Hn.
  destruct (Z.gtb_spec (votes_of_poll s poll) 0) as [Hpos|Hzero].
  - destruct (Z.eqb_spec (votes_of_poll s poll) 0) as [E|_]; [lia|].
    reflexivity.
  - destruct (Z.eqb_spec (votes_of_poll s poll) 0) as [_|E]; [|lia].
    reflexivity.
Qed.

Lemma for_each_poll_results (s : Store) (poll : Poll.t)
  (cands : list Candidate.t) (results : list ResultEntry.t) (total : Z) :
  for_each cands (results, total) (poll_results_step s poll)
  = Ok (results ++ map (entry_of s poll) cands,
        total + sum (map (votes_of_candidate s) cands)).
Proof.
  revert results total. induction cands as [|c cands IH]; intros results total.
  - cbn. now rewrite app_nil_r, Z.add_0_r.
  - cbn [for_each]. rewrite poll_results_step_ok. cbn [bind].
    rewrite IH. cbn [map]. rewrite <- app_assoc. cbn [app].
    unfold sum. cbn [fold_right]. f_equal. f_equal. lia.
Qed.

Lemma get_poll_results_found (s : Store) (poll_id : Z) (poll : Poll.t) :
  Poll_get s poll_id = Ok poll ->
  get_poll_results poll_id s = Ok (poll_results_of s poll).
Proof.
  intros H. unfold get_poll_results. rewrite H. cbn [bind].
  rewrite for_each_poll_results. cbn. reflexivity.
Qed.

Lemma get_poll_results_inv (s : Store) (poll_id : Z) (r : PollResults.t) :
  get_poll_results poll_id s = Ok r ->
  exists poll, Poll_get s poll_id = Ok poll /\ In poll (polls s)
               /\ Poll.id poll = poll_id /\ r = poll_results_of s poll.
Proof.
  intros H. destruct (Poll_get_cases s poll_id) as [[poll [G [Hin Hid]]]|G].
  - rewrite (get_poll_results_found _ _ _ G) in H. inversion H.
    exists poll. tauto.
  - unfold get_poll_results in H. rewrite G in H. discriminate.
Qed.

Lemma votes_of_entry_of (s : Store) (poll : Poll.t) (cands : list Candidate.t) :
  map ResultEntry.votes (map (entry_of s poll) cands)
  = map (votes_of_candidate s) cands.
Proof. rewrite map_map. reflexivity. Qed.

Lemma election_stats_step_ok (s : Store) (ps : list Poll.t)
  (stats : list PollStats.t) (total : Z) :
  for_each ps (stats, total) (election_stats_step s)
  = Ok (stats ++ map (stats_of s) ps, total + sum (map (votes_of_poll s) ps)).
Proof.
  revert stats total. induction ps as [|p ps IH]; intros stats total.
  - cbn. now rewrite app_nil_r, Z.add_0_r.
  - cbn [for_each election_stats_step bind]. rewrite IH.
    cbn [map]. rewrite <- app_assoc. cbn [app].
    unfold sum, stats_of. cbn [fold_right]. f_equal. f_equal. lia.
Qed.

Lemma get_election_stats_found (s : Store) (election_id : Z) (e : Election.t) :
  Election_get s election_id = Ok e ->
  get_election_stats election_id s = Ok (election_stats_of s e).
Proof.
  intros H. unfold get_election_stats. rewrite H. cbn [bind].
  rewrite election_stats_step_ok. cbn. reflexivity.
Qed.

Lemma get_election_stats_inv (s : Store) (election_id : Z)
  (r : ElectionStats.t) :
  get_election_stats election_id s = Ok r ->
  exists e, Election_get s election_id = Ok e /\ r = election_stats_of s e.
Proof.
  intros H.
  destruct (Election_get_cases s election_id) as [[e [G _]]|G].
  - rewrite (get_election_stats_found _ _ _ G) in H. inversion H. now exists e.
  - unfold get_election_stats in H. rewrite G in H. discriminate.
Qed.

(* ================================================================== *)
(** * The order of the results *)
(* ================================================================== *)

Section Ties.
Context {A : Type}.
Variables key tie : A -> Z.

Lemma sorted_filter (R : A -> A -> Prop) (p : A -> bool) (l : list A) :
  StronglySorted R l -> StronglySorted R (filter p l).
Proof.
  induction 1 as [|x l Hs IH Hx]; cbn [filter]; [constructor|].
  destruct (p x); [|exact IH]. constructor; [exact IH|].
  apply Forall_forall. intros y Hy. apply filter_In in Hy.
  rewrite Forall_forall in Hx. now apply Hx.
Qed.

(** A list in descending order of [key] whose elements of equal key are in
    ascending order of [tie] is in the order of the two. *)
Lemma sorted_classes (l : list A) :
  descending key l ->
  (forall k, StronglySorted (fun x y => tie x < tie y) (with_key key k l)) ->
  StronglySorted
    (fun x y => key x > key y \/ (key x = key y /\ tie x < tie y)) l.
Proof.
  unfold descending. induction 1 as [|x l Hs IH Hx]; intros Hc; [constructor|].
  constructor.
  - apply IH. intros k. specialize (Hc k). unfold with_key in *.
    cbn [filter] in Hc.
    destruct (key x =? k); [now inversion Hc | exact Hc].
  - apply Forall_forall. intros y Hy. rewrite Forall_forall in Hx.
    specialize (Hx y Hy).
    destruct (Z.eq_dec (key x) (key y)) as [E|N]; [right | left; lia].
    split; [exact E|]. specialize (Hc (key x)). unfold with_key in Hc.
    cbn [filter] in Hc. rewrite Z.eqb_refl in Hc.
    inversion Hc as [|? ? _ Hall]; subst.
    rewrite Forall_forall in Hall. apply Hall. apply filter_In.
    split; [exact Hy|]. apply Z.eqb_eq. lia.
Qed.

(** The stable descending sort of a list that is in ascending order of
    [tie] leaves equal keys in that order. *)
Lemma list_sort_then_tie (l : list A) :
  StronglySorted (fun x y => tie x < tie y) l ->
  StronglySorted
    (fun x y => key x > key y \/ (key x = key y /\ tie x < tie y))
    (list_sort key true l).
Proof.
  intros H. apply sorted_classes; [apply list_sort_descending|].
  intros k. rewrite list_sort_with_key. now apply sorted_filter.
Qed.

End Ties.

Lemma sorted_map {A B} (f : A -> B) (R : B -> B -> Prop) (l : list A) :
  StronglySorted R (map f l) <-> StronglySorted (fun x y => R (f x) (f y)) l.
Proof.
  induction l as [|x l IH]; cbn [map].
  - split; constructor.
  - split; intros H; inversion H as [|? ? Hs Hx]; subst; constructor.
    + now apply IH.
    + apply Forall_forall. intros y Hy. rewrite Forall_forall in Hx.
      apply Hx. now apply in_map.
    + now apply IH.
    + apply Forall_forall. intros y Hy. rewrite Forall_forall in Hx.
      apply in_map_iff in Hy. destruct Hy as [z [<- Hz]]. now apply Hx.
Qed.

Lemma with_key_entries (s : Store) (poll : Poll.t) (k : Z)
  (cands : list Candidate.t) :
  map ResultEntry.candidate_id
      (with_key ResultEntry.votes k (map (entry_of s poll) cands))
  = map Candidate.id (filter (fun c => votes_of_candidate s c =? k) cands).
Proof.
  unfold with_key. induction cands as [|c cands IH]; cbn [map filter].
  - reflexivity.
  - cbn [entry_of ResultEntry.votes].
    destruct (votes_of_candidate s c =? k); cbn [map]; now rewrite IH.
Qed.

(** C10. The results of [get_poll_results] list the candidates of the poll,
    each with the number of vote rows that name it, in descending order of
    votes; for every number of votes [k] the candidates with [k] votes
    stand in the results in the order of the candidate table, since the
    sort is stable; and with the table in rowid order, as it is in every
    store the server gets into (see [reachable_rowid_order]), candidates
    with equal votes are in ascending order of their ids, so that the
    results are in the one order of votes and then id. *)
Theorem poll_results_sort_stable (s : Store) (poll_id : Z)
  (r : PollResults.t) :
  get_poll_results poll_id s = Ok r ->
  Permutation
    (ids_and_votes r)
    (map (fun c =>
            (Candidate.id c,
             Z.of_nat (List.length
                         (filter (fun v => Vote.candidate_id v =? Candidate.id c)
                                 (votes s)))))
         (filter (fun c => Candidate.poll_id c =? poll_id) (candidates s)))
  /\ descending ResultEntry.votes (PollResults.results r)
  /\ (forall k,
        map ResultEntry.candidate_id
            (with_key ResultEntry.votes k (PollResults.results r))
        = map Candidate.id
              (filter
                 (fun c =>
                    Z.of_nat
                      (List.length
                         (filter (fun v => Vote.candidate_id v =? Candidate.id c)
                                 (votes s))) =? k)
                 (filter (fun c => Candidate.poll_id c =? poll_id)
                         (candidates s))))
  /\ (rowid_order Candidate.id (candidates s) ->
      StronglySorted by_votes_then_id (PollResults.results r)).
Proof.
  intros H. apply get_poll_results_inv in H.
  destruct H as [poll [_ [_ [Hid ->]]]]. subst poll_id.
  unfold ids_and_votes.
  cbn [poll_results_of PollResults.results].
  fold (Poll_candidates s poll).
  split; [|split; [|split]].
  - rewrite (Permutation_map _ (list_sort_perm ResultEntry.votes true _)).
    rewrite map_map. reflexivity.
  - apply list_sort_descending.
  - intros k. rewrite list_sort_with_key. apply with_key_entries.
  - intros Hrow. unfold rowid_order in Hrow.
    apply (list_sort_then_tie ResultEntry.votes ResultEntry.candidate_id).
    apply (sorted_map (entry_of s poll)
             (fun x y => ResultEntry.candidate_id x
                         < ResultEntry.candidate_id y)).
    cbn [entry_of ResultEntry.candidate_id]. unfold Poll_candidates.
    apply sorted_filter. now apply (sorted_map Candidate.id Z.lt).
Qed.

Lemma rowid_order_store_ties : rowid_order Candidate.id (candidates store_ties).
Proof. vm_compute. repeat constructor. Qed.

Lemma poll_results_sort_stable_witness :
  exists r,
    get_poll_results 1 store_ties = Ok r
    /\ ids_and_votes r = [(3, 2); (4, 2); (1, 1); (2, 1)]
    /\ map ResultEntry.candidate_id
           (with_key ResultEntry.votes 2 (PollResults.results r)) = [3; 4]
    /\ map ResultEntry.candidate_id
           (with_key ResultEntry.votes 1 (PollResults.results r)) = [1; 2]
    /\ StronglySorted by_votes_then_id (PollResults.results r).
Proof.
  assert (get_poll_results 1 store_ties
          = Ok (poll_results_of store_ties poll_P1)) as G
    by (vm_compute; reflexivity).
  exists (poll_results_of store_ties poll_P1).
  destruct (poll_results_sort_stable store_ties 1 _ G)
    as [_ [_ [Hkey Hord]]].
  split; [exact G|]. split; [vm_compute; reflexivity|].
  split; [rewrite (Hkey 2); vm_compute; reflexivity|].
  split; [rewrite (Hkey 1); vm_compute; reflexivity|].
  apply Hord. exact rowid_order_store_ties.
Defined.

(* ================================================================== *)
(** * Votes by candidate and votes by poll *)
(* ================================================================== *)

Lemma sum_map_add {A} (f g : A -> Z) (l : list A) :
  sum (map (fun x => f x + g x) l) = sum (map f l) + sum (map g l).
Proof.
  unfold sum. induction l as [|x l IH]; cbn; [reflexivity | rewrite IH; lia].
Qed.

Lemma sum_map_indicator {A} (p : A -> bool) (l : list A) :
  sum (map (fun x => if p x then 1 else 0) l) = count p l.
Proof.
  induction l as [|x l IH].
  - reflexivity.
  - rewrite count_cons, <- IH. reflexivity.
Qed.

Lemma sum_nonneg_zero (l : list Z) :
  Forall (fun x => 0 <= x) l -> sum l = 0 -> Forall (fun x => x = 0) l.
Proof.
  unfold sum. induction 1 as [|x l Hx Hl IH]; cbn; intros Hs.
  - constructor.
  - assert (0 <= fold_right Z.add 0 l).
    { clear -Hl. induction Hl; cbn; lia. }
    constructor; [lia | apply IH; lia].
Qed.

Lemma sum_map_zero {A} (f : A -> Z) (l : list A) :
  (forall x, In x l -> f x = 0) -> sum (map f l) = 0.
Proof.
  unfold sum. induction l as [|x l IH]; intros H; cbn; [reflexivity|].
  rewrite (H x (or_introl eq_refl)), IH; [reflexivity|].
  intros y Hy. apply H. now right.
Qed.

(** A primary key finds at most one row. *)
Lemma count_primary_key {A} (id : A -> Z) (k : Z) (l : list A) :
  NoDup (map id l) ->
  count (fun x => k =? id x) l = if mem k (map id l) then 1 else 0.
Proof.
  induction l as [|x l IH]; intros Hnd.
  - reflexivity.
  - inversion Hnd as [|? ? Hnotin Hnd']; subst.
    rewrite count_cons, (IH Hnd'). unfold mem. cbn [map existsb].
    fold (mem k (map id l)).
    destruct (Z.eqb_spec k (id x)) as [->|Hne]; cbn [orb].
    + destruct (mem (id x) (map id l)) eqn:M; [|reflexivity].
      apply mem_true_iff in M. contradiction.
    + reflexivity.
Qed.

Lemma primary_key_injective {A} (id : A -> Z) (l : list A) (a b : A) :
  NoDup (map id l) -> In a l -> In b l -> id a = id b -> a = b.
Proof.
  induction l as [|x l IH]; intros Hnd Ha Hb Hab; [contradiction|].
  inversion Hnd as [|? ? Hnotin Hnd']; subst.
  destruct Ha as [->|Ha], Hb as [->|Hb].
  - reflexivity.
  - exfalso. apply Hnotin. rewrite Hab. now apply in_map.
  - exfalso. apply Hnotin. rewrite <- Hab. now apply in_map.
  - now apply IH.
Qed.

Lemma NoDup_map_filter {A} (id : A -> Z) (p : A -> bool) (l : list A) :
  NoDup (map id l) -> NoDup (map id (filter p l)).
Proof.
  induction l as [|x l IH]; intros Hnd; cbn [filter map]; [constructor|].
  inversion Hnd as [|? ? Hnotin Hnd']; subst.
  destruct (p x); cbn [map]; [|now apply IH].
  constructor; [|now apply IH].
  intros Hin. apply Hnotin. apply in_map_iff in Hin.
  destruct Hin as [y [Hy Hin]]. apply filter_In in Hin.
  apply in_map_iff. exists y. tauto.
Qed.

(** Counting the rows of [xs] key by key of [ys] counts each row as often
    as its key is in [ys]. *)
Lemma sum_count_swap {A B} (f : A -> Z) (g : B -> Z) (xs : list A)
  (ys : list B) :
  sum (map (fun y => count (fun x => f x =? g y) xs) ys)
  = sum (map (fun x => count (fun y => f x =? g y) ys) xs).
Proof.
  induction xs as [|x xs IH].
  - cbn [map]. now apply sum_map_zero.
  - cbn [map]. unfold sum at 2. cbn [fold_right].
    change (fold_right Z.add 0 ?l) with (sum l). rewrite <- IH.
    transitivity
      (sum (map (fun y => (if f x =? g y then 1 else 0)
                          + count (fun x0 => f x0 =? g y) xs) ys)).
    + f_equal. apply map_ext. intros y.
      exact (count_cons (fun x0 => f x0 =? g y) x xs).
    + rewrite (sum_map_add (fun y => if f x =? g y then 1 else 0)).
      now rewrite sum_map_indicator.
Qed.

(** Under the admission invariant the votes of the candidates of a poll are
    the votes of the poll. *)
Lemma votes_of_candidates_of_poll (s : Store) (poll : Poll.t) :
  NoDup (map Candidate.id (candidates s)) ->
  admission_invariant s ->
  sum (map (votes_of_candidate s) (Poll_candidates s poll))
  = votes_of_poll s poll.
Proof.
  intros Hnd Hinv. unfold votes_of_candidate.
  rewrite (sum_count_swap Vote.candidate_id Candidate.id (votes s)
             (Poll_candidates s poll)).
  unfold votes_of_poll. rewrite <- sum_map_indicator.
  f_equal. apply map_ext_in. intros v Hv.
  rewrite (count_primary_key Candidate.id (Vote.candidate_id v));
    [| now apply NoDup_map_filter].
  destruct (Hinv v Hv) as [c0 [Hc0 [Hid Hpoll]]].
  destruct (mem (Vote.candidate_id v)
                (map Candidate.id (Poll_candidates s poll))) eqn:M.
  - apply mem_true_iff, in_map_iff in M. destruct M as [c [Hc Hin]].
    apply filter_In in Hin. destruct Hin as [Hin Hp].
    assert (c = c0) by
      (apply (primary_key_injective Candidate.id (candidates s));
       [exact Hnd | exact Hin | exact Hc0 | congruence]).
    subst c. rewrite <- Hpoll, Hp. reflexivity.
  - destruct (Z.eqb_spec (Vote.poll_id v) (Poll.id poll)) as [E|_];
      [|reflexivity].
    assert (In (Vote.candidate_id v)
               (map Candidate.id (Poll_candidates s poll))) as Hin.
    { apply in_map_iff. exists c0. split; [exact Hid|].
      apply filter_In. split; [exact Hc0|]. apply Z.eqb_eq. congruence. }
    apply mem_true_iff in Hin. congruence.
Qed.

Lemma reachable_run (rs : list request) (s : Store) :
  reachable s -> reachable (run rs s).
Proof.
  intros [rs0 ->]. exists (rs0 ++ rs). unfold run. now rewrite fold_left_app.
Qed.

Lemma reachable_store_moved : reachable store_moved.
Proof.
  unfold store_moved, store_voted, store_setup.
  repeat apply reachable_run. now exists [].
Qed.


Lemma admission_invariant_store_voted :
  NoDup (map Candidate.id (candidates store_voted))
  /\ admission_invariant store_voted.
Proof.
  split.
  - vm_compute. repeat constructor; cbn; intuition discriminate.
  - intros v Hv. vm_compute in Hv. destruct Hv as [<-|[]].
    eexists. split; [left; reflexivity | split; reflexivity].
Qed.



(* ================================================================== *)
(** * A poll without votes *)
(* ================================================================== *)

Lemma votes_of_candidate_nonneg (s : Store) (c : Candidate.t) :
  0 <= votes_of_candidate s c.
Proof. apply count_nonneg. Qed.

Lemma stable_sort_constant_key {A} (key : A -> Z) (k : Z) (l : list A) :
  Forall (fun x => key x = k) l -> stable_sort key l = l.
Proof.
  induction 1 as [|x l Hx Hl IH].
  - reflexivity.
  - change (stable_sort key (x :: l))
      with (insert_by key x (stable_sort key l)).
    rewrite IH. destruct Hl as [|y l Hy Hl]; cbn [insert_by].
    + reflexivity.
    + rewrite Hx, Hy, Z.leb_refl. reflexivity.
Qed.

Lemma list_sort_constant_key {A} (key : A -> Z) (k : Z) (reverse : bool)
  (l : list A) :
  Forall (fun x => key x = k) l -> list_sort key reverse l = l.
Proof.
  intros H. unfold list_sort. destruct reverse.
  - rewrite (stable_sort_constant_key key k); [apply rev_involutive|].
    now apply Forall_rev.
  - now apply (stable_sort_constant_key key k).
Qed.




(* ================================================================== *)
(** * The statistics of an election *)
(* ================================================================== *)

Lemma votes_of_polls (s : Store) (ps : list Poll.t) :
  NoDup (map Poll.id ps) ->
  sum (map (votes_of_poll s) ps)
  = count (fun v => mem (Vote.poll_id v) (map Poll.id ps)) (votes s).
Proof.
  intros Hnd. unfold votes_of_poll.
  rewrite (sum_count_swap Vote.poll_id Poll.id (votes s) ps).
  rewrite <- sum_map_indicator. f_equal. apply map_ext. intros v.
  now apply count_primary_key.
Qed.

Lemma mem_ids_of_filter {A} (id : A -> Z) (q : A -> bool) (x : Z)
  (rows : list A) :
  mem x (map id (filter q rows)) = existsb (fun r => q r && (x =? id r)) rows.
Proof.
  unfold mem. induction rows as [|r rows IH]; cbn [filter map existsb];
    [reflexivity|].
  destruct (q r); cbn [map existsb andb orb]; now rewrite IH.
Qed.

(** C7. For every existing election, [total_votes] is the sum, over the
    polls whose [election_id] is that of the election, of the number of
    vote rows of the poll, which are the [votes_count] of the response;
    [total_unique_voters] is the number of vote rows whose poll is one of
    these polls, one per row whoever the voter is; and the two are equal.
    The polls are told apart by their primary key, which is unique in every
    store the server gets into (see [reachable_constraints]). *)
Theorem election_stats_totals (s : Store) (election_id : Z)
  (r : ElectionStats.t) :
  NoDup (map Poll.id (polls s)) ->
  get_election_stats election_id s = Ok r ->
  (exists e, Election_get s election_id = Ok e)
  /\ ElectionStats.total_votes r
     = fold_right Z.add 0
         (map (fun p =>
                 Z.of_nat
                   (List.length
                      (filter (fun v => Vote.poll_id v =? Poll.id p)
                              (votes s))))
              (filter (fun p => Poll.election_id p =? election_id) (polls s)))
  /\ ElectionStats.total_votes r
     = fold_right Z.add 0
         (map PollStats.votes_count (ElectionStats.polls r))
  /\ map PollStats.poll_id (ElectionStats.polls r)
     = map Poll.id
           (filter (fun p => Poll.election_id p =? election_id) (polls s))
  /\ ElectionStats.total_unique_voters r
     = Z.of_nat
         (List.length
            (filter (fun v =>
                       existsb (fun p => (Poll.election_id p =? election_id)
                                         && (Vote.poll_id v =? Poll.id p))
                               (polls s))
                    (votes s)))
  /\ ElectionStats.total_unique_voters r = ElectionStats.total_votes r.
Proof.
  intros Hnd H. apply get_election_stats_inv in H. destruct H as [e [G ->]].
  destruct (Election_get_cases s election_id) as [[e' [G' [_ Hid]]]|G'];
    rewrite G' in G; [|discriminate].
  inversion G; subst e'. subst election_id.
  cbn [election_stats_of ElectionStats.total_votes ElectionStats.polls
       ElectionStats.total_unique_voters].
  split; [now exists e|]. split; [reflexivity|]. split; [|split; [|split]].
  - rewrite map_map. reflexivity.
  - rewrite map_map. reflexivity.
  - unfold count, Election_polls. f_equal. f_equal. apply filter_ext.
    intros v. apply mem_ids_of_filter.
  - symmetry. apply votes_of_polls. now apply NoDup_map_filter.
Qed.

Lemma NoDup_poll_ids_store_two_polls :
  NoDup (map Poll.id (polls store_two_polls)).
Proof. vm_compute. repeat constructor; cbn; intuition discriminate. Qed.

(** The election of the scenarios after V1 has voted in both of its polls:
    one vote in each, two in all, and two "unique voters" for the one
    voter. *)
Lemma election_stats_totals_witness :
  List.length (voters store_two_polls) = 1%nat
  /\ exists r,
       get_election_stats 1 store_two_polls = Ok r
       /\ map PollStats.poll_id (ElectionStats.polls r) = [1; 2]
       /\ map PollStats.votes_count (ElectionStats.polls r) = [1; 1]
       /\ ElectionStats.total_votes r = 2
       /\ ElectionStats.total_unique_voters r = 2.
Proof.
  split; [reflexivity|].
  assert (get_election_stats 1 store_two_polls
          = Ok (election_stats_of store_two_polls election_E)) as G
    by (vm_compute; reflexivity).
  exists (election_stats_of store_two_polls election_E).
  destruct (election_stats_totals store_two_polls 1 _
              NoDup_poll_ids_store_two_polls G)
    as [_ [Hsum [_ [Hids [Hrows _]]]]].
  split; [exact G|].
  split; [rewrite Hids; vm_compute; reflexivity|].
  split; [vm_compute; reflexivity|].
  split; [rewrite Hsum; vm_compute; reflexivity|].
  rewrite Hrows. vm_compute. reflexivity.
Defined.

(** One voter with a vote in each of the two polls of the election counts
    twice. *)
Example election_stats_counts_rows :
  List.length (voters store_two_polls) = 1%nat
  /\ ElectionStats.total_unique_voters
       (election_stats_of store_two_polls election_E) = 2
  /\ ElectionStats.total_votes
       (election_stats_of store_two_polls election_E) = 2.
Proof. vm_compute. repeat split. Qed.

(* ================================================================== *)
(** * The admission of a vote *)
(* ================================================================== *)

Lemma existsb_find {A} (p : A -> bool) (l : list A) :
  existsb p l = match find p l with Some _ => true | None => false end.
Proof.
  induction l as [|x l IH]; cbn; [reflexivity|].
  destruct (p x); [reflexivity | exact IH].
Qed.

Lemma mem_find_id {A} (id : A -> Z) (pk : Z) (rows : list A) (x : A) :
  find (fun r => id r =? pk) rows = Some x -> mem pk (map id rows) = true.
Proof.
  intros H. apply find_id_some in H. destruct H as [Hin <-].
  apply mem_true_iff. now apply in_map.
Qed.

(** The insert of a request that has passed the checks on the same store
    succeeds. *)
Lemma Vote_create_after_checks (s : Store) (created_at voted_at : datetime)
  (vote : VoteCreate.t) (poll : Poll.t) (candidate : Candidate.t)
  (voter : Voter.t) :
  Poll_get s (VoteCreate.poll_id vote) = Ok poll ->
  Candidate_get s (VoteCreate.candidate_id vote) = Ok candidate ->
  Voter_get s (VoteCreate.voter_id vote) = Ok voter ->
  existing_vote s poll voter = None ->
  bind (Vote_create s created_at voted_at vote)
       (fun '(vote_db, s') => Ok (VoteResponse_from_orm vote_db, s'))
  = Ok (commit_vote created_at voted_at vote s).
Proof.
  unfold Poll_get, Candidate_get, Voter_get, existing_vote.
  destruct (find (fun p => Poll.id p =? VoteCreate.poll_id vote) (polls s))
    as [p|] eqn:Fp; [|discriminate].
  destruct (find (fun c => Candidate.id c =? VoteCreate.candidate_id vote)
                 (candidates s)) as [c|] eqn:Fc; [|discriminate].
  destruct (find (fun v => Voter.id v =? VoteCreate.voter_id vote) (voters s))
    as [v|] eqn:Fv; [|discriminate].
  intros Hp Hc Hv Hnone. inversion Hp; inversion Hc; inversion Hv; subst.
  pose proof (find_id_some Poll.id _ _ _ Fp) as [_ Hpid].
  pose proof (find_id_some Voter.id _ _ _ Fv) as [_ Hvid].
  rewrite Hpid, Hvid in Hnone.
  unfold Vote_create. rewrite existsb_find, Hnone.
  rewrite (mem_find_id Poll.id _ _ _ Fp), (mem_find_id Candidate.id _ _ _ Fc),
    (mem_find_id Voter.id _ _ _ Fv).
  reflexivity.
Qed.

Lemma exn_of_kind_injective (k1 k2 : error_kind) :
  exn_of_kind k1 = exn_of_kind k2 -> k1 = k2.
Proof.
  destruct k1 as [[]| | |[]], k2 as [[]| | |[]]; cbn;
    intros H; try reflexivity; inversion H.
Qed.

(** On a store whose references are intact (as they are in every store the
    server gets into, see [reachable_constraints]), and for a request and
    an election that SQLite and peewee take as they are, [create_vote] does
    what the validation sequence says: the checks are taken in its order,
    the first one that fails decides the error, and when none fails the
    vote is committed. *)
Lemma create_vote_first_failure (now created_at voted_at : datetime)
  (vote : VoteCreate.t) (s : Store) :
  foreign_keys_ok s ->
  create_vote now created_at voted_at vote s
  = AdmitVote_spec now created_at voted_at vote s.
Proof.
  intros [Hfk_poll [Hfk_cand _]].
  unfold create_vote, create_vote_interleaved, AdmitVote_spec,
    admission_checks.
  destruct (Poll_get s (VoteCreate.poll_id vote)) as [poll|e] eqn:Gp.
  2:{ unfold create_vote_checks. rewrite Gp. unfold Poll_get in Gp.
      destruct (find _ (polls s)); [discriminate|].
      inversion Gp. reflexivity. }
  destruct (Candidate_get s (VoteCreate.candidate_id vote))
    as [candidate|e] eqn:Gc.
  2:{ unfold create_vote_checks. rewrite Gp, Gc.
      unfold Poll_get in Gp. unfold Candidate_get in Gc.
      destruct (find _ (polls s)); [|discriminate].
      destruct (find _ (candidates s)); [discriminate|].
      inversion Gc. reflexivity. }
  destruct (Voter_get s (VoteCreate.voter_id vote)) as [voter|e] eqn:Gv.
  2:{ unfold create_vote_checks. rewrite Gp, Gc, Gv.
      unfold Poll_get in Gp. unfold Candidate_get in Gc.
      unfold Voter_get in Gv.
      destruct (find _ (polls s)); [|discriminate].
      destruct (find _ (candidates s)); [|discriminate].
      destruct (find _ (voters s)); [discriminate|].
      inversion Gv. reflexivity. }
  pose proof (Vote_create_after_checks s created_at voted_at vote
                poll candidate voter Gp Gc Gv) as Hcommit.
  unfold create_vote_checks. rewrite Gp, Gc, Gv. cbn [bind].
  unfold Poll_get in Gp. unfold Candidate_get in Gc. unfold Voter_get in Gv.
  destruct (find _ (polls s)) as [p|] eqn:Fp; [|discriminate].
  destruct (find _ (candidates s)) as [c|] eqn:Fc; [|discriminate].
  destruct (find _ (voters s)) as [v|] eqn:Fv; [|discriminate].
  inversion Gp; inversion Gc; inversion Gv; subst p c v. clear Gp Gc Gv.
  pose proof (find_id_some Poll.id _ _ _ Fp) as [Hpin Hpid].
  pose proof (find_id_some Candidate.id _ _ _ Fc) as [Hcin _].
  pose proof (find_id_some Voter.id _ _ _ Fv) as [_ Hvid].
  (* candidate.poll *)
  unfold Candidate_poll, Poll_get.
  destruct (find_id_mem Poll.id _ _ (Hfk_cand candidate Hcin)) as [cp Fcp].
  rewrite Fcp. cbn [bind first_failure].
  apply find_id_some in Fcp. destruct Fcp as [_ Hcp]. rewrite Hcp.
  destruct (Candidate.poll_id candidate =? Poll.id poll); cbn [negb];
    [|reflexivity].
  (* existing_vote *)
  rewrite existsb_find. unfold existing_vote in *. rewrite Hpid, Hvid in *.
  destruct (find _ (votes s)) as [x|]; cbn [negb]; [reflexivity|].
  destruct (Poll.is_active poll); cbn [negb]; [|reflexivity].
  destruct (Voter.is_verified voter); cbn [negb]; [|reflexivity].
  (* poll.election *)
  unfold Poll_election, Election_get.
  destruct (find_id_mem Election.id _ _ (Hfk_poll poll Hpin)) as [el Fel].
  rewrite Fel. cbn [bind].
  destruct (Z.ltb_spec now (Election.start_date el));
    destruct (Z.gtb_spec now (Election.end_date el));
    destruct (Z.leb_spec (Election.start_date el) now);
    destruct (Z.leb_spec now (Election.end_date el));
    try lia; cbn [orb andb try_except except_create_vote]; try reflexivity.
  rewrite (Hcommit eq_refl). reflexivity.
Qed.

Lemma foreign_keys_ok_store_voted : foreign_keys_ok store_voted.
Proof.
  unfold foreign_keys_ok, references.
  split; [|split; [|split; [|split]]]; intros x Hx; in_concrete_list Hx.
Qed.

(** What a request has passed when its checks return. *)
Lemma create_vote_checks_ok_inv (now : datetime) (vote : VoteCreate.t)
  (s : Store) :
  create_vote_checks now vote s = Ok tt ->
  exists election,
    otherwise_valid vote s election
    /\ Election.start_date election <= now <= Election.end_date election.
Proof.
  unfold create_vote_checks, otherwise_valid.
  destruct (Poll_get s (VoteCreate.poll_id vote)) as [poll|] eqn:Gp;
    [|discriminate].
  destruct (Candidate_get s (VoteCreate.candidate_id vote))
    as [candidate|] eqn:Gc; [|discriminate].
  destruct (Voter_get s (VoteCreate.voter_id vote)) as [voter|] eqn:Gv;
    [|discriminate].
  cbn [bind].
  destruct (Candidate_poll s candidate) as [cp|] eqn:Gcp; [|discriminate].
  cbn [bind].
  destruct (Z.eqb_spec (Poll.id cp) (Poll.id poll)) as [Hcp|];
    [|discriminate]. cbn [negb].
  destruct (existing_vote s poll voter) eqn:Ev; [discriminate|].
  destruct (Poll.is_active poll) eqn:Ha; [|discriminate].
  destruct (Voter.is_verified voter) eqn:Hv; [|discriminate]. cbn [negb].
  destruct (Poll_election s poll) as [el|] eqn:Ge; [|discriminate].
  cbn [bind].
  destruct (Z.ltb_spec now (Election.start_date el)); [discriminate|].
  destruct (Z.gtb_spec now (Election.end_date el)); [discriminate|].
  intros _. exists el. split; [|lia].
  exists poll, candidate, voter. repeat split; try assumption.
  unfold Candidate_poll, Poll_get in Gcp.
  destruct (find _ (polls s)) eqn:F; [|discriminate].
  inversion Gcp; subst. apply find_id_some in F. destruct F as [_ F].
  congruence.
Qed.

(** The checks of a request that is valid but for the election window. *)
Lemma create_vote_checks_window (now : datetime) (vote : VoteCreate.t)
  (s : Store) (election : Election.t) :
  otherwise_valid vote s election ->
  create_vote_checks now vote s
  = if (now <? Election.start_date election)
       || (now >? Election.end_date election)
    then Raise (HTTPException 400 detail_window_closed)
    else Ok tt.
Proof.
  intros [poll [candidate [voter [Gp [Gc [Gv [Hcp [Ev [Ha [Hv Ge]]]]]]]]]].
  unfold create_vote_checks. rewrite Gp, Gc, Gv. cbn [bind].
  assert (Candidate_poll s candidate = Ok poll) as Gcp.
  { unfold Candidate_poll. rewrite Hcp.
    destruct (Poll_get_cases s (VoteCreate.poll_id vote))
      as [[p [Gp' [_ Hid]]]|Gp']; rewrite Gp' in Gp; [|discriminate].
    inversion Gp; subst p. now rewrite Hid. }
  rewrite Gcp. cbn [bind]. rewrite Z.eqb_refl, Ev, Ha, Hv, Ge. reflexivity.
Qed.

(** With naive dates, a vote request that passes the checks 1 to 7 is
    refused with "window closed" when the time of the request is before the
    start or after the end of the election, and is committed when the time
    lies within the two dates. *)
Lemma create_vote_window (now created_at voted_at : datetime)
  (vote : VoteCreate.t) (s : Store) (election : Election.t) :
  otherwise_valid vote s election ->
  (now < Election.start_date election \/ now > Election.end_date election ->
   create_vote now created_at voted_at vote s
   = Raise (exn_of_kind (InvalidState election_window)))
  /\ (Election.start_date election <= now <= Election.end_date election ->
      create_vote now created_at voted_at vote s
      = Ok (commit_vote created_at voted_at vote s))
  /\ (Election.start_date election <= Election.end_date election ->
      create_vote (Election.start_date election) created_at voted_at vote s
      = Ok (commit_vote created_at voted_at vote s)
      /\ create_vote (Election.end_date election) created_at voted_at vote s
         = Ok (commit_vote created_at voted_at vote s)).
Proof.
  intros Hvalid.
  assert (forall t,
            Election.start_date election <= t <= Election.end_date election ->
            create_vote t created_at voted_at vote s
            = Ok (commit_vote created_at voted_at vote s)) as Hin.
  { intros t Ht. unfold create_vote, create_vote_interleaved.
    rewrite (create_vote_checks_window t vote s election Hvalid).
    destruct (Z.ltb_spec t (Election.start_date election)); [lia|].
    destruct (Z.gtb_spec t (Election.end_date election)); [lia|].
    cbn [orb bind].
    destruct Hvalid as [poll [candidate [voter [Gp [Gc [Gv [_ [Ev _]]]]]]]].
    rewrite (Vote_create_after_checks s created_at voted_at vote
               poll candidate voter Gp Gc Gv Ev).
    reflexivity. }
  split; [|split].
  - intros Hout. unfold create_vote, create_vote_interleaved.
    rewrite (create_vote_checks_window now vote s election Hvalid).
    destruct (Z.ltb_spec now (Election.start_date election));
      destruct (Z.gtb_spec now (Election.end_date election));
      try lia; reflexivity.
  - apply Hin.
  - intros Hle. split; apply Hin; lia.
Qed.

Lemma otherwise_valid_store_setup :
  otherwise_valid (a_vote 1 1 1) store_setup election_E.
Proof.
  unfold otherwise_valid. do 3 eexists. repeat split; reflexivity.
Qed.

(* ================================================================== *)
(** * The admission of a vote, on every request *)
(* ================================================================== *)

Lemma get_int64 {A} (Model_get : Store -> Z -> result A) (s : Store)
  (pk : Z) :
  int64 pk = true -> Python.get Model_get s pk = Model_get s pk.
Proof. intros H. unfold Python.get, bound. now rewrite H. Qed.

Lemma get_overflow {A} (Model_get : Store -> Z -> result A) (s : Store)
  (pk : Z) :
  int64 pk = false -> Python.get Model_get s pk = Raise OverflowError.
Proof. intros H. unfold Python.get, bound. now rewrite H. Qed.

(** With ids that SQLite holds and naive dates in the election of the poll,
    the checks are those of [create_vote_checks]. *)
Lemma create_vote_checks_naive (now : datetime) (vote : VoteCreate.t)
  (d : Database) :
  int64 (VoteCreate.poll_id vote) = true ->
  int64 (VoteCreate.candidate_id vote) = true ->
  int64 (VoteCreate.voter_id vote) = true ->
  (forall poll election,
     Poll_get (tables d) (VoteCreate.poll_id vote) = Ok poll ->
     Poll_election (tables d) poll = Ok election ->
     mem (Election.id election) (aware_dates d) = false) ->
  Python.create_vote_checks now vote d
  = create_vote_checks now vote (tables d).
Proof.
  intros Hp Hc Hv Hn. unfold Python.create_vote_checks, create_vote_checks.
  rewrite !get_int64 by assumption.
  destruct (Poll_get (tables d) (VoteCreate.poll_id vote)) as [poll|]
    eqn:Gp; [|reflexivity]. cbn [bind].
  destruct (Candidate_get (tables d) _) as [candidate|]; [|reflexivity].
  cbn [bind].
  destruct (Voter_get (tables d) _) as [voter|]; [|reflexivity]. cbn [bind].
  destruct (Candidate_poll (tables d) candidate) as [cp|]; [|reflexivity].
  cbn [bind].
  destruct (negb (Poll.id cp =? Poll.id poll)); [reflexivity|].
  destruct (existing_vote (tables d) poll voter); [reflexivity|].
  destruct (negb (Poll.is_active poll)); [reflexivity|].
  destruct (negb (Voter.is_verified voter)); [reflexivity|].
  destruct (Poll_election (tables d) poll) as [el|] eqn:Ge; [|reflexivity].
  cbn [bind]. unfold Python.start_date, Python.end_date.
  rewrite (Hn poll el eq_refl Ge). cbn [Python.lt Python.gt bind].
  destruct (now <? Election.start_date el); reflexivity.
Qed.

Lemma create_vote_naive (now created_at voted_at : datetime)
  (vote : VoteCreate.t) (d : Database) :
  int64 (VoteCreate.poll_id vote) = true ->
  int64 (VoteCreate.candidate_id vote) = true ->
  int64 (VoteCreate.voter_id vote) = true ->
  (forall poll election,
     Poll_get (tables d) (VoteCreate.poll_id vote) = Ok poll ->
     Poll_election (tables d) poll = Ok election ->
     mem (Election.id election) (aware_dates d) = false) ->
  Python.create_vote now created_at voted_at vote d
  = in_database d (create_vote now created_at voted_at vote (tables d)).
Proof.
  intros Hp Hc Hv Hn.
  unfold Python.create_vote, create_vote, create_vote_interleaved.
  rewrite (create_vote_checks_naive now vote d Hp Hc Hv Hn).
  destruct (create_vote_checks now vote (tables d)) as [[]|e];
    cbn [bind try_except].
  - destruct (Vote_create (tables d) created_at voted_at vote)
      as [[row s']|e]; cbn [bind in_database try_except]; [reflexivity|].
    destruct (except_create_vote e); reflexivity.
  - destruct (except_create_vote e); reflexivity.
Qed.

(** An id that SQLite does not hold ends [create_vote] at the lookup that
    binds it. *)
Lemma create_vote_overflow (now created_at voted_at : datetime)
  (vote : VoteCreate.t) (d : Database) :
  int64 (VoteCreate.poll_id vote) = false ->
  Python.create_vote now created_at voted_at vote d = Raise OverflowError.
Proof.
  intros H. unfold Python.create_vote, Python.create_vote_checks.
  rewrite (get_overflow Poll_get _ _ H). reflexivity.
Qed.

(** A request that passes the checks 1 to 7 in an election whose dates
    were written with a time zone ends in the comparison with the start
    date. *)
Lemma create_vote_aware_dates (now created_at voted_at : datetime)
  (vote : VoteCreate.t) (d : Database) (election : Election.t) :
  otherwise_valid vote (tables d) election ->
  int64 (VoteCreate.poll_id vote) = true ->
  int64 (VoteCreate.candidate_id vote) = true ->
  int64 (VoteCreate.voter_id vote) = true ->
  mem (Election.id election) (aware_dates d) = true ->
  Python.create_vote now created_at voted_at vote d = Raise TypeError.
Proof.
  intros [poll [candidate [voter [Gp [Gc [Gv [Hcp [Ev [Ha [Hv Ge]]]]]]]]]]
    Ip Ic Iv Haware.
  unfold Python.create_vote, Python.create_vote_checks.
  rewrite !get_int64 by assumption. rewrite Gp, Gc, Gv. cbn [bind].
  assert (Candidate_poll (tables d) candidate = Ok poll) as Gcp.
  { unfold Candidate_poll. rewrite Hcp.
    destruct (Poll_get_cases (tables d) (VoteCreate.poll_id vote))
      as [[p [Gp' [_ Hid]]]|Gp']; rewrite Gp' in Gp; [|discriminate].
    inversion Gp; subst p. now rewrite Hid. }
  rewrite Gcp. cbn [bind]. rewrite Z.eqb_refl, Ev, Ha, Hv, Ge.
  cbn [negb bind]. unfold Python.start_date. rewrite Haware. reflexivity.
Qed.

Lemma Poll_election_In (s : Store) (poll : Poll.t) (election : Election.t) :
  Poll_election s poll = Ok election -> In election (elections s).
Proof.
  unfold Poll_election. intros G.
  destruct (Election_get_cases s (Poll.election_id poll))
    as [[e [G' [Hin _]]]|G']; rewrite G' in G; [|discriminate].
  now inversion G; subst.
Qed.


Lemma foreign_keys_ok_store_setup : foreign_keys_ok store_setup.
Proof.
  unfold foreign_keys_ok, references.
  split; [|split; [|split; [|split]]]; intros x Hx; in_concrete_list Hx.
Qed.

Lemma naive_dates_database (s : Store) : naive_dates (database s).
Proof. intros e _. reflexivity. Qed.



Lemma get_ok {A} (Model_get : Store -> Z -> result A) (s : Store) (pk : Z)
  (x : A) :
  Python.get Model_get s pk = Ok x ->
  int64 pk = true /\ Model_get s pk = Ok x.
Proof.
  unfold Python.get, bound. destruct (int64 pk); [|discriminate].
  cbn [bind]. now split.
Qed.

(** The checks 1 to 7 pass on the request when they pass on the tables and
    the ids are ones that SQLite holds. *)
Lemma otherwise_valid_int64 (vote : VoteCreate.t) (d : Database)
  (election : Election.t) :
  Python.otherwise_valid vote d election <->
  int64 (VoteCreate.poll_id vote) = true
  /\ int64 (VoteCreate.candidate_id vote) = true
  /\ int64 (VoteCreate.voter_id vote) = true
  /\ otherwise_valid vote (tables d) election.
Proof.
  split.
  - intros [poll [candidate [voter [Gp [Gc [Gv H]]]]]].
    apply get_ok in Gp, Gc, Gv.
    destruct Gp as [Ip Gp], Gc as [Ic Gc], Gv as [Iv Gv].
    do 3 (split; [assumption|]). now exists poll, candidate, voter.
  - intros [Ip [Ic [Iv [poll [candidate [voter [Gp [Gc [Gv H]]]]]]]]].
    exists poll, candidate, voter. rewrite !get_int64 by assumption.
    tauto.
Qed.


(** [create_election] on every pair of dates: a naive and an aware date
    are not compared, a start that is not before the end is refused, and
    in both cases nothing is written; two dates of one sort with the start
    before the end are stored, and remembered as aware when they are. *)
Lemma create_election_every_date (now : datetime) (election : ElectionBase.t)
  (d : Database) :
  (is_aware (ElectionBase.start_date election)
   <> is_aware (ElectionBase.end_date election) ->
   Python.create_election now election d = Raise TypeError)
  /\ (is_aware (ElectionBase.start_date election)
      = is_aware (ElectionBase.end_date election) ->
      point (ElectionBase.start_date election)
      >= point (ElectionBase.end_date election) ->
      Python.create_election now election d
      = Raise (HTTPException 400 detail_bad_dates))
  /\ (is_aware (ElectionBase.start_date election)
      = is_aware (ElectionBase.end_date election) ->
      point (ElectionBase.start_date election)
      < point (ElectionBase.end_date election) ->
      exists row d',
        Python.create_election now election d = Ok (row, d')
        /\ elections (tables d') = elections (tables d) ++ [row]
        /\ Election.start_date row = point (ElectionBase.start_date election)
        /\ Election.end_date row = point (ElectionBase.end_date election)
        /\ mem (Election.id row) (aware_dates d')
           = is_aware (ElectionBase.start_date election)).
Proof.
  unfold Python.create_election.
  destruct (ElectionBase.start_date election) as [x|x];
    destruct (ElectionBase.end_date election) as [y|y];
    cbn [is_aware point pydatetime_ge bind];
    (split; [|split]); intros H; try congruence; try reflexivity.
  all: try (intros H'; destruct (Z.geb_spec x y); [reflexivity | lia]).
  all: intros H'; destruct (Z.geb_spec x y); [lia|];
    unfold Election_create; cbn [elections tables aware_dates Election.id
                                   Election.start_date Election.end_date];
    do 2 eexists; split; [reflexivity|];
    cbn [elections tables aware_dates Election.start_date Election.end_date];
    do 3 (split; [reflexivity|]).
  - unfold mem. rewrite existsb_find.
    destruct (find _ _) as [i|] eqn:F; [|reflexivity].
    apply find_some in F. destruct F as [F E]. apply filter_In in F.
    destruct F as [_ F]. apply Z.eqb_eq in E. subst i.
    now rewrite Z.eqb_refl in F.
  - unfold mem. cbn [existsb]. now rewrite Z.eqb_refl.
Qed.

Lemma otherwise_valid_database_setup :
  Python.otherwise_valid (a_vote 1 1 1) (database store_setup) election_E.
Proof.
  unfold Python.otherwise_valid. do 3 eexists. repeat split; reflexivity.
Qed.

Lemma otherwise_valid_database_aware :
  Python.otherwise_valid (a_vote 1 1 1) database_aware election_E.
Proof.
  unfold Python.otherwise_valid. do 3 eexists. repeat split; reflexivity.
Qed.



(* ================================================================== *)
(** * [max_votes_per_voter] is not consulted *)
(* ================================================================== *)

Lemma find_map {A} (p : A -> bool) (g : A -> A) (l : list A) :
  (forall x, p (g x) = p x) ->
  find p (map g l) = option_map g (find p l).
Proof.
  intros H. induction l as [|x l IH]; cbn; [reflexivity|].
  rewrite H. destruct (p x); [reflexivity | exact IH].
Qed.

Lemma map_map_id {A} (id : A -> Z) (g : A -> A) (l : list A) :
  (forall x, id (g x) = id x) -> map id (map g l) = map id l.
Proof. intros H. rewrite map_map. apply map_ext. exact H. Qed.

Lemma create_vote_checks_max_votes (f : Poll.t -> Z) (now : datetime)
  (vote : VoteCreate.t) (s : Store) :
  create_vote_checks now vote (with_max_votes f s)
  = create_vote_checks now vote s.
Proof.
  unfold create_vote_checks, Candidate_poll, Poll_election, Poll_get,
    Candidate_get, Voter_get, Election_get, existing_vote, with_max_votes.
  cbn [polls candidates voters votes elections].
  rewrite find_map by reflexivity.
  destruct (find _ (polls s)) as [poll|]; cbn [option_map bind];
    [|reflexivity].
  destruct (find _ (candidates s)) as [candidate|]; cbn [bind];
    [|reflexivity].
  destruct (find _ (voters s)) as [voter|]; cbn [bind]; [|reflexivity].
  rewrite find_map by reflexivity.
  destruct (find _ (polls s)) as [cp|]; cbn [option_map bind];
    reflexivity.
Qed.

Lemma create_vote_max_votes (f : Poll.t -> Z)
  (now created_at voted_at : datetime) (vote : VoteCreate.t) (s : Store) :
  create_vote now created_at voted_at vote (with_max_votes f s)
  = map_store (with_max_votes f) (create_vote now created_at voted_at vote s).
Proof.
  unfold create_vote, create_vote_interleaved.
  rewrite create_vote_checks_max_votes.
  destruct (create_vote_checks now vote s) as [[]|e]; cbn [bind].
  - unfold Vote_create, with_max_votes.
    cbn [polls candidates voters votes elections].
    rewrite (map_map_id Poll.id) by reflexivity.
    destruct (existsb _ (votes s)); [reflexivity|].
    destruct (negb _); reflexivity.
  - cbn [try_except]. destruct (except_create_vote e); reflexivity.
Qed.

Lemma create_vote_ok_inv (now created_at voted_at : datetime)
  (vote : VoteCreate.t) (s s' : Store) (r : VoteResponse.t) :
  create_vote now created_at voted_at vote s = Ok (r, s') ->
  (exists election,
     otherwise_valid vote s election
     /\ Election.start_date election <= now <= Election.end_date election)
  /\ (r, s') = commit_vote created_at voted_at vote s.
Proof.
  unfold create_vote, create_vote_interleaved. intros H.
  destruct (create_vote_checks now vote s) as [[]|e] eqn:C.
  - pose proof (create_vote_checks_ok_inv now vote s C) as Hinv.
    split; [exact Hinv|].
    destruct Hinv as [el [[poll [cand [voter [Gp [Gc [Gv [_ [Ev _]]]]]]]] _]].
    cbn [bind] in H.
    rewrite (Vote_create_after_checks s created_at voted_at vote
               poll cand voter Gp Gc Gv Ev) in H.
    cbn in H. now inversion H.
  - cbn [bind try_except] in H. destruct (except_create_vote e); discriminate.
Qed.

(** A voter with a vote row in the poll is refused with "already voted",
    whichever candidate of the poll the request names. *)
Lemma create_vote_conflict (now created_at voted_at : datetime)
  (vote : VoteCreate.t) (s : Store) (poll : Poll.t) (candidate : Candidate.t)
  (voter : Voter.t) :
  Poll_get s (VoteCreate.poll_id vote) = Ok poll ->
  Candidate_get s (VoteCreate.candidate_id vote) = Ok candidate ->
  Voter_get s (VoteCreate.voter_id vote) = Ok voter ->
  Candidate.poll_id candidate = VoteCreate.poll_id vote ->
  existsb (fun x => (Vote.poll_id x =? VoteCreate.poll_id vote)
                    && (Vote.voter_id x =? VoteCreate.voter_id vote))
          (votes s) = true ->
  create_vote now created_at voted_at vote s
  = Raise (exn_of_kind Conflict).
Proof.
  intros Gp Gc Gv Hcp Hex.
  unfold create_vote, create_vote_interleaved, create_vote_checks.
  rewrite Gp, Gc, Gv. cbn [bind]. unfold Candidate_poll.
  rewrite Hcp, Gp. cbn [bind]. rewrite Z.eqb_refl. cbn [negb].
  unfold existing_vote.
  destruct (Poll_get_cases s (VoteCreate.poll_id vote))
    as [[p [Gp' [_ Hpid]]]|Gp']; rewrite Gp' in Gp; [|discriminate].
  inversion Gp; subst p.
  unfold Voter_get in Gv.
  destruct (find _ (voters s)) as [v|] eqn:Fv; [|discriminate].
  inversion Gv; subst v.
  pose proof (find_id_some Voter.id _ _ _ Fv) as [_ Hvid].
  rewrite Hpid, Hvid. rewrite existsb_find in Hex.
  destruct (find _ (votes s)); [reflexivity | discriminate].
Qed.

(** C8. The outcome of [create_vote] does not depend on
    [max_votes_per_voter]: replacing the value in every poll changes
    neither the response nor the error, and the store only in that field.
    Once a vote has been admitted, a further request of the same voter in
    the same poll for any candidate of that poll is refused with "already
    voted", whatever [max_votes_per_voter] is made to be. *)
Theorem create_vote_ignores_max_votes :
  (forall (f : Poll.t -> Z) (now created_at voted_at : datetime)
          (vote : VoteCreate.t) (s : Store),
     create_vote now created_at voted_at vote (with_max_votes f s)
     = map_store (with_max_votes f)
                 (create_vote now created_at voted_at vote s))
  /\ (forall (f : Poll.t -> Z) (now created_at voted_at : datetime)
             (vote : VoteCreate.t) (s s' : Store) (r : VoteResponse.t)
             (now' created_at' voted_at' : datetime) (candidate_id : Z)
             (candidate : Candidate.t),
        create_vote now created_at voted_at vote s = Ok (r, s') ->
        Candidate_get s' candidate_id = Ok candidate ->
        Candidate.poll_id candidate = VoteCreate.poll_id vote ->
        create_vote now' created_at' voted_at'
          {| VoteCreate.poll_id := VoteCreate.poll_id vote;
             VoteCreate.candidate_id := candidate_id;
             VoteCreate.voter_id := VoteCreate.voter_id vote |}
          (with_max_votes f s')
        = Raise (exn_of_kind Conflict)).
Proof.
  split; [exact create_vote_max_votes|].
  intros f now created_at voted_at vote s s' r now' created_at' voted_at'
    candidate_id candidate H Gc Hcp.
  rewrite create_vote_max_votes.
  apply create_vote_ok_inv in H. destruct H as [[el [Hvalid _]] Hs'].
  destruct Hvalid as [poll [cand [voter [Gp [_ [Gv _]]]]]].
  unfold commit_vote in Hs'. injection Hs' as Hr Hst.
  rewrite (create_vote_conflict now' created_at' voted_at' _ s' poll
             candidate voter).
  - reflexivity.
  - rewrite Hst. exact Gp.
  - exact Gc.
  - rewrite Hst. exact Gv.
  - exact Hcp.
  - rewrite Hst. cbn [votes VoteCreate.poll_id VoteCreate.voter_id].
    rewrite existsb_app. cbn [existsb Vote.poll_id Vote.voter_id].
    rewrite !Z.eqb_refl. cbn. apply orb_true_r.
Qed.

(** The scenario of the specification, with [max_votes_per_voter] raised to
    1000 after the first vote. *)
Lemma create_vote_ignores_max_votes_witness :
  create_vote 50 50 50 (a_vote 1 1 1) store_setup
  = Ok (commit_vote 50 50 (a_vote 1 1 1) store_setup)
  /\ create_vote 60 60 60 (a_vote 1 2 1)
       (with_max_votes (fun _ => 1000)
          (snd (commit_vote 50 50 (a_vote 1 1 1) store_setup)))
     = Raise (exn_of_kind Conflict)
  /\ create_vote 70 70 70 (a_vote 1 1 1)
       (with_max_votes (fun _ => 1000)
          (snd (commit_vote 50 50 (a_vote 1 1 1) store_setup)))
     = Raise (exn_of_kind Conflict).
Proof.
  assert (create_vote 50 50 50 (a_vote 1 1 1) store_setup
          = Ok (commit_vote 50 50 (a_vote 1 1 1) store_setup)) as E
    by (vm_compute; reflexivity).
  split; [exact E|].
  destruct create_vote_ignores_max_votes as [_ H].
  split.
  - eapply (H (fun _ => 1000) 50 50 50 (a_vote 1 1 1) store_setup _ _
              60 60 60 2).
    + exact E.
    + vm_compute. reflexivity.
    + reflexivity.
  - eapply (H (fun _ => 1000) 50 50 50 (a_vote 1 1 1) store_setup _ _
              70 70 70 1).
    + exact E.
    + vm_compute. reflexivity.
    + reflexivity.
Defined.

(* ================================================================== *)
(** * A uniqueness violation at the insert *)
(* ================================================================== *)

(** When the insert of a request that has passed its checks meets a store
    in which the voter has a vote in the poll, [create_vote] lets the
    [IntegrityError] of the insert through: none of its [except] clauses
    is for it. *)
Lemma create_vote_commit_violation (now created_at voted_at : datetime)
  (vote : VoteCreate.t) (s s_commit : Store) :
  create_vote_checks now vote s = Ok tt ->
  existsb (fun x => (Vote.poll_id x =? VoteCreate.poll_id vote)
                    && (Vote.voter_id x =? VoteCreate.voter_id vote))
          (votes s_commit) = true ->
  create_vote_interleaved now created_at voted_at vote s s_commit
  = Raise (IntegrityError unique_vote).
Proof.
  intros Hchecks Hex. unfold create_vote_interleaved, Vote_create.
  rewrite Hchecks, Hex. reflexivity.
Qed.

(** The sibling [create_voter] does translate the uniqueness violation of
    its insert into a 400. *)
Lemma create_voter_email_taken (now : datetime) (voter : VoterCreate.t)
  (s : Store) :
  existsb (fun v => String.eqb (Voter.email v) (VoterCreate.email voter))
          (voters s) = true ->
  create_voter now voter s = Raise (HTTPException 400 detail_email_taken).
Proof.
  intros H. unfold create_voter, Voter_create. rewrite H. reflexivity.
Qed.

(** C1 fails on the code. Two requests of V1 in P1: the second has passed
    its checks (the pre-check of step 5 included) on the store before the
    first one commits, and its insert hits the unique index on
    (poll, voter). [create_vote] ends with the [IntegrityError] of peewee,
    which is not the error of a Conflict, nor of any other kind. *)
Theorem racing_vote_unclassified :
  create_vote_checks 50 (a_vote 1 2 1) store_setup = Ok tt
  /\ existing_vote store_voted poll_P1
       {| Voter.id := 1; Voter.created_at := 5;
          Voter.email := "v1@university.edu"; Voter.name := "V";
          Voter.is_verified := true |} <> None
  /\ racing_vote = Raise (IntegrityError unique_vote)
  /\ racing_vote <> Raise (exn_of_kind Conflict)
  /\ forall k, racing_vote <> Raise (exn_of_kind k).
Proof.
  split; [vm_compute; reflexivity|].
  split; [vm_compute; discriminate|].
  assert (racing_vote = Raise (IntegrityError unique_vote)) as E
    by (vm_compute; reflexivity).
  split; [exact E|]. rewrite E.
  split; [|intros k; destruct k as [[]| | |[]]]; cbn; discriminate.
Qed.

(* ================================================================== *)
(** * The dates of an election *)
(* ================================================================== *)

(** The elections after a request are elections from before it, or have
    their start before their end. *)
Lemma handle_elections (s : Store) (r : request) (e : Election.t) :
  In e (elections (handle s r)) ->
  In e (elections s) \/ Election.start_date e < Election.end_date e.
Proof.
  destruct r; cbn [handle].
  - (* POST /elections/ *)
    unfold create_election, Election_create.
    destruct (Z.geb_spec (ElectionCreate.start_date election)
                         (ElectionCreate.end_date election)) as [Hge|Hlt];
      cbn [store_after elections]; [tauto|].
    intros H. apply in_app_or in H. destruct H as [H|[<-|[]]]; [tauto|].
    right. exact Hlt.
  - (* PUT /elections/{id} *)
    unfold update_election.
    destruct (Election_get s election_id) as [old|x];
      cbn [bind try_except store_after].
    + destruct (Z.geb_spec (ElectionCreate.start_date election)
                           (ElectionCreate.end_date election)) as [Hge|Hlt];
        cbn [try_except store_after Election_save elections]; [tauto|].
      intros H. apply in_map_iff in H. destruct H as [y [Hy Hin]].
      destruct (Election.id y =? _); subst e; [right; exact Hlt | tauto].
    + destruct (except_DoesNotExist _ _ x); cbn; tauto.
  - (* DELETE /elections/{id} *)
    unfold delete_election.
    destruct (Election_get s election_id) as [old|x];
      cbn [bind try_except store_after].
    + cbn. intros H. apply filter_In in H. tauto.
    + destruct (except_DoesNotExist _ _ x); cbn; tauto.
  - unfold create_poll, Poll_create.
    destruct (Election_get s _) as [?|x]; cbn [bind try_except].
    + destruct (negb _); cbn; tauto.
    + destruct (except_DoesNotExist _ _ x); cbn; tauto.
  - unfold update_poll, Poll_save.
    destruct (Poll_get s _) as [?|x]; cbn [bind try_except].
    + destruct (Election_get s _) as [?|x]; cbn [bind try_except].
      * destruct (negb _); cbn; tauto.
      * destruct (orelse _ _ x); cbn; tauto.
    + destruct (orelse _ _ x); cbn; tauto.
  - unfold delete_poll.
    destruct (Poll_get s _) as [?|x]; cbn [bind try_except].
    + cbn. tauto.
    + destruct (except_DoesNotExist _ _ x); cbn; tauto.
  - unfold create_candidate, Candidate_create.
    destruct (Poll_get s _) as [?|x]; cbn [bind try_except].
    + destruct (existsb _ _); [cbn; tauto|].
      destruct (negb _); cbn; tauto.
    + destruct (except_DoesNotExist _ _ x); cbn; tauto.
  - unfold update_candidate, Candidate_save.
    destruct (Candidate_get s _) as [?|x]; cbn [bind try_except].
    + destruct (Poll_get s _) as [?|x]; cbn [bind try_except].
      * destruct (existsb _ _); [cbn; tauto|].
        destruct (negb _); cbn; tauto.
      * destruct (orelse _ _ x); cbn; tauto.
    + destruct (orelse _ _ x); cbn; tauto.
  - unfold delete_candidate.
    destruct (Candidate_get s _) as [?|x]; cbn [bind try_except].
    + cbn. tauto.
    + destruct (except_DoesNotExist _ _ x); cbn; tauto.
  - unfold create_voter, Voter_create.
    destruct (existsb _ _); cbn; tauto.
  - unfold update_voter, Voter_save.
    destruct (Voter_get s _) as [?|x]; cbn [bind try_except].
    + destruct (existsb _ _); cbn; tauto.
    + destruct (orelse _ _ x); cbn; tauto.
  - unfold delete_voter.
    destruct (Voter_get s _) as [?|x]; cbn [bind try_except].
    + cbn. tauto.
    + destruct (except_DoesNotExist _ _ x); cbn; tauto.
  - destruct (create_vote now created_at voted_at vote s) as [[r s']|x] eqn:E;
      cbn [store_after]; [|tauto].
    apply create_vote_ok_inv in E. destruct E as [_ E].
    unfold commit_vote in E. injection E as _ ->. cbn. tauto.
Qed.

Lemma reachable_election_dates (s : Store) :
  reachable s -> election_dates_ok s.
Proof.
  intros [rs ->]. unfold run.
  induction rs as [|r rs IH] using rev_ind.
  - intros e [].
  - rewrite fold_left_app. cbn [fold_left]. intros e He.
    apply handle_elections in He. destruct He as [He|He]; [|exact He].
    now apply IH.
Qed.

(** C9. [create_election] and [update_election] raise when
    [start_date >= end_date], and the store stays as it was; with
    [start_date < end_date] the election is stored ([update_election]
    asking for the election to exist). So the start of every election of a
    store the server can get into is before its end. *)
Theorem election_dates_checked :
  (forall now election s,
     ElectionCreate.start_date election >= ElectionCreate.end_date election ->
     create_election now election s
     = Raise (HTTPException 400 detail_bad_dates)
     /\ handle s (POST_elections now election) = s)
  /\ (forall election_id election s,
        ElectionCreate.start_date election
        >= ElectionCreate.end_date election ->
        (update_election election_id election s
         = Raise (HTTPException 400 detail_bad_dates)
         \/ update_election election_id election s
            = Raise (HTTPException 404 detail_election_not_found))
        /\ handle s (PUT_elections election_id election) = s)
  /\ (forall now election s,
        ElectionCreate.start_date election
        < ElectionCreate.end_date election ->
        exists row s',
          create_election now election s = Ok (row, s')
          /\ elections s' = elections s ++ [row]
          /\ Election.start_date row = ElectionCreate.start_date election
          /\ Election.end_date row = ElectionCreate.end_date election)
  /\ (forall election_id election s,
        ElectionCreate.start_date election
        < ElectionCreate.end_date election ->
        In election_id (map Election.id (elections s)) ->
        exists row s',
          update_election election_id election s = Ok (row, s')
          /\ In row (elections s')
          /\ Election.id row = election_id
          /\ Election.start_date row = ElectionCreate.start_date election
          /\ Election.end_date row = ElectionCreate.end_date election)
  /\ (forall s, reachable s -> election_dates_ok s).
Proof.
  split; [|split; [|split; [|split]]].
  - intros now election s H. unfold handle, create_election.
    destruct (Z.geb_spec (ElectionCreate.start_date election)
                         (ElectionCreate.end_date election)); [|lia].
    split; reflexivity.
  - intros election_id election s H. unfold handle, update_election.
    destruct (Election_get_cases s election_id) as [[e [G _]]|G]; rewrite G;
      cbn [bind].
    + destruct (Z.geb_spec (ElectionCreate.start_date election)
                           (ElectionCreate.end_date election)); [|lia].
      split; [left|]; reflexivity.
    + split; [right|]; reflexivity.
  - intros now election s H. unfold create_election.
    destruct (Z.geb_spec (ElectionCreate.start_date election)
                         (ElectionCreate.end_date election)); [lia|].
    unfold Election_create. do 2 eexists. repeat split.
  - intros election_id election s H Hin.
    apply mem_true_iff in Hin.
    destruct (find_id_mem Election.id _ _ Hin) as [old F].
    pose proof (find_id_some Election.id _ _ _ F) as [Hold Hid].
    unfold update_election, Election_get. rewrite F. cbn [bind].
    destruct (Z.geb_spec (ElectionCreate.start_date election)
                         (ElectionCreate.end_date election)); [lia|].
    cbn [try_except]. do 2 eexists. split; [reflexivity|].
    cbn [Election_save elections Election.id Election.start_date
         Election.end_date].
    repeat split; try assumption.
    apply in_map_iff. exists old. split; [|exact Hold].
    now rewrite Z.eqb_refl.
  - exact reachable_election_dates.
Qed.

Lemma election_dates_checked_witness :
  create_election 0 an_empty_election empty_store
  = Raise (HTTPException 400 detail_bad_dates)
  /\ handle store_setup (PUT_elections 1 an_empty_election) = store_setup
  /\ (exists row s',
        update_election 1 an_election store_setup = Ok (row, s')
        /\ In row (elections s')
        /\ Election.id row = 1
        /\ Election.start_date row = 10
        /\ Election.end_date row = 100)
  /\ election_dates_ok store_moved.
Proof.
  destruct election_dates_checked as [H1 [H2 [_ [H4 H5]]]].
  split; [|split; [|split]].
  - apply (H1 0 an_empty_election empty_store). cbn. discriminate.
  - apply (H2 1 an_empty_election store_setup). cbn. discriminate.
  - apply (H4 1 an_election store_setup).
    + reflexivity.
    + vm_compute. left. reflexivity.
  - apply (H5 store_moved). exact reachable_store_moved.
Defined.

(* ================================================================== *)
(** * The percentage *)
(* ================================================================== *)

Lemma round_half_even_nearest (n d : Z) :
  0 < d -> nearest_even n d (round_half_even n d).
Proof.
  intros Hd. unfold nearest_even, round_half_even.
  pose proof (Z_div_mod n d ltac:(lia)) as Hdm.
  destruct (Z.div_eucl n d) as [q r]. destruct Hdm as [Hn Hr].
  destruct (Z.compare_spec (2 * r) d) as [Heq|Hlt|Hgt].
  - destruct (Z.even q) eqn:Ev.
    + split; [lia | intros _; exact Ev].
    + split; [lia|]. intros _. rewrite Z.even_add, Ev. reflexivity.
  - split; [lia | lia].
  - split; [lia | lia].
Qed.

Lemma fraction_denominator_pos (m : positive) (e : Z) :
  0 < snd (fraction m e).
Proof.
  unfold fraction. destruct (Z.geb_spec e 0); cbn [snd]; [lia|].
  apply Z.pow_pos_nonneg; lia.
Qed.

(** [round(x, 2)] keeps the hundredths nearest to [x], the even one when
    [x] lies half way between two. *)
Lemma hundredths_nearest_even (m : positive) (e : Z) :
  nearest_even (100 * fst (fraction m e)) (snd (fraction m e))
               (hundredths m e).
Proof.
  pose proof (fraction_denominator_pos m e) as Hd. unfold hundredths.
  destruct (fraction m e) as [n d]. cbn [fst snd] in *.
  now apply round_half_even_nearest.
Qed.

(** The percentages that CPython computes, [round(v / n * 100, 2)], for
    some [v] and [n]: 33.33, 66.67, 50.0, 14.29, and the halves 3.125,
    96.875, 0.125 and 0.375, which become 3.12, 96.88, 0.12 and 0.38. *)
Example reported_percentage_values :
  map (fun '(v, n) => reported_percentage v n)
      [ (1, 3); (2, 3); (3, 6); (1, 7); (1, 32); (31, 32); (1, 800);
        (3, 800) ]
  = map PyFloat
      [ S754_finite false 4690780486883082 (-47);
        S754_finite false 4691484174324859 (-46);
        S754_finite false 7036874417766400 (-47);
        S754_finite false 8044554834390548 (-49);
        S754_finite false 7025615418697974 (-51);
        S754_finite false 6817323935932088 (-46);
        S754_finite false 8646911284551352 (-56);
        S754_finite false 6845471433603154 (-54) ].
Proof. vm_compute. reflexivity. Qed.

(** C5, as the code has it. The percentage of every entry is 0 when the
    poll has no vote rows, and otherwise the binary64 value of
    [votes / n * 100], [n] being the number of vote rows of the poll (the
    [unique_voters] of the response, and its [total_votes] in every store
    in which the candidate of each vote belongs to the poll of the vote),
    rounded to the nearest hundredth, a half going to the even hundredth. *)
Theorem poll_results_percentage (s : Store) (poll_id : Z)
  (r : PollResults.t) :
  get_poll_results poll_id s = Ok r ->
  (forall e, In e (PollResults.results r) ->
     ResultEntry.percentage e
     = reported_percentage (ResultEntry.votes e)
                           (PollResults.unique_voters r))
  /\ (PollResults.unique_voters r = 0 ->
      Forall (fun e => ResultEntry.percentage e = PyInt 0)
             (PollResults.results r))
  /\ (NoDup (map Candidate.id (candidates s)) ->
      admission_invariant s ->
      forall e, In e (PollResults.results r) ->
        ResultEntry.percentage e
        = reported_percentage (ResultEntry.votes e)
                              (PollResults.total_votes r))
  /\ (forall sign m e,
        float_round2 (S754_finite sign m e)
        = float_of_hundredths sign (hundredths m e)
        /\ nearest_even (100 * fst (fraction m e)) (snd (fraction m e))
                        (hundredths m e)).
Proof.
  intros H. apply get_poll_results_inv in H.
  destruct H as [poll [_ [_ [_ ->]]]].
  cbn [poll_results_of PollResults.results PollResults.unique_voters
       PollResults.total_votes].
  assert (forall e,
            In e (list_sort ResultEntry.votes true
                    (map (entry_of s poll) (Poll_candidates s poll))) ->
            ResultEntry.percentage e
            = reported_percentage (ResultEntry.votes e) (votes_of_poll s poll))
    as Hentries.
  { intros e He.
    apply (Permutation_in _ (list_sort_perm ResultEntry.votes true _)) in He.
    apply in_map_iff in He. destruct He as [c [<- _]]. reflexivity. }
  split; [exact Hentries|]. split; [|split].
  - intros Hzero. apply Forall_forall. intros e He.
    rewrite (Hentries e He), Hzero. reflexivity.
  - intros Hnd Hinv e He.
    rewrite (votes_of_candidates_of_poll s poll Hnd Hinv).
    now apply Hentries.
  - intros sign m e. split; [reflexivity | apply hundredths_nearest_even].
Qed.

Lemma reachable_store_tie : reachable store_tie.
Proof.
  unfold store_tie, store_setup. repeat apply reachable_run. now exists [].
Qed.

Lemma poll_results_percentage_witness :
  get_poll_results 1 store_tie = Ok (poll_results_of store_tie poll_P1)
  /\ votes_and_percentages (poll_results_of store_tie poll_P1)
     = [ (31, reported_percentage 31 32); (1, reported_percentage 1 32) ]
  /\ forall e,
       In e (PollResults.results (poll_results_of store_tie poll_P1)) ->
       ResultEntry.percentage e
       = reported_percentage
           (ResultEntry.votes e)
           (PollResults.unique_voters (poll_results_of store_tie poll_P1)).
Proof.
  assert (get_poll_results 1 store_tie
          = Ok (poll_results_of store_tie poll_P1)) as E
    by (vm_compute; reflexivity).
  split; [exact E|]. split; [vm_compute; reflexivity|].
  exact (proj1 (poll_results_percentage store_tie 1 _ E)).
Defined.

(** C5, as the claim has it, fails: with 32 votes in the poll, the
    candidate with one vote has 3.125 per cent, a half; the results report
    the float of 3.12, the even neighbour, where rounding away from zero
    gives 3.13. *)
Lemma poll_results_percentage_counterexample :
  reachable store_tie
  /\ match get_poll_results 1 store_tie with
     | Ok r =>
         PollResults.total_votes r = 32
         /\ votes_and_percentages r
            = [ (31, PyFloat (float_of_hundredths false 9688));
                (1, PyFloat (float_of_hundredths false 312)) ]
     | Raise _ => False
     end
  /\ percentage_spec 1 32 = PyFloat (float_of_hundredths false 313)
  /\ PyFloat (float_of_hundredths false 312) <> percentage_spec 1 32.
Proof.
  split; [exact reachable_store_tie|].
  split; [vm_compute; split; reflexivity|].
  split; [vm_compute; reflexivity|].
  vm_compute. discriminate.
Qed.

(* ================================================================== *)
(** * The constraints hold in every store the server gets into *)
(* ================================================================== *)

Lemma le_max_ids (ids : list Z) (x : Z) :
  In x ids -> x <= fold_right Z.max 0 ids.
Proof.
  induction ids as [|y ids IH]; cbn; [contradiction|].
  intros [->|H]; [lia | specialize (IH H); lia].
Qed.

Lemma next_id_fresh (ids : list Z) : ~ In (next_id ids) ids.
Proof.
  intros H. apply le_max_ids in H. unfold next_id in H. lia.
Qed.

Section Tables.
Context {A : Type}.
Variable id : A -> Z.

Lemma NoDup_insert (rows : list A) (row : A) :
  id row = next_id (map id rows) ->
  NoDup (map id rows) -> NoDup (map id (rows ++ [row])).
Proof.
  intros Hid Hnd. rewrite map_app. cbn [map].
  apply NoDup_app.
  - exact Hnd.
  - constructor; [intros [] | constructor].
  - intros x Hx [<-|[]]. rewrite Hid in Hx. now apply next_id_fresh in Hx.
Qed.

Lemma ids_after_save (rows : list A) (row : A) :
  map id (map (fun x => if id x =? id row then row else x) rows)
  = map id rows.
Proof.
  rewrite map_map. apply map_ext. intros x.
  destruct (Z.eqb_spec (id x) (id row)); congruence.
Qed.

Lemma NoDup_save (rows : list A) (row : A) :
  NoDup (map id rows) ->
  NoDup (map id (map (fun x => if id x =? id row then row else x) rows)).
Proof. now rewrite ids_after_save. Qed.

End Tables.

Section References.
Context {A B : Type}.
Variable fk : A -> Z.
Variable id : B -> Z.

Lemma references_insert_target (rows : list A) (targets : list B) (t : B) :
  references fk id rows targets -> references fk id rows (targets ++ [t]).
Proof.
  intros H x Hx. specialize (H x Hx). apply mem_true_iff.
  apply mem_true_iff in H. rewrite map_app. apply in_or_app. now left.
Qed.

Lemma references_insert_row (rows : list A) (targets : list B) (x : A) :
  references fk id rows targets ->
  mem (fk x) (map id targets) = true ->
  references fk id (rows ++ [x]) targets.
Proof.
  intros H Hx y Hy. apply in_app_or in Hy.
  destruct Hy as [Hy|[<-|[]]]; [now apply H | exact Hx].
Qed.

Lemma references_ids (rows : list A) (targets targets' : list B) :
  map id targets' = map id targets ->
  references fk id rows targets -> references fk id rows targets'.
Proof. intros E H x Hx. rewrite E. now apply H. Qed.

Lemma references_save_row (rid : A -> Z) (rows : list A) (targets : list B)
  (row : A) :
  references fk id rows targets ->
  mem (fk row) (map id targets) = true ->
  references fk id
    (map (fun x => if rid x =? rid row then row else x) rows) targets.
Proof.
  intros H Hrow y Hy. apply in_map_iff in Hy. destruct Hy as [x [<- Hx]].
  destruct (rid x =? rid row); [exact Hrow | now apply H].
Qed.

(** Deleting rows and targets keeps the references when the target of
    every row that stays also stays. *)
Lemma references_delete (rows : list A) (targets : list B)
  (keep_row : A -> bool) (keep : B -> bool) :
  references fk id rows targets ->
  (forall x t, In x rows -> keep_row x = true -> In t targets ->
               id t = fk x -> keep t = true) ->
  references fk id (filter keep_row rows) (filter keep targets).
Proof.
  intros H Hkeep x Hx. apply filter_In in Hx. destruct Hx as [Hx Hk].
  specialize (H x Hx). apply mem_true_iff. apply mem_true_iff in H.
  apply in_map_iff in H. destruct H as [t [Ht Hin]].
  apply in_map_iff. exists t. split; [exact Ht|].
  apply filter_In. split; [exact Hin|]. now apply (Hkeep x).
Qed.

Lemma references_delete_rows (rows : list A) (targets : list B)
  (keep_row : A -> bool) :
  references fk id rows targets ->
  references fk id (filter keep_row rows) targets.
Proof.
  intros H x Hx. apply filter_In in Hx. now apply H.
Qed.

End References.

Lemma dead_in_gone {A} (id : A -> Z) (dead : A -> bool) (rows : list A)
  (t : A) :
  In t rows -> dead t = true ->
  mem (id t) (map id (filter dead rows)) = true.
Proof.
  intros Hin Hd. apply mem_true_iff, in_map. apply filter_In. now split.
Qed.

Lemma delete_votes_where_ok (dead : Vote.t -> bool) (s : Store) :
  constraints_ok s -> constraints_ok (delete_votes_where dead s).
Proof.
  intros [[Pe [Pp [Pc [Pv Px]]]] [Fp [Fc [Fxp [Fxc Fxv]]]]].
  unfold delete_votes_where.
  split; [repeat split | repeat split]; cbn; try assumption.
  - now apply NoDup_map_filter.
  - now apply references_delete_rows.
  - now apply references_delete_rows.
  - now apply references_delete_rows.
Qed.

Lemma delete_candidates_where_ok (dead : Candidate.t -> bool) (s : Store) :
  constraints_ok s -> constraints_ok (delete_candidates_where dead s).
Proof.
  intros [[Pe [Pp [Pc [Pv Px]]]] [Fp [Fc [Fxp [Fxc Fxv]]]]].
  unfold delete_candidates_where, delete_votes_where.
  split; [repeat split | repeat split]; cbn; try assumption.
  - now apply NoDup_map_filter.
  - now apply NoDup_map_filter.
  - now apply references_delete_rows.
  - now apply references_delete_rows.
  - apply references_delete; [exact Fxc|].
    intros v c Hv Hkeep Hc Hid.
    destruct (dead c) eqn:D; [|reflexivity].
    rewrite <- Hid, (dead_in_gone Candidate.id dead _ c Hc D) in Hkeep.
    discriminate.
  - now apply references_delete_rows.
Qed.

Lemma delete_polls_where_ok (dead : Poll.t -> bool) (s : Store) :
  constraints_ok s -> constraints_ok (delete_polls_where dead s).
Proof.
  intros Hs. unfold delete_polls_where.
  set (gone := map Poll.id (filter dead (polls s))).
  set (s1 := delete_votes_where (fun v => mem (Vote.poll_id v) gone) s).
  set (s2 := delete_candidates_where
               (fun c => mem (Candidate.poll_id c) gone) s1).
  assert (constraints_ok s2) as H2
    by (apply delete_candidates_where_ok, delete_votes_where_ok, Hs).
  destruct H2 as [[Pe [Pp [Pc [Pv Px]]]] [Fp [Fc [Fxp [Fxc Fxv]]]]].
  split; [repeat split | repeat split]; cbn [elections polls candidates
    voters votes]; try assumption.
  - now apply NoDup_map_filter.
  - now apply references_delete_rows.
  - (* the candidates that stay are not in a deleted poll *)
    intros c Hc. pose proof (Fc c Hc) as Hp.
    apply mem_true_iff, in_map_iff in Hp. destruct Hp as [p [Hid Hp]].
    apply mem_true_iff, in_map_iff. exists p. split; [exact Hid|].
    apply filter_In. split; [exact Hp|].
    destruct (dead p) eqn:D; [|reflexivity].
    subst s2. unfold delete_candidates_where in Hc, Hp.
    cbn [candidates polls] in Hc, Hp. apply filter_In in Hc.
    destruct Hc as [_ Hc]. subst s1. cbn [polls delete_votes_where] in Hp.
    rewrite <- Hid in Hc.
    unfold gone in Hc. rewrite (dead_in_gone Poll.id dead _ p Hp D) in Hc.
    discriminate.
  - (* the votes that stay are not in a deleted poll *)
    intros v Hv. pose proof (Fxp v Hv) as Hp.
    apply mem_true_iff, in_map_iff in Hp. destruct Hp as [p [Hid Hp]].
    apply mem_true_iff, in_map_iff. exists p. split; [exact Hid|].
    apply filter_In. split; [exact Hp|].
    destruct (dead p) eqn:D; [|reflexivity].
    subst s2. unfold delete_candidates_where, delete_votes_where in Hv, Hp.
    cbn [votes polls] in Hv, Hp. apply filter_In in Hv.
    destruct Hv as [Hv _]. subst s1. unfold delete_votes_where in Hv, Hp.
    cbn [votes polls] in Hv, Hp. apply filter_In in Hv. destruct Hv as [_ Hv].
    rewrite <- Hid in Hv.
    unfold gone in Hv. rewrite (dead_in_gone Poll.id dead _ p Hp D) in Hv.
    discriminate.
Qed.

Lemma Election_delete_instance_ok (s : Store) (e : Election.t) :
  constraints_ok s -> constraints_ok (Election_delete_instance s e).
Proof.
  intros Hs. unfold Election_delete_instance.
  set (dead := fun p => Poll.election_id p =? Election.id e).
  pose proof (delete_polls_where_ok dead s Hs) as H1.
  assert (forall p, In p (polls (delete_polls_where dead s)) ->
                    dead p = false) as Hlive.
  { intros p Hp. unfold delete_polls_where in Hp. cbn [polls] in Hp.
    apply filter_In in Hp. destruct Hp as [_ Hp].
    now destruct (dead p). }
  destruct H1 as [[Pe [Pp [Pc [Pv Px]]]] [Fp [Fc [Fxp [Fxc Fxv]]]]].
  split; [repeat split | repeat split]; cbn [elections polls candidates
    voters votes]; try assumption.
  - now apply NoDup_map_filter.
  - intros p Hp. pose proof (Fp p Hp) as He.
    apply mem_true_iff, in_map_iff in He. destruct He as [el [Hid Hel]].
    apply mem_true_iff, in_map_iff. exists el. split; [exact Hid|].
    apply filter_In. split; [exact Hel|].
    specialize (Hlive p Hp). unfold dead in Hlive. rewrite Hid.
    now rewrite Hlive.
Qed.

Lemma Voter_delete_instance_ok (s : Store) (v : Voter.t) :
  constraints_ok s -> constraints_ok (Voter_delete_instance s v).
Proof.
  intros [[Pe [Pp [Pc [Pv Px]]]] [Fp [Fc [Fxp [Fxc Fxv]]]]].
  unfold Voter_delete_instance, delete_votes_where.
  split; [repeat split | repeat split]; cbn [elections polls candidates
    voters votes]; try assumption.
  - now apply NoDup_map_filter.
  - now apply NoDup_map_filter.
  - now apply references_delete_rows.
  - now apply references_delete_rows.
  - apply references_delete; [exact Fxv|].
    intros x t _ Hkeep _ Hid. now rewrite Hid.
Qed.

Lemma Election_get_mem (s : Store) (pk : Z) (e : Election.t) :
  Election_get s pk = Ok e -> mem pk (map Election.id (elections s)) = true.
Proof.
  unfold Election_get. destruct (find _ (elections s)) eqn:F; [|discriminate].
  intros _. now apply (mem_find_id Election.id _ _ _ F).
Qed.

Lemma Poll_get_mem (s : Store) (pk : Z) (p : Poll.t) :
  Poll_get s pk = Ok p -> mem pk (map Poll.id (polls s)) = true.
Proof.
  unfold Poll_get. destruct (find _ (polls s)) eqn:F; [|discriminate].
  intros _. now apply (mem_find_id Poll.id _ _ _ F).
Qed.

(** Every writing request keeps the constraints. *)
Lemma handle_constraints (s : Store) (r : request) :
  constraints_ok s -> constraints_ok (handle s r).
Proof.
  intros Hs.
  pose proof Hs as [[Pe [Pp [Pc [Pv Px]]]] [Fp [Fc [Fxp [Fxc Fxv]]]]].
  destruct r; cbn [handle].
  - (* POST /elections/ *)
    unfold create_election, Election_create.
    destruct (_ >=? _); cbn [store_after]; [exact Hs|].
    split; [repeat split | repeat split]; cbn [elections polls candidates
      voters votes]; try assumption.
    + now apply NoDup_insert.
    + now apply references_insert_target.
  - (* PUT /elections/{id} *)
    unfold update_election.
    destruct (Election_get s election_id) as [old|x];
      cbn [bind try_except store_after].
    + destruct (_ >=? _); cbn [try_except store_after]; [exact Hs|].
      unfold Election_save.
      split; [repeat split | repeat split]; cbn [elections polls candidates
        voters votes]; try assumption.
      * now apply NoDup_save.
      * eapply references_ids; [apply ids_after_save | exact Fp].
    + destruct (except_DoesNotExist _ _ x); exact Hs.
  - (* DELETE /elections/{id} *)
    unfold delete_election.
    destruct (Election_get s election_id) as [old|x];
      cbn [bind try_except store_after].
    + now apply Election_delete_instance_ok.
    + destruct (except_DoesNotExist _ _ x); exact Hs.
  - (* POST /polls/ *)
    unfold create_poll, Poll_create.
    destruct (Election_get s _) as [?|x]; cbn [bind try_except].
    + destruct (mem _ _) eqn:M; cbn [negb try_except store_after];
        [|exact Hs].
      split; [repeat split | repeat split]; cbn [elections polls candidates
        voters votes]; try assumption.
      * now apply NoDup_insert.
      * now apply references_insert_row.
      * now apply references_insert_target.
      * now apply references_insert_target.
    + destruct (except_DoesNotExist _ _ x); exact Hs.
  - (* PUT /polls/{id} *)
    unfold update_poll, Poll_save.
    destruct (Poll_get s _) as [?|x]; cbn [bind try_except].
    + destruct (Election_get s _) as [?|x]; cbn [bind try_except].
      * cbn [Poll.election_id].
        destruct (mem _ _) eqn:M; cbn [negb bind try_except store_after];
          [|exact Hs].
        split; [repeat split | repeat split]; cbn [elections polls candidates
          voters votes]; try assumption.
        -- now apply NoDup_save.
        -- now apply (references_save_row Poll.election_id Election.id
                        Poll.id).
        -- eapply references_ids; [apply ids_after_save | exact Fc].
        -- eapply references_ids; [apply ids_after_save | exact Fxp].
      * destruct (orelse _ _ x); exact Hs.
    + destruct (orelse _ _ x); exact Hs.
  - (* DELETE /polls/{id} *)
    unfold delete_poll.
    destruct (Poll_get s _) as [?|x]; cbn [bind try_except store_after].
    + now apply delete_polls_where_ok.
    + destruct (except_DoesNotExist _ _ x); exact Hs.
  - (* POST /candidates/ *)
    unfold create_candidate, Candidate_create.
    destruct (Poll_get s _) as [?|x]; cbn [bind try_except].
    + destruct (existsb _ _); cbn [try_except store_after]; [exact Hs|].
      destruct (mem _ _) eqn:M; cbn [negb try_except store_after];
        [|exact Hs].
      split; [repeat split | repeat split]; cbn [elections polls candidates
        voters votes]; try assumption.
      * now apply NoDup_insert.
      * now apply references_insert_row.
      * now apply references_insert_target.
    + destruct (except_DoesNotExist _ _ x); exact Hs.
  - (* PUT /candidates/{id} *)
    unfold update_candidate, Candidate_save.
    destruct (Candidate_get s _) as [?|x]; cbn [bind try_except].
    + destruct (Poll_get s _) as [?|x]; cbn [bind try_except].
      * destruct (existsb _ _); cbn [bind try_except store_after];
          [exact Hs|].
        cbn [Candidate.poll_id].
        destruct (mem _ _) eqn:M; cbn [negb bind try_except store_after];
          [|exact Hs].
        split; [repeat split | repeat split]; cbn [elections polls candidates
          voters votes]; try assumption.
        -- now apply NoDup_save.
        -- now apply (references_save_row Candidate.poll_id Poll.id
                        Candidate.id).
        -- eapply references_ids; [apply ids_after_save | exact Fxc].
      * destruct (orelse _ _ x); exact Hs.
    + destruct (orelse _ _ x); exact Hs.
  - (* DELETE /candidates/{id} *)
    unfold delete_candidate.
    destruct (Candidate_get s _) as [?|x]; cbn [bind try_except store_after].
    + now apply delete_candidates_where_ok.
    + destruct (except_DoesNotExist _ _ x); exact Hs.
  - (* POST /voters/ *)
    unfold create_voter, Voter_create.
    destruct (existsb _ _); cbn [try_except store_after].
    + destruct (except_Exception_voter _ _); exact Hs.
    + split; [repeat split | repeat split]; cbn [elections polls candidates
        voters votes]; try assumption.
      * now apply NoDup_insert.
      * now apply references_insert_target.
  - (* PUT /voters/{id} *)
    unfold update_voter, Voter_save.
    destruct (Voter_get s _) as [?|x]; cbn [bind try_except].
    + destruct (existsb _ _); cbn [bind try_except store_after].
      * destruct (orelse _ _ _); exact Hs.
      * split; [repeat split | repeat split]; cbn [elections polls candidates
          voters votes]; try assumption.
        -- now apply NoDup_save.
        -- eapply references_ids; [apply ids_after_save | exact Fxv].
    + destruct (orelse _ _ x); exact Hs.
  - (* DELETE /voters/{id} *)
    unfold delete_voter.
    destruct (Voter_get s _) as [?|x]; cbn [bind try_except store_after].
    + now apply Voter_delete_instance_ok.
    + destruct (except_DoesNotExist _ _ x); exact Hs.
  - (* POST /votes/ *)
    destruct (create_vote now created_at voted_at vote s) as [[r s']|x] eqn:E;
      cbn [store_after]; [|exact Hs].
    apply create_vote_ok_inv in E. destruct E as [[el [Hvalid _]] E].
    destruct Hvalid as [poll [cand [voter [Gp [Gc [Gv _]]]]]].
    unfold commit_vote in E. injection E as _ ->.
    split; [repeat split | repeat split]; cbn [elections polls candidates
      voters votes]; try assumption.
    + now apply NoDup_insert.
    + apply references_insert_row; [exact Fxp|].
      apply (Poll_get_mem _ _ _ Gp).
    + apply references_insert_row; [exact Fxc|].
      unfold Candidate_get in Gc.
      destruct (find _ (candidates s)) eqn:F; [|discriminate].
      apply (mem_find_id Candidate.id _ _ _ F).
    + apply references_insert_row; [exact Fxv|].
      unfold Voter_get in Gv.
      destruct (find _ (voters s)) eqn:F; [|discriminate].
      apply (mem_find_id Voter.id _ _ _ F).
Qed.

Lemma constraints_ok_empty : constraints_ok empty_store.
Proof.
  split; [repeat split; constructor | repeat split; intros x []].
Qed.

(** Primary and foreign keys are intact in every store the server can get
    into, so that the statements made under these constraints hold there. *)
Theorem reachable_constraints (s : Store) :
  reachable s -> primary_keys_ok s /\ foreign_keys_ok s.
Proof.
  intros [rs ->]. unfold run.
  induction rs as [|r rs IH] using rev_ind.
  - exact constraints_ok_empty.
  - rewrite fold_left_app. cbn [fold_left]. now apply handle_constraints.
Qed.

Lemma reachable_constraints_witness :
  primary_keys_ok store_moved /\ foreign_keys_ok store_moved.
Proof.
  apply (reachable_constraints store_moved).
  exists (setup ++ [POST_votes 50 50 50 (a_vote 1 1 1);
                    PUT_candidates 1 (a_candidate 2 "C1")]).
  vm_compute. reflexivity.
Defined.

(* ================================================================== *)
(** * The unique indexes hold in every store the server gets into *)
(* ================================================================== *)

Section Unique.
Context {A B : Type}.
Variable f : A -> B.

Lemma NoDup_key_filter (p : A -> bool) (l : list A) :
  NoDup (map f l) -> NoDup (map f (filter p l)).
Proof.
  induction l as [|x l IH]; intros Hnd; cbn [filter map]; [constructor|].
  inversion Hnd as [|? ? Hnotin Hnd']; subst.
  destruct (p x); cbn [map]; [|now apply IH].
  constructor; [|now apply IH].
  intros Hin. apply Hnotin. apply in_map_iff in Hin.
  destruct Hin as [y [Hy Hin]]. apply filter_In in Hin.
  apply in_map_iff. exists y. tauto.
Qed.

Lemma NoDup_key_insert (l : list A) (x : A) :
  NoDup (map f l) -> ~ In (f x) (map f l) -> NoDup (map f (l ++ [x])).
Proof.
  intros Hnd Hx. rewrite map_app. cbn [map]. apply NoDup_app.
  - exact Hnd.
  - constructor; [intros [] | constructor].
  - intros y Hy [<-|[]]. contradiction.
Qed.

(** Overwriting the row with the primary key of [row] keeps a key unique
    when no other row has the key of [row]. *)
Lemma NoDup_key_save (id : A -> Z) (l : list A) (row : A) :
  NoDup (map id l) ->
  NoDup (map f l) ->
  (forall x, In x l -> id x <> id row -> f x <> f row) ->
  NoDup (map f (map (fun x => if id x =? id row then row else x) l)).
Proof.
  induction l as [|x l IH]; intros Hid Hf Hother; cbn [map]; [constructor|].
  inversion Hid as [|? ? Hidx Hid']; subst.
  inversion Hf as [|? ? Hfx Hf']; subst.
  assert (NoDup (map f (map (fun y => if id y =? id row then row else y) l)))
    as Htail.
  { apply IH; try assumption. intros y Hy. apply Hother. now right. }
  constructor; [|exact Htail].
  intros Hin. apply in_map_iff in Hin. destruct Hin as [z [Hz Hin]].
  apply in_map_iff in Hin. destruct Hin as [y [Hy Hyl]].
  destruct (Z.eqb_spec (id x) (id row)) as [Ex|Nx].
  - (* the head is overwritten: no row of the tail has its id *)
    destruct (Z.eqb_spec (id y) (id row)) as [Ey|Ny].
    + apply Hidx. rewrite Ex, <- Ey. now apply in_map.
    + subst z. apply (Hother y); [now right | exact Ny | exact Hz].
  - destruct (Z.eqb_spec (id y) (id row)) as [Ey|Ny].
    + subst z. apply (Hother x); [now left | exact Nx | now symmetry].
    + subst z. apply Hfx. rewrite <- Hz. now apply in_map.
Qed.

End Unique.

Lemma filter_filter {A} (p q : A -> bool) (l : list A) :
  filter p (filter q l) = filter (fun x => q x && p x) l.
Proof.
  induction l as [|x l IH]; cbn [filter]; [reflexivity|].
  destruct (q x); cbn [filter andb]; [destruct (p x)|]; now rewrite IH.
Qed.

Lemma filter_all {A} (l : list A) : filter (fun _ => true) l = l.
Proof. induction l as [|x l IH]; cbn; [reflexivity | now rewrite IH]. Qed.

(** The vote rows after a request are the vote rows from before it that a
    cascade has not deleted, or, after an admitted vote, those and the new
    row, which has an unused id and whose voter had no vote in the poll. *)
Lemma handle_votes (s : Store) (r : request) :
  (exists keep, votes (handle s r) = filter keep (votes s))
  \/ (exists now created_at voted_at vote,
        r = POST_votes now created_at voted_at vote
        /\ votes (handle s r)
           = votes s
             ++ [{| Vote.id := next_id (map Vote.id (votes s));
                    Vote.created_at := created_at;
                    Vote.poll_id := VoteCreate.poll_id vote;
                    Vote.candidate_id := VoteCreate.candidate_id vote;
                    Vote.voter_id := VoteCreate.voter_id vote;
                    Vote.voted_at := voted_at |}]
        /\ existsb (fun x => (Vote.poll_id x =? VoteCreate.poll_id vote)
                             && (Vote.voter_id x =? VoteCreate.voter_id vote))
                   (votes s) = false).
Proof.
  destruct r as [? ?|? ?|?|? ?|? ?|?|? ?|? ?|?|? ?|? ?|?|t ca va vt];
    cbn [handle];
    try (left; endpoint_cases; cbn [votes];
         rewrite ?filter_filter;
         first [ eexists; reflexivity
               | exists (fun _ => true); now rewrite filter_all ]).
  destruct (create_vote t ca va vt s) as [[resp s']|x] eqn:E;
    cbn [store_after].
  - right. exists t, ca, va, vt.
    split; [reflexivity|].
    apply create_vote_ok_inv in E. destruct E as [[el [Hvalid _]] E].
    unfold commit_vote in E. injection E as _ ->. cbn [votes].
    split; [reflexivity|].
    destruct Hvalid as [poll [cand [voter [Gp [_ [Gv [_ [Ev _]]]]]]]].
    unfold existing_vote in Ev.
    destruct (Poll_get_cases s (VoteCreate.poll_id vt))
      as [[p [Gp' [_ Hpid]]]|Gp']; rewrite Gp' in Gp; [|discriminate].
    inversion Gp; subst p. unfold Voter_get in Gv.
    destruct (find _ (voters s)) as [v|] eqn:Fv; [|discriminate].
    inversion Gv; subst v.
    pose proof (find_id_some Voter.id _ _ _ Fv) as [_ Hvid].
    rewrite Hpid, Hvid in Ev. now rewrite existsb_find, Ev.
  - left. exists (fun _ => true). now rewrite filter_all.
Qed.

Lemma count_le_one {A B} (f : A -> B) (p : A -> bool) (k : B) (l : list A) :
  NoDup (map f l) ->
  (forall x, In x l -> p x = true -> f x = k) ->
  count p l <= 1.
Proof.
  induction l as [|x l IH]; intros Hnd Hk; [rewrite count_nil; lia|].
  inversion Hnd as [|? ? Hnotin Hnd']; subst. rewrite count_cons.
  assert (count p l <= 1) as Hl
    by (apply IH; [exact Hnd' | intros y Hy; apply Hk; now right]).
  destruct (p x) eqn:Px; [|lia].
  assert (count p l = 0) as ->; [|lia].
  apply count_zero_iff. intros y Hy.
  destruct (p y) eqn:Py; [|reflexivity].
  exfalso. apply Hnotin.
  rewrite (Hk x (or_introl eq_refl) Px), <- (Hk y (or_intror Hy) Py).
  now apply in_map.
Qed.

Lemma not_in_keys {A B} (f : A -> B) (p : A -> bool) (k : B) (l : list A) :
  (forall x, f x = k -> p x = true) ->
  existsb p l = false -> ~ In k (map f l).
Proof.
  intros Hp Hex Hin. apply in_map_iff in Hin. destruct Hin as [x [Hx Hin]].
  assert (existsb p l = true) by (apply existsb_exists; exists x; auto).
  congruence.
Qed.

Lemma handle_votes_unique (s : Store) (r : request) :
  votes_unique s -> votes_unique (handle s r).
Proof.
  unfold votes_unique. intros H.
  destruct (handle_votes s r) as [[keep ->]|[t [ca [va [vt [_ [-> Hex]]]]]]].
  - now apply NoDup_key_filter.
  - apply NoDup_key_insert; [exact H|]. cbn [Vote.poll_id Vote.voter_id].
    refine (not_in_keys _ _ _ _ _ Hex). intros x E. cbn in E.
    injection E as -> ->. now rewrite !Z.eqb_refl.
Qed.

Lemma reachable_ind (P : Store -> Prop) :
  P empty_store ->
  (forall s r, reachable s -> P s -> P (handle s r)) ->
  forall s, reachable s -> P s.
Proof.
  intros H0 Hstep s [rs ->]. unfold run.
  induction rs as [|r rs IH] using rev_ind; [exact H0|].
  rewrite fold_left_app. cbn [fold_left]. apply Hstep; [|exact IH].
  now exists rs.
Qed.

Section RowidOrder.
Context {A : Type}.
Variable id : A -> Z.

Lemma rowid_order_insert (rows : list A) (row : A) :
  id row = next_id (map id rows) ->
  rowid_order id rows -> rowid_order id (rows ++ [row]).
Proof.
  unfold rowid_order. intros Hid H. rewrite map_app. cbn [map].
  apply sorted_snoc; [exact H|]. apply Forall_forall. intros y Hy.
  apply le_max_ids in Hy. rewrite Hid. unfold next_id. lia.
Qed.

Lemma rowid_order_save (rows : list A) (row : A) :
  rowid_order id rows ->
  rowid_order id (map (fun x => if id x =? id row then row else x) rows).
Proof. unfold rowid_order. now rewrite ids_after_save. Qed.

Lemma rowid_order_filter (keep : A -> bool) (rows : list A) :
  rowid_order id rows -> rowid_order id (filter keep rows).
Proof.
  unfold rowid_order. intros H. apply sorted_map. apply sorted_filter.
  now apply (sorted_map id Z.lt).
Qed.

End RowidOrder.

(** Inserts take the next rowid, updates keep the rowid, and deletes leave
    the other rows in their order. *)
Lemma handle_rowid_order (s : Store) (r : request) :
  rowid_order Candidate.id (candidates s) ->
  rowid_order Candidate.id (candidates (handle s r)).
Proof.
  intros H.
  destruct r as [? ?|? ?|?|? ?|? ?|?|? ?|? ?|?|? ?|? ?|?|t ca va vt];
    cbn [handle].
  13:{ destruct (create_vote t ca va vt s) as [[resp s']|x] eqn:E;
         cbn [store_after]; [|exact H].
       apply create_vote_ok_inv in E. destruct E as [_ E].
       unfold commit_vote in E. now injection E as _ ->. }
  all: endpoint_cases; cbn [candidates]; try assumption;
    rewrite ?filter_filter; try (now apply rowid_order_filter).
  - now apply rowid_order_insert.
  - now apply rowid_order_save.
Qed.

(** The candidate table of every store the server gets into is in rowid
    order. *)
Lemma reachable_rowid_order (s : Store) :
  reachable s -> rowid_order Candidate.id (candidates s).
Proof.
  revert s. apply reachable_ind.
  - constructor.
  - intros s r _ H. now apply handle_rowid_order.
Qed.

(** One vote per voter and poll. In every store the server gets into, no
    two vote rows have the same poll and voter; and an insert of
    [create_vote] that succeeds keeps it so whatever store its checks have
    seen. *)
Theorem one_vote_per_voter_and_poll :
  (forall s, reachable s ->
     votes_unique s
     /\ forall poll_id voter_id,
          count (fun v => (Vote.poll_id v =? poll_id)
                          && (Vote.voter_id v =? voter_id)) (votes s) <= 1)
  /\ (forall now created_at voted_at vote s s_commit r s',
        votes_unique s_commit ->
        create_vote_interleaved now created_at voted_at vote s s_commit
        = Ok (r, s') ->
        votes_unique s').
Proof.
  split.
  - intros s Hs.
    assert (votes_unique s) as Hu.
    { revert s Hs. apply reachable_ind.
      - constructor.
      - intros s r _ H. now apply handle_votes_unique. }
    split; [exact Hu|]. intros poll_id voter_id.
    apply (count_le_one (fun v => (Vote.poll_id v, Vote.voter_id v)) _
                        (poll_id, voter_id) _ Hu).
    intros v _ Hv. apply andb_prop in Hv. destruct Hv as [Hp Hv].
    apply Z.eqb_eq in Hp, Hv. now subst.
  - unfold votes_unique, create_vote_interleaved, Vote_create.
    intros now created_at voted_at vote s s_commit r s' Hu H.
    destruct (create_vote_checks now vote s) as [[]|e]; cbn [bind] in H.
    + destruct (existsb _ (votes s_commit)) eqn:Hex;
        [cbn in H; discriminate|].
      destruct (negb _); [cbn in H; discriminate|].
      cbn in H. injection H as _ <-. cbn [votes].
      apply NoDup_key_insert; [exact Hu|]. cbn [Vote.poll_id Vote.voter_id].
      refine (not_in_keys _ _ _ _ _ Hex). intros x E. cbn in E.
      injection E as -> ->. now rewrite !Z.eqb_refl.
    + cbn in H. destruct (except_create_vote e); discriminate.
Qed.

Lemma one_vote_per_voter_and_poll_witness :
  count (fun v => (Vote.poll_id v =? 1) && (Vote.voter_id v =? 1))
        (votes store_voted) <= 1
  /\ votes_unique
       (snd (commit_vote 51 51 (a_vote 1 2 1) store_setup)).
Proof.
  destruct one_vote_per_voter_and_poll as [H1 H2]. split.
  - apply (H1 store_voted).
    exists (setup ++ [POST_votes 50 50 50 (a_vote 1 1 1)]).
    vm_compute. reflexivity.
  - apply (H2 50 51 51 (a_vote 1 2 1) store_setup store_setup
              (fst (commit_vote 51 51 (a_vote 1 2 1) store_setup))).
    + vm_compute. constructor.
    + vm_compute. reflexivity.
Defined.

(* ------------------------------------------------------------------ *)

Lemma handle_emails_names (s : Store) (r : request) :
  primary_keys_ok s ->
  emails_unique s /\ names_unique s ->
  emails_unique (handle s r) /\ names_unique (handle s r).
Proof.
  intros [_ [_ [Pc [Pv _]]]] [He Hn]. unfold emails_unique, names_unique in *.
  destruct r as [? ?|? ?|?|? ?|? ?|?|? ?|? ?|?|? ?|? ?|?|t ca va vt];
    cbn [handle].
  13:{ destruct (create_vote t ca va vt s) as [[resp s']|x] eqn:E;
         cbn [store_after]; [|now split].
       apply create_vote_ok_inv in E. destruct E as [_ E].
       unfold commit_vote in E. injection E as _ ->. now split. }
  all: endpoint_cases; cbn [voters candidates]; split; try assumption;
    rewrite ?filter_filter; try (now apply NoDup_key_filter).
  - (* POST /candidates/ *)
    apply NoDup_key_insert; [exact Hn|].
    cbn [Candidate.poll_id Candidate.name].
    match goal with
    | H : existsb _ (candidates s) = false |- _ =>
        refine (not_in_keys _ _ _ _ _ H)
    end.
    intros x E. cbn in E. injection E as -> ->.
    now rewrite Z.eqb_refl, String.eqb_refl.
  - (* PUT /candidates/{id} *)
    apply (NoDup_key_save _ Candidate.id); try assumption.
    intros x Hx Hid Hkey.
    match goal with
    | H : existsb _ (candidates s) = false |- _ =>
        assert (existsb_false := H)
    end.
    rewrite <- not_true_iff_false in existsb_false. apply existsb_false.
    apply existsb_exists. exists x. split; [exact Hx|].
    cbn [Candidate.id Candidate.poll_id Candidate.name] in *.
    injection Hkey as -> ->.
    rewrite Z.eqb_refl, String.eqb_refl.
    apply Z.eqb_neq in Hid. now rewrite Hid.
  - (* POST /voters/ *)
    apply NoDup_key_insert; [exact He|]. cbn [Voter.email].
    match goal with
    | H : existsb _ (voters s) = false |- _ =>
        refine (not_in_keys _ _ _ _ _ H)
    end.
    intros x E. rewrite E. apply String.eqb_refl.
  - (* PUT /voters/{id} *)
    apply (NoDup_key_save _ Voter.id); try assumption.
    intros x Hx Hid Hkey.
    match goal with
    | H : existsb _ (voters s) = false |- _ =>
        assert (existsb_false := H)
    end.
    rewrite <- not_true_iff_false in existsb_false. apply existsb_false.
    apply existsb_exists. exists x. split; [exact Hx|].
    cbn [Voter.id Voter.email] in *. rewrite Hkey, String.eqb_refl.
    apply Z.eqb_neq in Hid. now rewrite Hid.
Qed.

(** In every store the server gets into, no two voters share an e-mail
    address and no two candidates of a poll share a name. *)
Theorem reachable_unique_indexes (s : Store) :
  reachable s ->
  emails_unique s
  /\ names_unique s
  /\ (forall email,
        count (fun v => String.eqb (Voter.email v) email) (voters s) <= 1)
  /\ (forall poll_id name,
        count (fun c => (Candidate.poll_id c =? poll_id)
                        && String.eqb (Candidate.name c) name)
              (candidates s) <= 1).
Proof.
  intros Hs.
  assert (constraints_ok s /\ emails_unique s /\ names_unique s) as H.
  { revert s Hs. apply reachable_ind.
    - split; [exact constraints_ok_empty | split; constructor].
    - intros s r _ [Hc Hu]. split; [now apply handle_constraints|].
      apply handle_emails_names; [apply Hc | exact Hu]. }
  destruct H as [_ [He Hn]]. split; [exact He|]. split; [exact Hn|]. split.
  - intros email. apply (count_le_one Voter.email _ email _ He).
    intros v _ Hv. now apply String.eqb_eq.
  - intros poll_id name.
    apply (count_le_one (fun c => (Candidate.poll_id c, Candidate.name c)) _
                        (poll_id, name) _ Hn).
    intros c _ Hc. apply andb_prop in Hc. destruct Hc as [Hp Hc].
    apply Z.eqb_eq in Hp. apply String.eqb_eq in Hc. now subst.
Qed.

Lemma reachable_unique_indexes_witness :
  count (fun v => String.eqb (Voter.email v) "voter07@university.edu")
        (voters store_tie) <= 1
  /\ count (fun c => (Candidate.poll_id c =? 1)
                     && String.eqb (Candidate.name c) "C1")
           (candidates store_tie) <= 1.
Proof.
  assert (reachable store_tie) as R
    by (exists (setup ++ thirty_two_votes); vm_compute; reflexivity).
  destruct (reachable_unique_indexes store_tie R) as [_ [_ [He Hn]]].
  split; [apply He | apply Hn].
Defined.

(* ================================================================== *)
(** * The admission invariant, as long as no candidate with votes is moved *)
(* ================================================================== *)

Lemma admission_delete_votes (dead : Vote.t -> bool) (s : Store) :
  admission_invariant s -> admission_invariant (delete_votes_where dead s).
Proof.
  intros H v Hv. unfold delete_votes_where in *. cbn [votes candidates] in *.
  apply filter_In in Hv. now apply H.
Qed.

Lemma admission_delete_candidates (dead : Candidate.t -> bool) (s : Store) :
  admission_invariant s ->
  admission_invariant (delete_candidates_where dead s).
Proof.
  intros H v Hv. unfold delete_candidates_where, delete_votes_where in *.
  cbn [votes candidates] in *. apply filter_In in Hv. destruct Hv as [Hv Hk].
  destruct (H v Hv) as [c [Hc [Hid Hp]]]. exists c. split; [|now split].
  apply filter_In. split; [exact Hc|].
  destruct (dead c) eqn:D; [|reflexivity].
  rewrite <- Hid, (dead_in_gone Candidate.id dead _ c Hc D) in Hk.
  discriminate.
Qed.

Lemma admission_delete_polls (dead : Poll.t -> bool) (s : Store) :
  admission_invariant s -> admission_invariant (delete_polls_where dead s).
Proof.
  intros H. unfold delete_polls_where.
  set (gone := map Poll.id (filter dead (polls s))).
  pose proof (admission_delete_candidates
                (fun c => mem (Candidate.poll_id c) gone) _
                (admission_delete_votes
                   (fun v => mem (Vote.poll_id v) gone) s H)) as H2.
  intros v Hv. cbn [votes candidates] in *. now apply H2.
Qed.

Lemma votes_of_candidate_pos (s : Store) (c : Candidate.t) (v : Vote.t) :
  In v (votes s) -> Vote.candidate_id v = Candidate.id c ->
  votes_of_candidate s c <> 0.
Proof.
  intros Hv Hid H. unfold votes_of_candidate in H.
  rewrite count_zero_iff in H. specialize (H v Hv). cbn in H.
  rewrite Hid, Z.eqb_refl in H. discriminate.
Qed.

Lemma handle_admission (s : Store) (r : request) :
  primary_keys_ok s ->
  admission_invariant s ->
  keeps_poll s r = true ->
  admission_invariant (handle s r).
Proof.
  intros [_ [_ [Pc _]]] H Hkeep.
  destruct r as [? ?|? ?|?|? ?|? ?|?|? c|i c|?|? ?|? ?|?|t ca va vt];
    cbn [handle].
  - unfold create_election. destruct (_ >=? _); exact H.
  - unfold update_election, try_except, bind.
    repeat destruct_scrutinee; exact H.
  - unfold delete_election, try_except, bind.
    repeat destruct_scrutinee; cbn [store_after]; try exact H.
    unfold Election_delete_instance. intros v Hv. cbn [votes candidates] in *.
    now apply (admission_delete_polls _ s H).
  - unfold create_poll, Poll_create, try_except, bind.
    repeat destruct_scrutinee; exact H.
  - unfold update_poll, Poll_save, try_except, bind.
    repeat destruct_scrutinee; exact H.
  - unfold delete_poll, try_except, bind.
    repeat destruct_scrutinee; cbn [store_after]; try exact H.
    now apply admission_delete_polls.
  - unfold create_candidate, Candidate_create, try_except, bind.
    repeat destruct_scrutinee; cbn [store_after]; try exact H.
    intros v Hv. cbn [votes candidates] in *.
    destruct (H v Hv) as [c0 [Hc0 Hrest]]. exists c0.
    split; [apply in_or_app; now left | exact Hrest].
  - (* PUT /candidates/{id}: the candidate keeps its poll, or has no vote *)
    cbn [keeps_poll] in Hkeep.
    unfold update_candidate, Candidate_save, try_except, bind.
    destruct (Candidate_get s i) as [old|x] eqn:G.
    2:{ repeat destruct_scrutinee; exact H. }
    repeat destruct_scrutinee; cbn [store_after]; try exact H.
    unfold Candidate_get in G.
    destruct (find _ (candidates s)) as [o|] eqn:F; [|discriminate].
    inversion G; subst o.
    pose proof (find_id_some Candidate.id _ _ _ F) as [Hold _].
    intros v Hv. cbn [votes candidates] in *.
    destruct (H v Hv) as [c0 [Hc0 [Hid Hp]]].
    destruct (Z.eqb_spec (Candidate.id c0) (Candidate.id old)) as [E|N].
    + assert (c0 = old) by
        (now apply (primary_key_injective Candidate.id (candidates s))).
      subst c0.
      eexists. split; [apply in_map_iff; exists old; split;
                       [reflexivity | exact Hold]|].
      cbn [Candidate.id]. rewrite Z.eqb_refl.
      cbn [Candidate.id Candidate.poll_id]. split; [exact Hid|].
      apply orb_prop in Hkeep. destruct Hkeep as [Hk|Hk].
      * apply Z.eqb_eq in Hk. congruence.
      * apply Z.eqb_eq in Hk.
        now apply (votes_of_candidate_pos s old v Hv) in Hk.
    + exists c0. split; [|now split].
      apply in_map_iff. exists c0. split; [|exact Hc0].
      cbn [Candidate.id]. apply Z.eqb_neq in N. now rewrite N.
  - unfold delete_candidate, try_except, bind.
    repeat destruct_scrutinee; cbn [store_after]; try exact H.
    now apply admission_delete_candidates.
  - unfold create_voter, Voter_create, try_except.
    repeat destruct_scrutinee; exact H.
  - unfold update_voter, Voter_save, try_except, bind.
    repeat destruct_scrutinee; exact H.
  - unfold delete_voter, try_except, bind.
    repeat destruct_scrutinee; cbn [store_after]; try exact H.
    unfold Voter_delete_instance. intros v Hv. cbn [votes candidates] in *.
    now apply (admission_delete_votes _ s H).
  - destruct (create_vote t ca va vt s) as [[resp s']|x] eqn:E;
      cbn [store_after]; [|exact H].
    apply create_vote_ok_inv in E. destruct E as [[el [Hvalid _]] E].
    unfold commit_vote in E. injection E as _ ->.
    destruct Hvalid as [poll [cand [voter [Gp [Gc [_ [Hcp _]]]]]]].
    intros v Hv. cbn [votes candidates] in *. apply in_app_or in Hv.
    destruct Hv as [Hv|[<-|[]]]; [now apply H|].
    unfold Candidate_get in Gc.
    destruct (find _ (candidates s)) as [c0|] eqn:F; [|discriminate].
    inversion Gc; subst c0.
    pose proof (find_id_some Candidate.id _ _ _ F) as [Hin Hid].
    exists cand. cbn [Vote.candidate_id Vote.poll_id].
    split; [exact Hin|]. split; [exact Hid|].
    destruct (Poll_get_cases s (VoteCreate.poll_id vt))
      as [[p [Gp' [_ Hpid]]]|Gp']; rewrite Gp' in Gp; [|discriminate].
    inversion Gp; subst p. congruence.
Qed.

Lemma run_admission (rs : list request) (s : Store) :
  constraints_ok s ->
  admission_invariant s ->
  run_keeps_poll rs s = true ->
  constraints_ok (run rs s) /\ admission_invariant (run rs s).
Proof.
  revert s. induction rs as [|r rs IH]; intros s Hc Ha Hk; cbn in *.
  - now split.
  - apply andb_prop in Hk. destruct Hk as [Hr Hrs].
    apply IH; [now apply handle_constraints | | exact Hrs].
    apply handle_admission; [apply Hc | exact Ha | exact Hr].
Qed.

(** As long as no [PUT /candidates/{id}] gives a candidate that has votes
    another poll, the candidate of every vote row belongs to the poll of the
    row, and the results of every poll report as many unique voters as
    votes. *)
Theorem admission_invariant_kept (rs : list request) :
  run_keeps_poll rs empty_store = true ->
  admission_invariant (run rs empty_store)
  /\ forall poll_id r,
       get_poll_results poll_id (run rs empty_store) = Ok r ->
       PollResults.unique_voters r = PollResults.total_votes r.
Proof.
  intros Hk.
  destruct (run_admission rs empty_store constraints_ok_empty) as [Hc Ha];
    [intros v [] | exact Hk |].
  split; [exact Ha|]. intros poll_id r H.
  apply get_poll_results_inv in H. destruct H as [poll [_ [_ [_ ->]]]].
  cbn [poll_results_of PollResults.unique_voters PollResults.total_votes].
  symmetry. apply votes_of_candidates_of_poll; [apply Hc | exact Ha].
Qed.

Lemma admission_invariant_kept_witness :
  run_keeps_poll
    (setup ++ [POST_votes 50 50 50 (a_vote 1 1 1);
               PUT_candidates 2 (a_candidate 2 "C2")]) empty_store = true
  /\ admission_invariant
       (run (setup ++ [POST_votes 50 50 50 (a_vote 1 1 1);
                       PUT_candidates 2 (a_candidate 2 "C2")]) empty_store).
Proof.
  split; [vm_compute; reflexivity|].
  apply admission_invariant_kept. vm_compute. reflexivity.
Defined.

(* ================================================================== *)
(** * Vote rows are created and deleted, never changed *)
(* ================================================================== *)

(** Whatever the request, a vote row of the store after it is a vote row of
    the store before it, unchanged, or it is the row that [POST /votes/]
    has inserted under an id that no vote row had. *)
Theorem votes_create_only (s : Store) (r : request) (v : Vote.t) :
  In v (votes (handle s r)) ->
  In v (votes s)
  \/ (exists now created_at voted_at vote,
        r = POST_votes now created_at voted_at vote
        /\ Vote.poll_id v = VoteCreate.poll_id vote
        /\ Vote.candidate_id v = VoteCreate.candidate_id vote
        /\ Vote.voter_id v = VoteCreate.voter_id vote
        /\ Vote.voted_at v = voted_at
        /\ ~ In (Vote.id v) (map Vote.id (votes s))).
Proof.
  destruct (handle_votes s r) as [[keep ->]|[t [ca [va [vt [-> [-> _]]]]]]];
    intros Hv.
  - left. apply filter_In in Hv. tauto.
  - apply in_app_or in Hv. destruct Hv as [Hv|[<-|[]]]; [now left|].
    right. exists t, ca, va, vt. cbn. repeat split. apply next_id_fresh.
Qed.

Lemma votes_create_only_witness :
  In {| Vote.id := 1; Vote.created_at := 50; Vote.poll_id := 1;
        Vote.candidate_id := 1; Vote.voter_id := 1; Vote.voted_at := 50 |}
     (votes store_voted)
  \/ (exists now created_at voted_at vote,
        PUT_candidates 1 (a_candidate 2 "C1")
        = POST_votes now created_at voted_at vote
        /\ 1 = VoteCreate.poll_id vote
        /\ 1 = VoteCreate.candidate_id vote
        /\ 1 = VoteCreate.voter_id vote
        /\ 50 = voted_at
        /\ ~ In 1 (map Vote.id (votes store_voted))).
Proof.
  apply (votes_create_only store_voted (PUT_candidates 1 (a_candidate 2 "C1"))
           {| Vote.id := 1; Vote.created_at := 50; Vote.poll_id := 1;
              Vote.candidate_id := 1; Vote.voter_id := 1;
              Vote.voted_at := 50 |}).
  vm_compute. left. reflexivity.
Defined.

(* ================================================================== *)
(** * Voters: e-mail addresses that are taken *)
(* ================================================================== *)

Lemma key_injective {A B} (f : A -> B) (l : list A) (a b : A) :
  NoDup (map f l) -> In a l -> In b l -> f a = f b -> a = b.
Proof.
  induction l as [|x l IH]; intros Hnd Ha Hb Hab; [contradiction|].
  inversion Hnd as [|? ? Hnotin Hnd']; subst.
  destruct Ha as [->|Ha], Hb as [->|Hb].
  - reflexivity.
  - exfalso. apply Hnotin. rewrite Hab. now apply in_map.
  - exfalso. apply Hnotin. rewrite <- Hab. now apply in_map.
  - now apply IH.
Qed.

Lemma find_after_save {A} (id : A -> Z) (l : list A) (old row : A) :
  find (fun x => id x =? id row) l = Some old ->
  find (fun x => id x =? id row)
       (map (fun x => if id x =? id row then row else x) l) = Some row.
Proof.
  induction l as [|x l IH]; cbn [find map]; [discriminate|].
  destruct (id x =? id row) eqn:E.
  - intros _. now rewrite Z.eqb_refl.
  - rewrite E. exact IH.
Qed.

Lemma find_after_insert {A} (id : A -> Z) (l : list A) (row : A) :
  ~ In (id row) (map id l) ->
  find (fun x => id x =? id row) (l ++ [row]) = Some row.
Proof.
  induction l as [|x l IH]; cbn [find map app]; intros Hnot.
  - now rewrite Z.eqb_refl.
  - destruct (Z.eqb_spec (id x) (id row)) as [E|_].
    + exfalso. apply Hnot. left. exact E.
    + apply IH. intros H. apply Hnot. now right.
Qed.

(** [create_voter] answers 400 "e-mail taken" when a voter has the
    address (compared byte by byte), and nothing else goes wrong: when no
    voter has it, the voter is stored under an unused id, and
    [read_voter] gives it back. *)
Theorem create_voter_outcomes (now : datetime) (voter : VoterCreate.t)
  (s : Store) :
  ((exists v, In v (voters s) /\ Voter.email v = VoterCreate.email voter) ->
   create_voter now voter s = Raise (HTTPException 400 detail_email_taken))
  /\ ((forall v, In v (voters s) ->
                 Voter.email v <> VoterCreate.email voter) ->
      exists row s',
        create_voter now voter s = Ok (row, s')
        /\ ~ In (Voter.id row) (map Voter.id (voters s))
        /\ Voter.email row = VoterCreate.email voter
        /\ Voter.name row = VoterCreate.name voter
        /\ Voter.is_verified row = VoterCreate.is_verified voter
        /\ voters s' = voters s ++ [row]
        /\ votes s' = votes s
        /\ read_voter (Voter.id row) s' = Ok row).
Proof.
  split.
  - intros [v [Hv He]]. apply create_voter_email_taken.
    apply existsb_exists. exists v. split; [exact Hv|].
    now apply String.eqb_eq.
  - intros Hfree. unfold create_voter, Voter_create.
    destruct (existsb _ (voters s)) eqn:Hex.
    + apply existsb_exists in Hex. destruct Hex as [v [Hv He]].
      apply String.eqb_eq in He. now apply Hfree in Hv.
    + cbn [try_except]. do 2 eexists. split; [reflexivity|].
      cbn [Voter.id Voter.email Voter.name Voter.is_verified voters votes].
      repeat split.
      * apply next_id_fresh.
      * unfold read_voter, Voter_get. cbn [voters].
        pose proof (find_after_insert Voter.id (voters s)
                      {| Voter.id := next_id (map Voter.id (voters s));
                         Voter.created_at := now;
                         Voter.email := VoterCreate.email voter;
                         Voter.name := VoterCreate.name voter;
                         Voter.is_verified := VoterCreate.is_verified voter |}
                      (next_id_fresh _)) as Hf.
        cbn [Voter.id] in Hf. rewrite Hf. reflexivity.
Qed.

Lemma create_voter_outcomes_witness :
  create_voter 9 (a_voter "v1@university.edu") store_setup
  = Raise (HTTPException 400 detail_email_taken)
  /\ exists row s',
       create_voter 9 (a_voter "V1@university.edu") store_setup
       = Ok (row, s')
       /\ ~ In (Voter.id row) (map Voter.id (voters store_setup))
       /\ Voter.email row = "V1@university.edu"
       /\ Voter.name row = "V"
       /\ Voter.is_verified row = true
       /\ voters s' = voters store_setup ++ [row]
       /\ votes s' = votes store_setup
       /\ read_voter (Voter.id row) s' = Ok row.
Proof.
  split.
  - apply (create_voter_outcomes 9 (a_voter "v1@university.edu") store_setup).
    exists voter_V1. split; [vm_compute; left|]; reflexivity.
  - apply (create_voter_outcomes 9 (a_voter "V1@university.edu") store_setup).
    intros v Hv. in_concrete_list Hv. discriminate.
Defined.



(* ================================================================== *)
(** * Candidates: names that are taken, and moving a candidate *)
(* ================================================================== *)





(* ================================================================== *)
(** * Deleting: what the cascades take along *)
(* ================================================================== *)

Lemma mem_ids_of_key {A} (id : A -> Z) (k x : Z) (l : list A) :
  (exists p, In p l /\ id p = k) ->
  mem x (map id (filter (fun y => id y =? k) l)) = (x =? k).
Proof.
  intros [p [Hp Hk]]. destruct (Z.eqb_spec x k) as [->|Hne].
  - apply mem_true_iff, in_map_iff. exists p. split; [exact Hk|].
    apply filter_In. split; [exact Hp|]. now apply Z.eqb_eq.
  - apply not_true_iff_false. intros H. apply mem_true_iff, in_map_iff in H.
    destruct H as [y [Hy Hin]]. apply filter_In in Hin.
    destruct Hin as [_ Hin]. apply Z.eqb_eq in Hin. congruence.
Qed.

Lemma find_deleted {A} (id : A -> Z) (k : Z) (l : list A) :
  find (fun x => id x =? k) (filter (fun x => negb (id x =? k)) l) = None.
Proof.
  induction l as [|x l IH]; cbn [filter find]; [reflexivity|].
  destruct (id x =? k) eqn:E; cbn [negb find]; [exact IH|].
  now rewrite E.
Qed.



(** The candidates and the vote rows that are left when a poll is
    deleted. *)
Lemma delete_poll_votes (poll_id : Z) (s : Store) (poll : Poll.t) :
  In poll (polls s) -> Poll.id poll = poll_id ->
  votes (Poll_delete_instance s poll)
  = filter (fun v =>
              negb (Vote.poll_id v =? poll_id)
              && negb (mem (Vote.candidate_id v)
                           (map Candidate.id
                                (filter (fun c => Candidate.poll_id c
                                                  =? poll_id)
                                        (candidates s))))) (votes s)
  /\ candidates (Poll_delete_instance s poll)
     = filter (fun c => negb (Candidate.poll_id c =? poll_id)) (candidates s).
Proof.
  intros Hin Hid.
  unfold Poll_delete_instance, delete_polls_where, delete_candidates_where,
    delete_votes_where.
  cbn [voters votes elections polls candidates]. rewrite Hid.
  assert (forall x, mem x (map Poll.id
                               (filter (fun y => Poll.id y =? poll_id)
                                       (polls s))) = (x =? poll_id)) as Hgone
    by (intros x; apply mem_ids_of_key; now exists poll).
  split.
  - rewrite filter_filter. apply filter_ext. intros v. rewrite Hgone.
    f_equal. f_equal. f_equal. f_equal. apply filter_ext. intros c.
    apply Hgone.
  - apply filter_ext. intros c. now rewrite Hgone.
Qed.





(* ================================================================== *)
(** * The listings: pages and filters *)
(* ================================================================== *)

Lemma int64_nonneg (x y : Z) :
  0 <= x -> 0 <= y -> int64 (x + y) = true ->
  int64 x = true /\ int64 y = true.
Proof.
  unfold int64. intros Hx Hy H. apply andb_prop in H. destruct H as [Hl Hu].
  apply Z.leb_le in Hl. apply Z.ltb_lt in Hu.
  split; apply andb_true_intro; split;
    try (apply Z.leb_le; lia); apply Z.ltb_lt; lia.
Qed.

Section Pages.
Context {A : Type}.

Lemma firstn_add (a b : nat) (l : list A) :
  firstn a l ++ firstn b (skipn a l) = firstn (a + b) l.
Proof.
  revert l. induction a as [|a IH]; intros l; [reflexivity|].
  destruct l as [|x l]; cbn [firstn skipn Nat.add app].
  - now rewrite firstn_nil.
  - now rewrite IH.
Qed.

Lemma skipn_add (a b : nat) (l : list A) :
  skipn (a + b) l = skipn b (skipn a l).
Proof.
  revert l. induction a as [|a IH]; intros l; [reflexivity|].
  destruct l as [|x l]; cbn [skipn Nat.add]; [now rewrite skipn_nil|].
  apply IH.
Qed.

Lemma offset_limit_int64 (skip limit : Z) (rows : list A) :
  int64 limit = true -> int64 skip = true ->
  Python.offset_limit skip limit rows
  = Ok (if limit <? 0 then skipn (Z.to_nat skip) rows
        else firstn (Z.to_nat limit) (skipn (Z.to_nat skip) rows)).
Proof.
  intros Hl Hs. unfold Python.offset_limit, bound. now rewrite Hl, Hs.
Qed.

Lemma offset_limit_overflow (skip limit : Z) (rows : list A) :
  int64 limit = false \/ int64 skip = false ->
  Python.offset_limit skip limit rows = Raise OverflowError.
Proof.
  unfold Python.offset_limit, bound. intros [H|H]; rewrite H;
    [reflexivity | now destruct (int64 limit)].
Qed.

Lemma offset_limit_ok (skip limit : Z) (rows page : list A) :
  Python.offset_limit skip limit rows = Ok page ->
  int64 limit = true /\ int64 skip = true
  /\ page = if limit <? 0 then skipn (Z.to_nat skip) rows
            else firstn (Z.to_nat limit) (skipn (Z.to_nat skip) rows).
Proof.
  unfold Python.offset_limit, bound.
  destruct (int64 limit); [|discriminate].
  destruct (int64 skip); [|discriminate].
  cbn [bind]. intros H. now inversion H.
Qed.

(** Two pages in a row are one page, and a page is as long as its limit
    and the rows after [skip] allow. *)
Lemma offset_limit_pages (skip a b : Z) (rows : list A) :
  0 <= skip -> 0 <= a -> 0 <= b ->
  int64 (skip + a) = true -> int64 (a + b) = true ->
  exists p1 p2,
    Python.offset_limit skip a rows = Ok p1
    /\ Python.offset_limit (skip + a) b rows = Ok p2
    /\ Python.offset_limit skip (a + b) rows = Ok (p1 ++ p2)
    /\ Z.of_nat (List.length p1)
       = Z.min a (Z.max 0 (Z.of_nat (List.length rows) - skip)).
Proof.
  intros Hs Ha Hb Hsa Hab.
  destruct (int64_nonneg skip a Hs Ha Hsa) as [Is Ia].
  destruct (int64_nonneg a b Ha Hb Hab) as [_ Ib].
  rewrite !offset_limit_int64 by assumption.
  destruct (Z.ltb_spec a 0); [lia|]. destruct (Z.ltb_spec b 0); [lia|].
  destruct (Z.ltb_spec (a + b) 0); [lia|].
  do 2 eexists. split; [reflexivity|]. split; [reflexivity|]. split.
  - rewrite !Z2Nat.inj_add by lia. rewrite skipn_add. now rewrite firstn_add.
  - rewrite length_firstn, length_skipn. lia.
Qed.

Lemma offset_limit_all (rows : list A) :
  Python.offset_limit 0 (-1) rows = Ok rows.
Proof. reflexivity. Qed.

Lemma In_firstn (n : nat) (l : list A) (x : A) :
  In x (firstn n l) -> In x l.
Proof.
  revert l. induction n as [|n IH]; intros [|y l]; cbn; try tauto.
  intros [->|H]; [now left | right; now apply IH].
Qed.

Lemma In_skipn (n : nat) (l : list A) (x : A) :
  In x (skipn n l) -> In x l.
Proof.
  revert l. induction n as [|n IH]; intros [|y l]; cbn; try tauto.
  intros H. right. now apply IH.
Qed.

Lemma offset_limit_In (skip limit : Z) (rows page : list A) (x : A) :
  Python.offset_limit skip limit rows = Ok page -> In x page -> In x rows.
Proof.
  intros H Hx. apply offset_limit_ok in H. destruct H as [_ [_ ->]].
  destruct (limit <? 0); [|apply In_firstn in Hx]; now apply In_skipn in Hx.
Qed.

End Pages.

Lemma where_poll_bindable {A} (poll : A -> Z) (poll_id : option Z)
  (query : list A) :
  bindable poll_id = true ->
  Python.where_poll poll poll_id query
  = Ok (if Python.truthy poll_id
        then filter (fun x => match poll_id with
                              | Some p => poll x =? p
                              | None => false
                              end) query
        else query).
Proof.
  destruct poll_id as [p|]; cbn [bindable Python.where_poll]; [|reflexivity].
  intros H. unfold bound. rewrite H.
  destruct (Python.truthy (Some p)); reflexivity.
Qed.

(** Paging a listing. For [skip >= 0] and limits [a, b >= 0] such that
    [skip + a] and [a + b] fit an SQLite [INTEGER], the page [(skip, a)]
    followed by the page [(skip + a, b)] is the page [(skip, a + b)], for
    each of the five listings and in whatever order SQLite yields the rows;
    a page of voters in an order that keeps the rows has
    [min a (rows left after skip)] of them; and a [skip] or [limit] that
    does not fit ends every listing in an [OverflowError]. *)
Theorem listing_pages (s : Store) :
  (forall skip a b,
     0 <= skip -> 0 <= a -> 0 <= b ->
     int64 (skip + a) = true -> int64 (a + b) = true ->
     (forall order active_only,
        exists p1 p2,
          Python.read_elections order skip a active_only s = Ok p1
          /\ Python.read_elections order (skip + a) b active_only s = Ok p2
          /\ Python.read_elections order skip (a + b) active_only s
             = Ok (p1 ++ p2))
     /\ (forall order active_only,
           exists p1 p2,
             Python.read_polls order skip a active_only s = Ok p1
             /\ Python.read_polls order (skip + a) b active_only s = Ok p2
             /\ Python.read_polls order skip (a + b) active_only s
                = Ok (p1 ++ p2))
     /\ (forall order poll_id,
           bindable poll_id = true ->
           exists p1 p2,
             Python.read_candidates order skip a poll_id s = Ok p1
             /\ Python.read_candidates order (skip + a) b poll_id s = Ok p2
             /\ Python.read_candidates order skip (a + b) poll_id s
                = Ok (p1 ++ p2))
     /\ (forall order verified_only,
           exists p1 p2,
             Python.read_voters order skip a verified_only s = Ok p1
             /\ Python.read_voters order (skip + a) b verified_only s = Ok p2
             /\ Python.read_voters order skip (a + b) verified_only s
                = Ok (p1 ++ p2)
             /\ (keeps_rows order ->
                 Z.of_nat (List.length p1)
                 = Z.min a
                     (Z.max 0
                        (Z.of_nat
                           (List.length
                              (if verified_only
                               then filter Voter.is_verified (voters s)
                               else voters s)) - skip))))
     /\ (forall order poll_id,
           bindable poll_id = true ->
           exists p1 p2,
             Python.read_votes order skip a poll_id s = Ok p1
             /\ Python.read_votes order (skip + a) b poll_id s = Ok p2
             /\ Python.read_votes order skip (a + b) poll_id s
                = Ok (p1 ++ p2)))
  /\ (forall skip limit,
        int64 limit = false \/ int64 skip = false ->
        (forall order active_only,
           Python.read_elections order skip limit active_only s
           = Raise OverflowError)
        /\ (forall order active_only,
              Python.read_polls order skip limit active_only s
              = Raise OverflowError)
        /\ (forall order poll_id,
              Python.read_candidates order skip limit poll_id s
              = Raise OverflowError)
        /\ (forall order verified_only,
              Python.read_voters order skip limit verified_only s
              = Raise OverflowError)
        /\ (forall order poll_id,
              Python.read_votes order skip limit poll_id s
              = Raise OverflowError)).
Proof.
  split.
  - intros skip a b Hs Ha Hb Hsa Hab.
    split; [|split; [|split; [|split]]].
    + intros order active_only. unfold Python.read_elections.
      destruct (offset_limit_pages skip a b
                  (order active_only
                     (if active_only
                      then filter Election.is_active (elections s)
                      else elections s)) Hs Ha Hb Hsa Hab)
        as [p1 [p2 [H1 [H2 [H3 _]]]]].
      now exists p1, p2.
    + intros order active_only. unfold Python.read_polls.
      destruct (offset_limit_pages skip a b
                  (order active_only
                     (if active_only then filter Poll.is_active (polls s)
                      else polls s)) Hs Ha Hb Hsa Hab)
        as [p1 [p2 [H1 [H2 [H3 _]]]]].
      now exists p1, p2.
    + intros order poll_id Hp. unfold Python.read_candidates.
      rewrite (where_poll_bindable _ _ _ Hp). cbn [bind].
      match goal with
      | |- context [Python.offset_limit skip a ?rows] =>
          destruct (offset_limit_pages skip a b rows Hs Ha Hb Hsa Hab)
            as [p1 [p2 [H1 [H2 [H3 _]]]]]
      end.
      now exists p1, p2.
    + intros order verified_only. unfold Python.read_voters.
      destruct (offset_limit_pages skip a b
                  (order verified_only
                     (if verified_only
                      then filter Voter.is_verified (voters s)
                      else voters s)) Hs Ha Hb Hsa Hab)
        as [p1 [p2 [H1 [H2 [H3 Hlen]]]]].
      exists p1, p2. do 3 (split; [assumption|]).
      intros Hkeep. rewrite Hlen.
      now rewrite (Permutation_length (Hkeep verified_only _)).
    + intros order poll_id Hp. unfold Python.read_votes.
      rewrite (where_poll_bindable _ _ _ Hp). cbn [bind].
      match goal with
      | |- context [Python.offset_limit skip a ?rows] =>
          destruct (offset_limit_pages skip a b rows Hs Ha Hb Hsa Hab)
            as [p1 [p2 [H1 [H2 [H3 _]]]]]
      end.
      exists (map VoteResponse_from_orm p1), (map VoteResponse_from_orm p2).
      rewrite H1, H2, H3. cbn [bind]. now rewrite map_app.
  - intros skip limit H.
    split; [|split; [|split; [|split]]].
    + intros order active_only. now apply offset_limit_overflow.
    + intros order active_only. now apply offset_limit_overflow.
    + intros order poll_id. unfold Python.read_candidates.
      destruct (Python.where_poll Candidate.poll_id poll_id (candidates s))
        as [query|e] eqn:W.
      * cbn [bind]. now apply offset_limit_overflow.
      * destruct poll_id as [p|]; cbn [Python.where_poll] in W;
          [|discriminate].
        destruct (Python.truthy (Some p)); [|discriminate].
        unfold bound in W. destruct (int64 p); [discriminate|].
        now inversion W.
    + intros order verified_only. now apply offset_limit_overflow.
    + intros order poll_id. unfold Python.read_votes.
      destruct (Python.where_poll Vote.poll_id poll_id (votes s))
        as [query|e] eqn:W.
      * cbn [bind]. now rewrite offset_limit_overflow.
      * destruct poll_id as [p|]; cbn [Python.where_poll] in W;
          [|discriminate].
        destruct (Python.truthy (Some p)); [|discriminate].
        unfold bound in W. destruct (int64 p); [discriminate|].
        now inversion W.
Qed.

Lemma keeps_rows_index_order : keeps_rows index_order.
Proof.
  intros [] rows; cbn [index_order]; [apply stable_sort_perm | reflexivity].
Qed.

Lemma keeps_rows_table_order {A} : keeps_rows (@table_order A).
Proof. intros condition rows. reflexivity. Qed.

(** The active elections, which the index yields in the order of their
    start dates, by pages of one and two; and two limits of 2^62. *)
Lemma listing_pages_witness :
  (exists p1 p2,
     Python.read_elections index_order 0 1 true store_elections = Ok p1
     /\ Python.read_elections index_order 1 2 true store_elections = Ok p2
     /\ Python.read_elections index_order 0 3 true store_elections
        = Ok (p1 ++ p2)
     /\ map Election.id p1 = [2] /\ map Election.id p2 = [4; 1])
  /\ Python.read_voters table_order 0 (2 ^ 62 + 2 ^ 62) false store_tie
     = Raise OverflowError.
Proof.
  destruct (listing_pages store_elections) as [Hpages _].
  destruct (listing_pages store_tie) as [_ Hover].
  split.
  - destruct (Hpages 0 1 2) as [He _]; try reflexivity; try discriminate.
    destruct (He index_order true) as [p1 [p2 [H1 [H2 H3]]]].
    exists p1, p2. do 3 (split; [assumption|]).
    vm_compute in H1, H2. injection H1 as <-. injection H2 as <-.
    split; reflexivity.
  - destruct (Hover 0 (2 ^ 62 + 2 ^ 62)) as [_ [_ [_ [Hv _]]]];
      [left; reflexivity|].
    apply Hv.
Defined.

Section Filters.
Context {A : Type}.
Variable order : bool -> list A -> list A.
Hypothesis order_keeps : keeps_rows order.

Lemma unpaged_listing (condition : bool) (query : list A) :
  exists l, Python.offset_limit 0 (-1) (order condition query) = Ok l
            /\ Permutation l query.
Proof.
  exists (order condition query). split; [apply offset_limit_all|].
  apply order_keeps.
Qed.

Lemma page_of_listing (skip limit : Z) (condition : bool)
  (query page : list A) (x : A) :
  Python.offset_limit skip limit (order condition query) = Ok page ->
  In x page -> In x query.
Proof.
  intros H Hx. apply (offset_limit_In _ _ _ _ _ H) in Hx.
  now apply (Permutation_in _ (order_keeps condition query)).
Qed.

End Filters.



(* ================================================================== *)
(** * The tallies: their only error, and how they agree *)
(* ================================================================== *)

(** For an id that SQLite holds, the tallies only fail with the 404 of a
    poll or election that does not exist. *)
Lemma tally_errors_int64 (s : Store) :
  (forall poll_id e,
     get_poll_results poll_id s = Raise e ->
     e = HTTPException 404 detail_poll_not_found
     /\ Poll_get s poll_id = Raise (DoesNotExist PollM))
  /\ (forall poll_id poll,
        Poll_get s poll_id = Ok poll ->
        exists r, get_poll_results poll_id s = Ok r
                  /\ PollResults.poll_id r = poll_id
                  /\ List.length (PollResults.results r)
                     = List.length (Poll_candidates s poll))
  /\ (forall election_id e,
        get_election_stats election_id s = Raise e ->
        e = HTTPException 404 detail_election_not_found
        /\ Election_get s election_id = Raise (DoesNotExist ElectionM))
  /\ (forall election_id election,
        Election_get s election_id = Ok election ->
        exists r, get_election_stats election_id s = Ok r
                  /\ ElectionStats.election_id r = election_id
                  /\ ElectionStats.total_polls r
                     = Z.of_nat (List.length (ElectionStats.polls r))).
Proof.
  split; [|split; [|split]].
  - intros poll_id e H.
    destruct (Poll_get_cases s poll_id) as [[poll [G _]]|G].
    + rewrite (get_poll_results_found _ _ _ G) in H. discriminate.
    + unfold get_poll_results in H. rewrite G in H. cbn in H.
      inversion H. now split.
  - intros poll_id poll G. exists (poll_results_of s poll).
    split; [now apply get_poll_results_found|].
    destruct (Poll_get_cases s poll_id) as [[p [G' [_ Hid]]]|G'];
      rewrite G' in G; [|discriminate].
    inversion G; subst p. split; [exact Hid|].
    cbn [poll_results_of PollResults.results].
    rewrite (Permutation_length (list_sort_perm ResultEntry.votes true _)).
    apply length_map.
  - intros election_id e H.
    destruct (Election_get_cases s election_id) as [[el [G _]]|G].
    + rewrite (get_election_stats_found _ _ _ G) in H. discriminate.
    + unfold get_election_stats in H. rewrite G in H. cbn in H.
      inversion H. now split.
  - intros election_id election G. exists (election_stats_of s election).
    split; [now apply get_election_stats_found|].
    destruct (Election_get_cases s election_id) as [[el [G' [_ Hid]]]|G'];
      rewrite G' in G; [|discriminate].
    inversion G; subst el. split; [exact Hid|].
    cbn [election_stats_of ElectionStats.total_polls ElectionStats.polls].
    now rewrite length_map.
Qed.

Lemma get_poll_results_any (poll_id : Z) (s : Store) :
  Python.get_poll_results poll_id s
  = if int64 poll_id then get_poll_results poll_id s
    else Raise OverflowError.
Proof.
  unfold Python.get_poll_results, get_poll_results, Python.get, bound.
  destruct (int64 poll_id); reflexivity.
Qed.

Lemma get_election_stats_any (election_id : Z) (s : Store) :
  Python.get_election_stats election_id s
  = if int64 election_id then get_election_stats election_id s
    else Raise OverflowError.
Proof.
  unfold Python.get_election_stats, get_election_stats, Python.get, bound.
  destruct (int64 election_id); reflexivity.
Qed.



Lemma Poll_get_of_row (s : Store) (p : Poll.t) :
  NoDup (map Poll.id (polls s)) -> In p (polls s) ->
  Poll_get s (Poll.id p) = Ok p.
Proof.
  intros Hnd Hin.
  destruct (Poll_get_cases s (Poll.id p)) as [[q [G [Hq Hid]]]|G].
  - rewrite G. f_equal.
    now apply (primary_key_injective Poll.id (polls s)).
  - unfold Poll_get in G.
    destruct (find _ (polls s)) eqn:F; [discriminate|].
    apply (find_none _ _ F) in Hin. cbn in Hin.
    now rewrite Z.eqb_refl in Hin.
Qed.

(** The statistics of an election and the results of its polls agree: for
    every poll listed in the statistics, the results of that poll exist,
    have the same title, report its [votes_count] as [unique_voters]
    and list [candidates_count] candidates. Poll ids are unique. *)
Theorem election_stats_agree_with_poll_results (s : Store) (election_id : Z)
  (r : ElectionStats.t) :
  NoDup (map Poll.id (polls s)) ->
  get_election_stats election_id s = Ok r ->
  Forall (fun st =>
            exists pr,
              get_poll_results (PollStats.poll_id st) s = Ok pr
              /\ PollResults.poll_title pr = PollStats.poll_title st
              /\ PollResults.unique_voters pr = PollStats.votes_count st
              /\ Z.of_nat (List.length (PollResults.results pr))
                 = PollStats.candidates_count st)
         (ElectionStats.polls r).
Proof.
  intros Hnd H. apply get_election_stats_inv in H. destruct H as [e [_ ->]].
  cbn [election_stats_of ElectionStats.polls].
  apply Forall_forall. intros st Hst. apply in_map_iff in Hst.
  destruct Hst as [p [<- Hp]]. apply filter_In in Hp. destruct Hp as [Hp _].
  exists (poll_results_of s p). cbn [stats_of PollStats.poll_id].
  split; [apply get_poll_results_found; now apply Poll_get_of_row|].
  cbn [poll_results_of stats_of PollResults.poll_title
       PollResults.unique_voters PollResults.results PollStats.poll_title
       PollStats.votes_count PollStats.candidates_count].
  repeat split.
  rewrite (Permutation_length (list_sort_perm ResultEntry.votes true _)).
  now rewrite length_map.
Qed.

Lemma election_stats_agree_with_poll_results_witness :
  Forall (fun st =>
            exists pr,
              get_poll_results (PollStats.poll_id st) store_two_polls = Ok pr
              /\ PollResults.poll_title pr = PollStats.poll_title st
              /\ PollResults.unique_voters pr = PollStats.votes_count st
              /\ Z.of_nat (List.length (PollResults.results pr))
                 = PollStats.candidates_count st)
         (ElectionStats.polls (election_stats_of store_two_polls election_E)).
Proof.
  apply (election_stats_agree_with_poll_results store_two_polls 1).
  - exact NoDup_poll_ids_store_two_polls.
  - vm_compute. reflexivity.
Defined.

(* ================================================================== *)
(** * Polls: creating and updating *)
(* ================================================================== *)

Lemma filter_none {A} (p : A -> bool) (l : list A) :
  (forall x, In x l -> p x = false) -> filter p l = [].
Proof.
  induction l as [|x l IH]; intros H; cbn [filter]; [reflexivity|].
  rewrite (H x (or_introl eq_refl)). apply IH. intros y Hy. apply H.
  now right.
Qed.

(** [create_poll] for integers that SQLite holds: 404 when the election
    does not exist; otherwise the poll is stored under an unused id, as the
    last poll of its election, with the [max_votes_per_voter] and
    [is_active] of the request; and on a store with intact references its
    results are empty, with no votes. *)
Lemma create_poll_int64_outcomes (now : datetime) (poll : PollCreate.t)
  (s : Store) :
  (Election_get s (PollCreate.election_id poll)
   = Raise (DoesNotExist ElectionM) ->
   create_poll now poll s
   = Raise (HTTPException 404 detail_election_not_found))
  /\ (forall election,
        Election_get s (PollCreate.election_id poll) = Ok election ->
        exists row s',
          create_poll now poll s = Ok (row, s')
          /\ ~ In (Poll.id row) (map Poll.id (polls s))
          /\ Poll.election_id row = PollCreate.election_id poll
          /\ Poll.is_active row = PollCreate.is_active poll
          /\ Poll.max_votes_per_voter row
             = PollCreate.max_votes_per_voter poll
          /\ polls s' = polls s ++ [row]
          /\ Election_polls s' election = Election_polls s election ++ [row]
          /\ (foreign_keys_ok s ->
              exists r, get_poll_results (Poll.id row) s' = Ok r
                        /\ PollResults.results r = []
                        /\ PollResults.total_votes r = 0
                        /\ PollResults.unique_voters r = 0)).
Proof.
  split.
  - intros G. unfold create_poll. rewrite G. reflexivity.
  - intros election G. unfold create_poll. rewrite G. cbn [bind].
    unfold Poll_create. rewrite (Election_get_mem _ _ _ G).
    cbn [negb try_except]. do 2 eexists. split; [reflexivity|].
    cbn [Poll.id Poll.election_id Poll.is_active Poll.max_votes_per_voter
         polls].
    split; [apply next_id_fresh|]. do 4 (split; [reflexivity|]). split.
    + unfold Election_polls. cbn [polls]. rewrite filter_app.
      cbn [filter Poll.election_id].
      destruct (Election_get_cases s (PollCreate.election_id poll))
        as [[e [G' [_ Hid]]]|G']; rewrite G' in G; [|discriminate].
      inversion G; subst e. now rewrite Hid, Z.eqb_refl.
    + intros [_ [Fc [Fxp _]]].
      set (row := {| Poll.id := next_id (map Poll.id (polls s));
                     Poll.created_at := now;
                     Poll.election_id := PollCreate.election_id poll;
                     Poll.title := PollCreate.title poll;
                     Poll.description := PollCreate.description poll;
                     Poll.max_votes_per_voter :=
                       PollCreate.max_votes_per_voter poll;
                     Poll.is_active := PollCreate.is_active poll |}).
      set (s' := {| elections := elections s; polls := polls s ++ [row];
                    candidates := candidates s; voters := voters s;
                    votes := votes s |}).
      assert (Poll_get s' (next_id (map Poll.id (polls s))) = Ok row) as Gp.
      { unfold Poll_get. cbn [polls s'].
        pose proof (find_after_insert Poll.id (polls s) row
                      (next_id_fresh _)) as Hf.
        cbn [Poll.id row] in Hf. now rewrite Hf. }
      exists (poll_results_of s' row).
      split; [now apply get_poll_results_found|].
      assert (Poll_candidates s' row = []) as Hc.
      { unfold Poll_candidates. cbn [candidates s' Poll.id row].
        apply filter_none. intros c Hin. apply Z.eqb_neq. intros E.
        specialize (Fc c Hin). apply mem_true_iff in Fc. rewrite E in Fc.
        now apply next_id_fresh in Fc. }
      cbn [poll_results_of PollResults.results PollResults.total_votes
           PollResults.unique_voters]. rewrite Hc.
      split; [reflexivity|]. split; [reflexivity|].
      unfold votes_of_poll. cbn [votes s' Poll.id row].
      apply count_zero_iff. intros v Hv. apply Z.eqb_neq. intros E.
      specialize (Fxp v Hv). apply mem_true_iff in Fxp. rewrite E in Fxp.
      now apply next_id_fresh in Fxp.
Qed.

Lemma create_poll_int64 (now : datetime) (poll : PollCreate.t) (s : Store) :
  int64 (PollCreate.election_id poll) = true ->
  int64 (PollCreate.max_votes_per_voter poll) = true ->
  Python.create_poll now poll s = create_poll now poll s.
Proof.
  intros He Hm. unfold Python.create_poll, create_poll, Python.get, bound.
  rewrite He, Hm. cbn [bind].
  destruct (Election_get s (PollCreate.election_id poll)); reflexivity.
Qed.



(* ================================================================== *)
(** * Closing a gate with an update *)
(* ================================================================== *)

Lemma try_except_Raise {A} (e : exn) (h : exn -> option exn) (a : A) :
  try_except (Raise e) h <> Ok a.
Proof. unfold try_except. destruct (h e); discriminate. Qed.

(** An admitted vote has found the gates as the last updates left them. *)
Lemma admitted_vote_gates (now created_at voted_at : datetime)
  (vote : VoteCreate.t) (s s' s'' : Store) (resp : VoteResponse.t) :
  create_vote now created_at voted_at vote s' = Ok (resp, s'') ->
  (forall poll row,
     update_poll (VoteCreate.poll_id vote) poll s = Ok (row, s') ->
     PollCreate.is_active poll = true)
  /\ (forall voter row,
        update_voter (VoteCreate.voter_id vote) voter s = Ok (row, s') ->
        VoterCreate.is_verified voter = true)
  /\ (forall election_id election row poll,
        update_election election_id election s = Ok (row, s') ->
        Poll_get s' (VoteCreate.poll_id vote) = Ok poll ->
        Poll.election_id poll = election_id ->
        ElectionCreate.start_date election <= now
        <= ElectionCreate.end_date election).
Proof.
  intros H. apply create_vote_ok_inv in H.
  destruct H as [[el [Hvalid Hwin]] _].
  destruct Hvalid as [p [c [v [Gp [_ [Gv [_ [_ [Ha [Hv Ge]]]]]]]]]].
  split; [|split].
  - intros poll row U. unfold update_poll in U.
    destruct (Poll_get s (VoteCreate.poll_id vote)) as [old|x] eqn:G;
      [|now apply try_except_Raise in U].
    cbn [bind] in U.
    destruct (Election_get s (PollCreate.election_id poll)) as [?|x];
      [|now apply try_except_Raise in U].
    cbn [bind] in U. unfold Poll_save in U.
    destruct (negb _); [now apply try_except_Raise in U|].
    cbn [bind try_except] in U. injection U as <- <-.
    unfold Poll_get in G, Gp. cbn [polls] in Gp.
    destruct (find _ (polls s)) as [o|] eqn:F; [|discriminate].
    inversion G; subst o.
    pose proof (find_id_some Poll.id _ _ _ F) as [_ Hid].
    rewrite <- Hid in Gp, F.
    pose proof (find_after_save Poll.id (polls s) old
                  {| Poll.id := Poll.id old;
                     Poll.created_at := Poll.created_at old;
                     Poll.election_id := PollCreate.election_id poll;
                     Poll.title := PollCreate.title poll;
                     Poll.description := PollCreate.description poll;
                     Poll.max_votes_per_voter :=
                       PollCreate.max_votes_per_voter poll;
                     Poll.is_active := PollCreate.is_active poll |} F) as Hf.
    cbn [Poll.id] in Hf. rewrite Hf in Gp. inversion Gp; subst p.
    exact Ha.
  - intros voter row U. unfold update_voter in U.
    destruct (Voter_get s (VoteCreate.voter_id vote)) as [old|x] eqn:G;
      [|now apply try_except_Raise in U].
    cbn [bind] in U. unfold Voter_save in U.
    destruct (existsb _ (voters s)); [now apply try_except_Raise in U|].
    cbn [bind try_except] in U. injection U as <- <-.
    unfold Voter_get in G, Gv. cbn [voters] in Gv.
    destruct (find _ (voters s)) as [o|] eqn:F; [|discriminate].
    inversion G; subst o.
    pose proof (find_id_some Voter.id _ _ _ F) as [_ Hid].
    rewrite <- Hid in Gv, F.
    pose proof (find_after_save Voter.id (voters s) old
                  {| Voter.id := Voter.id old;
                     Voter.created_at := Voter.created_at old;
                     Voter.email := VoterCreate.email voter;
                     Voter.name := VoterCreate.name voter;
                     Voter.is_verified := VoterCreate.is_verified voter |} F)
      as Hf.
    cbn [Voter.id] in Hf. rewrite Hf in Gv. inversion Gv; subst v.
    exact Hv.
  - intros election_id election row poll U Gp' Hel.
    rewrite Gp' in Gp. inversion Gp; subst p.
    unfold update_election in U.
    destruct (Election_get s election_id) as [old|x] eqn:G;
      [|now apply try_except_Raise in U].
    cbn [bind] in U.
    destruct (_ >=? _); [now apply try_except_Raise in U|].
    cbn [bind try_except] in U. injection U as <- <-.
    unfold Poll_election, Election_get, Election_save in Ge, G.
    cbn [elections Election.id] in Ge.
    destruct (find _ (elections s)) as [o|] eqn:F; [|discriminate].
    inversion G; subst o.
    pose proof (find_id_some Election.id _ _ _ F) as [_ Hid].
    rewrite Hel, <- Hid in Ge. rewrite <- Hid in F.
    pose proof (find_after_save Election.id (elections s) old
                  {| Election.id := Election.id old;
                     Election.created_at := Election.created_at old;
                     Election.title := ElectionCreate.title election;
                     Election.description :=
                       ElectionCreate.description election;
                     Election.start_date :=
                       ElectionCreate.start_date election;
                     Election.end_date := ElectionCreate.end_date election;
                     Election.is_active :=
                       ElectionCreate.is_active election |} F) as Hf.
    cbn [Election.id] in Hf. rewrite Hf in Ge. inversion Ge; subst el.
    exact Hwin.
Qed.

(** After [update_poll] has made a poll inactive, [create_vote] admits no
    vote in that poll; after [update_voter] has withdrawn the verification
    of a voter, none of that voter; and at a time outside the dates that
    [update_election] has given an election, none in a poll of that
    election. *)
Theorem update_closes_gate (now created_at voted_at : datetime)
  (vote : VoteCreate.t) (s s' s'' : Store) (resp : VoteResponse.t) :
  (forall poll row,
     update_poll (VoteCreate.poll_id vote) poll s = Ok (row, s') ->
     PollCreate.is_active poll = false ->
     create_vote now created_at voted_at vote s' <> Ok (resp, s''))
  /\ (forall voter row,
        update_voter (VoteCreate.voter_id vote) voter s = Ok (row, s') ->
        VoterCreate.is_verified voter = false ->
        create_vote now created_at voted_at vote s' <> Ok (resp, s''))
  /\ (forall election_id election row poll,
        update_election election_id election s = Ok (row, s') ->
        Poll_get s' (VoteCreate.poll_id vote) = Ok poll ->
        Poll.election_id poll = election_id ->
        now < ElectionCreate.start_date election
        \/ now > ElectionCreate.end_date election ->
        create_vote now created_at voted_at vote s' <> Ok (resp, s'')).
Proof.
  split; [|split].
  - intros poll row U Hoff H.
    destruct (admitted_vote_gates _ _ _ _ s _ _ _ H) as [Hp _].
    rewrite (Hp poll row U) in Hoff. discriminate.
  - intros voter row U Hoff H.
    destruct (admitted_vote_gates _ _ _ _ s _ _ _ H) as [_ [Hv _]].
    rewrite (Hv voter row U) in Hoff. discriminate.
  - intros election_id election row poll U Gp Hel Hout H.
    destruct (admitted_vote_gates _ _ _ _ s _ _ _ H) as [_ [_ He]].
    specialize (He election_id election row poll U Gp Hel). lia.
Qed.

Lemma update_closes_gate_witness :
  update_poll 1 a_closed_poll store_setup
  = Ok ({| Poll.id := 1; Poll.created_at := 1; Poll.election_id := 1;
           Poll.title := "P1"; Poll.description := None;
           Poll.max_votes_per_voter := 1; Poll.is_active := false |},
        store_closed)
  /\ create_vote 50 50 50 (a_vote 1 1 1) store_closed
     <> Ok (commit_vote 50 50 (a_vote 1 1 1) store_setup).
Proof.
  assert (update_poll 1 a_closed_poll store_setup
          = Ok ({| Poll.id := 1; Poll.created_at := 1; Poll.election_id := 1;
                   Poll.title := "P1"; Poll.description := None;
                   Poll.max_votes_per_voter := 1; Poll.is_active := false |},
                store_closed)) as U
    by (vm_compute; reflexivity).
  split; [exact U|].
  destruct (commit_vote 50 50 (a_vote 1 1 1) store_setup) as [resp s''].
  destruct (update_closes_gate 50 50 50 (a_vote 1 1 1) store_setup
              store_closed s'' resp) as [H _].
  exact (H a_closed_poll _ U eq_refl).
Defined.
